(** * smart-advisor: the Todonna synchronisation layer

    A shallow embedding of
      - [src/lib/remotestorage-todonna.ts]  (module [Todonna]: codec, CRUD,
        batches, [replaceAll]),
      - the lightweight [TodonnaModule] shipped next to the AI proxy route,
      - the [useData] hook (reload and saving guard),
      - the AI proxy route ([POST]) and the page that calls it
        ([handleGenerate], [callAiAdvisor]),
    followed by the properties of the specification that were checked
    against them, and by further properties of the code. *)

From stdpp Require Import base option list strings gmap sets pretty.
From Stdlib Require Import ZArith Ascii.
From Stdlib Require QArith.

Local Open Scope Z_scope.
Local Open Scope string_scope.

(* stdpp's solvers clear hypotheses that may already be gone *)
Set Warnings "-clear-no-such-hyp".

(** ** JavaScript values that the code inspects *)

(** A string is truthy when it is not empty; [undefined] is falsy. *)
Definition truthy (v : option string) : bool :=
  match v with
  | Some s => negb (String.eqb s "")
  | None => false
  end.

(** [a || b] on booleans-or-undefined. *)
Definition or_false (v : option bool) : bool := default false v.

(** Values thrown by the store primitive or by the module itself.
    [is_Error] is [error instanceof Error]; [e_string] is [String(error)]. *)
Record JsError := mkError {
  is_Error : bool;
  e_name : option string;
  e_message : option string;
  e_status : option Z;
  e_code : option Z;
  e_string : string;
}.

(** [new Error(msg)] *)
Definition new_Error (msg : string) : JsError :=
  {| is_Error := true; e_name := Some "Error"; e_message := Some msg;
     e_status := None; e_code := None; e_string := "Error: " ++ msg |}.

(** The [RangeError] of [toISOString] on an invalid date. *)
Definition RangeError_invalid_time : JsError :=
  {| is_Error := true; e_name := Some "RangeError";
     e_message := Some "Invalid time value";
     e_status := None; e_code := None;
     e_string := "RangeError: Invalid time value" |}.

Inductive Outcome (A : Type) : Type :=
  | Ok (a : A)
  | Throw (e : JsError).
Arguments Ok {A} a.
Arguments Throw {A} e.

(** The part of the JavaScript [Date] object the modules rely on. A time
    value is a number of milliseconds since the epoch; an invalid date has
    none. *)
Class JsRuntime := {
  toISOString : Z → string;
  Date_parse : string → option Z;
  toDateString : Z → string;
}.

(** A [date] of a todo is a [Date] object or (lightweight module) the raw
    string of the wire. *)
Inductive DateVal :=
  | DateObj (tv : option Z)
  | DateStr (s : string).

(** [new Date(v)] for the values a todo's [date] can hold. *)
Definition new_Date `{JsRuntime} (v : option DateVal) : option Z :=
  match v with
  | None => None
  | Some (DateObj tv) => tv
  | Some (DateStr s) => Date_parse s
  end.

(** [d.toDateString()]: [None] stands for the text "Invalid Date", which no
    valid date prints. *)
Definition dateString `{JsRuntime} (tv : option Z) : option string :=
  toDateString <$> tv.

(** ** Data model *)

(** The wire object ([interface TodonnaItem]). [None] is an absent key.
    [completed] is the legacy boolean read by [fromTodonnaItem]; [removed] is
    one of the additional custom fields the interface allows (the
    lightweight module writes it). *)
Module TodonnaItem.
Record t := mk {
  todo_item_id : option string;
  todo_item_text : option string;
  todo_item_status : option string;
  emoji : option string;
  date : option string;
  time : option string;
  completed : option bool;
  removed : option bool;
}.
Definition empty : t := mk None None None None None None None None.
End TodonnaItem.

(** The domain record ([TodoItem]). [None] is [undefined]. *)
Module TodoItem.
Record t := mk {
  id : string;
  text : option string;
  completed : option bool;
  todo_item_status : option string;
  emoji : option string;
  date : option DateVal;
  time : option string;
  removed : option bool;
}.
End TodoItem.

(** [Partial<TodoItem>]: an outer [None] is a key that the object literal
    does not have, [Some v] a key present with value [v] (possibly
    [undefined]). *)
Module Partial.
Record t := mk {
  id : option string;
  text : option (option string);
  completed : option (option bool);
  todo_item_status : option (option string);
  emoji : option (option string);
  date : option (option DateVal);
  time : option (option string);
  removed : option (option bool);
}.
Definition empty : t := mk None None None None None None None None.

(** A whole todo passed where a partial one is expected
    ([replaceAll] does it): its defined fields are the keys. *)
Definition of_todo (todo : TodoItem.t) : t :=
  {| id := Some (TodoItem.id todo);
     text := Some <$> TodoItem.text todo;
     completed := Some <$> TodoItem.completed todo;
     todo_item_status := Some <$> TodoItem.todo_item_status todo;
     emoji := Some <$> TodoItem.emoji todo;
     date := Some <$> TodoItem.date todo;
     time := Some <$> TodoItem.time todo;
     removed := Some <$> TodoItem.removed todo |}.
End Partial.

(** [{ ...current, ...updates, id }] *)
Definition spread (current : TodoItem.t) (updates : Partial.t) (id : string)
  : TodoItem.t :=
  {| TodoItem.id := id;
     TodoItem.text := default (TodoItem.text current) (Partial.text updates);
     TodoItem.completed :=
       default (TodoItem.completed current) (Partial.completed updates);
     TodoItem.todo_item_status :=
       default (TodoItem.todo_item_status current)
               (Partial.todo_item_status updates);
     TodoItem.emoji := default (TodoItem.emoji current) (Partial.emoji updates);
     TodoItem.date := default (TodoItem.date current) (Partial.date updates);
     TodoItem.time := default (TodoItem.time current) (Partial.time updates);
     TodoItem.removed :=
       default (TodoItem.removed current) (Partial.removed updates) |}.

Record LoadOptions := {
  maxAge : option Z;
  includeRemoved : option bool;
}.

Record BatchOperationOptions := {
  stopOnError : option bool;
  (** the callback: [Some e] when the call throws [e] *)
  onProgress : option (nat → nat → option JsError);
}.

Record BatchResult := {
  succeeded : nat;
  failed : nat;
  errors : list (string * JsError);
}.

(** ** The scope client ([privateClient]) *)

(** What [getObject] resolves to. *)
Inductive JsVal :=
  | Undefined
  | Primitive (is_truthy : bool)
  | Object (o : TodonnaItem.t).

Inductive Call :=
  | GetObject (key : string) (max_age : option Z)
  | GetListing (prefix : string) (max_age : option Z)
  | StoreObject (type key : string) (payload : TodonnaItem.t)
  | Remove (key : string)
  | Progress (completed total : nat).

(** The scope: its documents, the wall clock read by [new Date()], and the
    calls made so far (most recent first). *)
Record World := {
  objects : gmap string JsVal;
  clock : Z;
  calls : list Call;
}.

Inductive ListingFault :=
  | ListingRejects (e : JsError)
  | ListingNotAnObject.

(** Which requests the backend rejects. *)
Record Backend := {
  get_fault : string → option JsError;
  listing_fault : option ListingFault;
  store_fault : string → TodonnaItem.t → option JsError;
  remove_fault : string → option JsError;
}.

(** ** A state-and-exception monad for the asynchronous code *)

Definition Async (S A : Type) : Type := S → Outcome A * S.

Definition ret {S A} (a : A) : Async S A := fun w => (Ok a, w).
Definition throw {S A} (e : JsError) : Async S A := fun w => (Throw e, w).
Definition bind {S A B} (m : Async S A) (k : A → Async S B) : Async S B :=
  fun w =>
    match m w with
    | (Ok a, w') => k a w'
    | (Throw e, w') => (Throw e, w')
    end.

Notation "'await' x ':=' m 'in' k" := (bind m (fun x => k))
  (at level 10, x name, m at level 100, k at level 200,
   format "'[v' 'await'  x  ':='  m  'in' '/' k ']'").

(** A synchronous step that may throw, inside an [async] function. *)
Definition lift {S A} (o : Outcome A) : Async S A := fun w => (o, w).

(** [try { m } catch (e) { h e }] *)
Definition try_catch {S A} (m : Async S A) (h : JsError → Async S A)
  : Async S A :=
  fun w =>
    match m w with
    | (Ok a, w') => (Ok a, w')
    | (Throw e, w') => h e w'
    end.

(** The state of a settled promise ([Promise.allSettled]). *)
Inductive Settled (A : Type) :=
  | fulfilled (value : A)
  | rejected (reason : JsError).
Arguments fulfilled {A} value.
Arguments rejected {A} reason.

Definition settle {S A} (m : Async S A) : Async S (Settled A) :=
  fun w =>
    match m w with
    | (Ok a, w') => (Ok (fulfilled a), w')
    | (Throw e, w') => (Ok (rejected e), w')
    end.

Fixpoint mapM {S A B} (f : A → Async S B) (l : list A) : Async S (list B) :=
  match l with
  | [] => ret []
  | x :: l' =>
      await y := f x in
      await ys := mapM f l' in
      ret (y :: ys)
  end.

(** [Promise.all] over promises that are all started: every one of them
    runs; the result is the list of values, or the first rejection. *)
Fixpoint first_rejection {A} (rs : list (Settled A)) : option JsError :=
  match rs with
  | [] => None
  | rejected e :: _ => Some e
  | fulfilled _ :: rest => first_rejection rest
  end.

Fixpoint values {A} (rs : list (Settled A)) : list A :=
  match rs with
  | [] => []
  | fulfilled a :: rest => a :: values rest
  | rejected _ :: rest => values rest
  end.

Definition Promise_all {S A B} (f : A → Async S B) (l : list A)
  : Async S (list B) :=
  await rs := mapM (fun x => settle (f x)) l in
  match first_rejection rs with
  | Some e => throw e
  | None => ret (values rs)
  end.

Abbreviation M := (Async World).

Definition logged (c : Call) (w : World) : World :=
  {| objects := objects w; clock := clock w; calls := c :: calls w |}.

Definition record_call (c : Call) : M unit := fun w => (Ok tt, logged c w).

Definition read_clock : M Z := fun w => (Ok (clock w), w).

Definition set_objects (f : gmap string JsVal → gmap string JsVal) : M unit :=
  fun w => (Ok tt, {| objects := f (objects w); clock := clock w;
                      calls := calls w |}).

(** The schema declared for 'todonna-item' requires [todo_item_text];
    [storeObject] rejects a payload that fails validation. *)
Definition ValidationError : JsError :=
  {| is_Error := false; e_name := None; e_message := None;
     e_status := None; e_code := None; e_string := "[object Object]" |}.

Definition validates (payload : TodonnaItem.t) : bool :=
  bool_decide (is_Some (TodonnaItem.todo_item_text payload)).

Section Client.
Context (bk : Backend).

Definition getObject (key : string) (max_age : option Z) : M JsVal :=
  await _ := record_call (GetObject key max_age) in
  match get_fault bk key with
  | Some e => throw e
  | None => fun w => (Ok (default Undefined (objects w !! key)), w)
  end.

(** [Some keys] is a listing object with these keys. *)
Definition getListing (prefix : string) (max_age : option Z)
  : M (option (list string)) :=
  await _ := record_call (GetListing prefix max_age) in
  match listing_fault bk with
  | Some (ListingRejects e) => throw e
  | Some ListingNotAnObject => ret None
  | None => fun w => (Ok (Some (map_to_list (objects w)).*1), w)
  end.

Definition storeObject (type key : string) (payload : TodonnaItem.t)
  : M unit :=
  await _ := record_call (StoreObject type key payload) in
  if validates payload then
    match store_fault bk key payload with
    | Some e => throw e
    | None => set_objects (insert key (Object payload))
    end
  else throw ValidationError.

Definition remove_key (key : string) : M unit :=
  await _ := record_call (Remove key) in
  match remove_fault bk key with
  | Some e => throw e
  | None => set_objects (delete key)
  end.
End Client.

(** ** The [Todonna] module ([src/lib/remotestorage-todonna.ts]) *)

Module Todonna.
Section Builder.
Context `{JsRuntime} (bk : Backend).

(** [toTodonnaItem]: only defined values reach the payload. The
    conversion of an invalid [Date] throws. *)
Definition toTodonnaItem (todo : TodoItem.t) : Outcome TodonnaItem.t :=
  let status :=
    match TodoItem.completed todo with
    | Some c => Some (if c then "done" else "pending")
    | None => TodoItem.todo_item_status todo
    end in
  let emoji :=
    match TodoItem.emoji todo with
    | Some e => if String.eqb e "" then None else Some e
    | None => None
    end in
  let time :=
    match TodoItem.time todo with
    | Some t => if String.eqb t "" then None else Some t
    | None => None
    end in
  let item date :=
    {| TodonnaItem.todo_item_id := Some (TodoItem.id todo);
       TodonnaItem.todo_item_text := TodoItem.text todo;
       TodonnaItem.todo_item_status := status;
       TodonnaItem.emoji := emoji;
       TodonnaItem.date := date;
       TodonnaItem.time := time;
       TodonnaItem.completed := None;
       TodonnaItem.removed := None |} in
  match TodoItem.date todo with
  | None => Ok (item None)
  | Some (DateObj (Some tv)) => Ok (item (Some (toISOString tv)))
  | Some (DateObj None) => Throw RangeError_invalid_time
  | Some (DateStr s) => Ok (item (Some s))
  end.

(** [fromTodonnaItem]; [now] is what [new Date()] returns at the call. *)
Definition fromTodonnaItem (now : Z) (id : string) (item : TodonnaItem.t)
  : TodoItem.t :=
  let completed :=
    if truthy (TodonnaItem.todo_item_status item)
    then bool_decide (TodonnaItem.todo_item_status item = Some "done")
    else bool_decide (TodonnaItem.completed item = Some true) in
  {| TodoItem.id :=
       if truthy (TodonnaItem.todo_item_id item)
       then default id (TodonnaItem.todo_item_id item) else id;
     TodoItem.text := TodonnaItem.todo_item_text item;
     TodoItem.completed := None;
     TodoItem.todo_item_status :=
       Some (if completed then "done" else "pending");
     TodoItem.emoji := TodonnaItem.emoji item;
     TodoItem.date :=
       Some (DateObj (if truthy (TodonnaItem.date item)
                      then Date_parse (default "" (TodonnaItem.date item))
                      else Some now));
     TodoItem.time := TodonnaItem.time item;
     TodoItem.removed := Some false |}.

Definition add (todo : TodoItem.t) : M unit :=
  await item := lift (toTodonnaItem todo) in
  storeObject bk "todonna-item" (TodoItem.id todo) item.

Definition not_found (id : string) : JsError :=
  new_Error ("Todo with id " ++ id ++ " not found").

Definition update (id : string) (updates : Partial.t) : M unit :=
  await existing := getObject bk id (Some 0) in
  match existing with
  | Object o =>
      await now := read_clock in
      let currentTodo := fromTodonnaItem now id o in
      let updatedTodo := spread currentTodo updates id in
      await item := lift (toTodonnaItem updatedTodo) in
      storeObject bk "todonna-item" id item
  | _ => throw (not_found id)
  end.

Definition remove (id : string) : M unit := remove_key bk id.

(** [null] is [None]. *)
Definition get (id : string) (max_age : option Z) : M (option TodoItem.t) :=
  await item := getObject bk id max_age in
  match item with
  | Object o =>
      if bool_decide (is_Some (TodonnaItem.todo_item_text o)) then
        await now := read_clock in
        ret (Some (fromTodonnaItem now id o))
      else ret None
  | _ => ret None
  end.

(** The loop over [results] at the end of [getAll]. *)
Fixpoint collect (include_removed : bool)
    (results : list (Settled (option TodoItem.t))) : list TodoItem.t :=
  match results with
  | [] => []
  | fulfilled (Some value) :: rest =>
      if include_removed || negb (or_false (TodoItem.removed value))
      then value :: collect include_removed rest
      else collect include_removed rest
  | _ :: rest => collect include_removed rest
  end.

(** The callback [async (filename) => ...] that [getAll] maps over the
    listing. *)
Definition load (max_age : Z) (filename : string) : M (option TodoItem.t) :=
  await item := getObject bk filename (Some max_age) in
  match item with
  | Object o =>
      if bool_decide (is_Some (TodonnaItem.todo_item_text o)) then
        await now := read_clock in
        ret (Some (fromTodonnaItem now filename o))
      else ret None
  | _ => ret None
  end.

Definition getAll (options : option LoadOptions) : M (list TodoItem.t) :=
  let max_age := default 86400000 (options ≫= maxAge) in
  let include_removed := default false (options ≫= includeRemoved) in
  await listing := getListing bk "" (Some max_age) in
  match listing with
  | None => ret []
  | Some filenames =>
      await results :=
        mapM (fun filename => settle (load max_age filename)) filenames in
      ret (collect include_removed results)
  end.

Definition getByDate (date : option Z) (options : option LoadOptions)
  : M (list TodoItem.t) :=
  await allTodos := getAll options in
  let targetDateStr := dateString date in
  ret (filter (fun todo =>
                 dateString (new_Date (TodoItem.date todo)) = targetDateStr)
              allTodos).

(** [error instanceof Error ? error : new Error(String(error))] *)
Definition as_Error (error : JsError) : JsError :=
  if is_Error error then error else new_Error (e_string error).

(** [options?.onProgress?.(completed, total)] *)
Definition report (options : option BatchOperationOptions)
    (completed total : nat) : M unit :=
  match options ≫= onProgress with
  | None => ret tt
  | Some callback =>
      await _ := record_call (Progress completed total) in
      match callback completed total with
      | Some e => throw e
      | None => ret tt
      end
  end.

Section Loop.
Context {A : Type} (op : A → M unit) (id_of : A → string)
        (options : option BatchOperationOptions) (total : nat).

(** The body of [try]: the result as it stands when the block is left,
    and the error caught, if any. *)
Definition attempt (item : A) (i : nat) (result : BatchResult)
  : M (BatchResult * option JsError) :=
  fun w =>
    match op item w with
    | (Throw e, w1) => (Ok (result, Some e), w1)
    | (Ok _, w1) =>
        let result1 :=
          {| succeeded := S (succeeded result);
             failed := failed result;
             errors := errors result |} in
        match report options (i + 1) total w1 with
        | (Ok _, w2) => (Ok (result1, None), w2)
        | (Throw e, w2) => (Ok (result1, Some e), w2)
        end
    end.

(** [for (let i = ...; i < items.length; i++) { try ... catch ... }],
    from index [i] on, [items] being what is left. *)
Fixpoint loop (i : nat) (items : list A) (result : BatchResult)
  : M BatchResult :=
  match items with
  | [] => ret result
  | item :: rest =>
      await r := attempt item i result in
      match r with
      | (result1, None) => loop (S i) rest result1
      | (result1, Some error) =>
          let result2 :=
            {| succeeded := succeeded result1;
               failed := S (failed result1);
               errors :=
                 errors result1 ++ [(id_of item, as_Error error)] |} in
          if default false (options ≫= stopOnError)
          then ret result2
          else loop (S i) rest result2
      end
  end.

(** One iteration of the loop that does not [break]. *)
Definition iterate (item : A) (i : nat) (result : BatchResult)
  : M BatchResult :=
  await r := attempt item i result in
  ret match r with
      | (result1, None) => result1
      | (result1, Some error) =>
          {| succeeded := succeeded result1;
             failed := S (failed result1);
             errors := errors result1 ++ [(id_of item, as_Error error)] |}
      end.
End Loop.

Definition empty_result : BatchResult :=
  {| succeeded := 0; failed := 0; errors := [] |}.

Definition batchAdd (todos : list TodoItem.t)
    (options : option BatchOperationOptions) : M BatchResult :=
  loop add TodoItem.id options (length todos) 0 todos empty_result.

Definition batchUpdate (updates : list (string * Partial.t))
    (options : option BatchOperationOptions) : M BatchResult :=
  loop (fun u => update u.1 u.2) fst options (length updates) 0 updates
       empty_result.

Definition batchRemove (ids : list string)
    (options : option BatchOperationOptions) : M BatchResult :=
  loop remove (fun id => id) options (length ids) 0 ids empty_result.

Definition clearByDate (date : option Z) : M nat :=
  await todos := getByDate date None in
  let ids := TodoItem.id <$> todos in
  await result := batchRemove ids None in
  ret (succeeded result).

Definition clearCompletedByDate (date : option Z) : M nat :=
  await todos := getByDate date None in
  let completedIds :=
    TodoItem.id <$>
      filter (fun t => TodoItem.todo_item_status t = Some "done") todos in
  await result := batchRemove completedIds None in
  ret (succeeded result).

Definition clearIncompleteByDate (date : option Z) : M nat :=
  await todos := getByDate date None in
  let incompleteIds :=
    TodoItem.id <$>
      filter (fun t => TodoItem.todo_item_status t = Some "pending") todos in
  await result := batchRemove incompleteIds None in
  ret (succeeded result).

(** The three-way diff computed by [replaceAll]. *)
Record Diff := {
  toAdd : list TodoItem.t;
  toUpdate : list TodoItem.t;
  toRemove : list string;
}.

Definition ids_of (todos : list TodoItem.t) : gset string :=
  list_to_set (TodoItem.id <$> todos).

Definition diff (existing todos : list TodoItem.t) : Diff :=
  let existingIds := ids_of existing in
  let newIds := ids_of todos in
  {| toAdd := filter (fun t => TodoItem.id t ∉ existingIds) todos;
     toUpdate := filter (fun t => TodoItem.id t ∈ existingIds) todos;
     toRemove :=
       TodoItem.id <$> filter (fun t => TodoItem.id t ∉ newIds) existing |}.

Definition merge_results (a u r : BatchResult) : BatchResult :=
  {| succeeded := succeeded a + succeeded u + succeeded r;
     failed := failed a + failed u + failed r;
     errors := errors a ++ errors u ++ errors r |}.

(** A batch on its way: the index of its loop, the items that are left
    and the result so far. *)
Record Running (A : Type) := {
  total : nat;
  index : nat;
  pending : list A;
  so_far : BatchResult;
}.
#[global] Arguments total {A} _.
#[global] Arguments index {A} _.
#[global] Arguments pending {A} _.
#[global] Arguments so_far {A} _.

Definition started {A} (items : list A) : Running A :=
  {| total := length items; index := 0; pending := items;
     so_far := empty_result |}.

Definition advanced {A} (b : Running A) (rest : list A)
    (result : BatchResult) : Running A :=
  {| total := total b; index := S (index b); pending := rest;
     so_far := result |}.

(** Which of the three batches of [replaceAll] makes the next iteration. *)
Inductive Turn := TurnAdd | TurnUpdate | TurnRemove.

(** [Promise.all([batchAdd(..), batchUpdate(..), batchRemove(..)])]: the
    three loops run concurrently, each from one of its iterations to the
    next. [turns] tells whose iteration comes next (a batch that has
    nothing left passes); when the turns are used up the batches run to
    their end one after the other. No options are passed to them. *)
Fixpoint interleave (turns : list Turn)
    (adds : Running TodoItem.t) (updates : Running (string * Partial.t))
    (removes : Running string)
  : M (BatchResult * BatchResult * BatchResult) :=
  match turns with
  | [] =>
      await addResult :=
        loop add TodoItem.id None (total adds) (index adds) (pending adds)
             (so_far adds) in
      await updateResult :=
        loop (fun u => update u.1 u.2) fst None (total updates)
             (index updates) (pending updates) (so_far updates) in
      await removeResult :=
        loop remove (fun id => id) None (total removes) (index removes)
             (pending removes) (so_far removes) in
      ret (addResult, updateResult, removeResult)
  | TurnAdd :: turns' =>
      match pending adds with
      | [] => interleave turns' adds updates removes
      | todo :: rest =>
          await result :=
            iterate add TodoItem.id None (total adds) todo (index adds)
                    (so_far adds) in
          interleave turns' (advanced adds rest result) updates removes
      end
  | TurnUpdate :: turns' =>
      match pending updates with
      | [] => interleave turns' adds updates removes
      | u :: rest =>
          await result :=
            iterate (fun u => update u.1 u.2) fst None (total updates) u
                    (index updates) (so_far updates) in
          interleave turns' adds (advanced updates rest result) removes
      end
  | TurnRemove :: turns' =>
      match pending removes with
      | [] => interleave turns' adds updates removes
      | id :: rest =>
          await result :=
            iterate remove (fun id => id) None (total removes) id
                    (index removes) (so_far removes) in
          interleave turns' adds updates (advanced removes rest result)
      end
  end.

(** [replaceAll]; [turns] is the order in which the event loop resumes the
    three batches. *)
Definition replaceAll (turns : list Turn) (todos : list TodoItem.t)
  : M BatchResult :=
  await existing :=
    getAll (Some {| maxAge := None; includeRemoved := Some true |}) in
  let d := diff existing todos in
  await results :=
    interleave turns (started (toAdd d))
      (started ((fun t => (TodoItem.id t, Partial.of_todo t)) <$> toUpdate d))
      (started (toRemove d)) in
  let '(addResult, updateResult, removeResult) := results in
  ret (merge_results addResult updateResult removeResult).

Definition count (filter_fn : option (TodoItem.t → bool)) : M nat :=
  await todos := getAll None in
  ret (match filter_fn with
       | Some f => length (List.filter f todos)
       | None => length todos
       end).
End Builder.
End Todonna.

(** ** The lightweight [TodonnaModule] ([src/app/api/ai-proxy/route.js]) *)

Fixpoint includes (needle haystack : string) : bool :=
  String.prefix needle haystack ||
  match haystack with
  | EmptyString => false
  | String _ rest => includes needle rest
  end.

Module TodonnaModule.
Section Builder.
Context `{JsRuntime} (bk : Backend).

(** A [Date] object is truthy, a string when it is not empty. *)
Definition date_truthy (d : option DateVal) : bool :=
  match d with
  | None => false
  | Some (DateObj _) => true
  | Some (DateStr s) => negb (String.eqb s "")
  end.

Definition toStorage (todo : TodoItem.t) : Outcome TodonnaItem.t :=
  let item date :=
    {| TodonnaItem.todo_item_id := Some (TodoItem.id todo);
       TodonnaItem.todo_item_text := TodoItem.text todo;
       TodonnaItem.todo_item_status :=
         if truthy (TodoItem.todo_item_status todo)
         then TodoItem.todo_item_status todo
         else Some (if or_false (TodoItem.completed todo)
                    then "done" else "pending");
       TodonnaItem.emoji := TodoItem.emoji todo;
       TodonnaItem.date := date;
       TodonnaItem.time := TodoItem.time todo;
       TodonnaItem.completed := None;
       TodonnaItem.removed := Some (or_false (TodoItem.removed todo)) |} in
  if date_truthy (TodoItem.date todo) then
    match new_Date (TodoItem.date todo) with
    | Some tv => Ok (item (Some (toISOString tv)))
    | None => Throw RangeError_invalid_time
    end
  else Ok (item None).

Definition fromStorage (id : string) (stored : TodonnaItem.t) : TodoItem.t :=
  {| TodoItem.id :=
       if truthy (TodonnaItem.todo_item_id stored)
       then default id (TodonnaItem.todo_item_id stored) else id;
     TodoItem.text := TodonnaItem.todo_item_text stored;
     TodoItem.completed := None;
     TodoItem.todo_item_status :=
       if truthy (TodonnaItem.todo_item_status stored)
       then TodonnaItem.todo_item_status stored else Some "pending";
     TodoItem.emoji := TodonnaItem.emoji stored;
     TodoItem.date := DateStr <$> TodonnaItem.date stored;
     TodoItem.time := TodonnaItem.time stored;
     TodoItem.removed := Some (or_false (TodonnaItem.removed stored)) |}.

Definition isNotFoundError (error : JsError) : bool :=
  bool_decide (e_status error = Some 404) ||
  bool_decide (e_code error = Some 404) ||
  bool_decide (e_name error = Some "NotFoundError") ||
  match e_message error with
  | Some message => includes "Not Found" message
  | None => false
  end.

(** The properties the codec reads off a value: a primitive has none. *)
Definition properties (stored : JsVal) : TodonnaItem.t :=
  match stored with
  | Object o => o
  | _ => TodonnaItem.empty
  end.

Definition add (todo : TodoItem.t) : M unit :=
  await payload := lift (toStorage todo) in
  storeObject bk "todonna-item" (TodoItem.id todo) payload.

Definition get (id : string) (max_age : option Z) : M (option TodoItem.t) :=
  try_catch
    (await stored := getObject bk id max_age in
     match stored with
     | Undefined | Primitive false => ret None
     | _ => ret (Some (fromStorage id (properties stored)))
     end)
    (fun error => if isNotFoundError error then ret None else throw error).

Definition update (id : string) (updates : Partial.t) : M unit :=
  await existing := get id None in
  match existing with
  | None => throw (new_Error "Todo not found")
  | Some existing =>
      await payload := lift (toStorage (spread existing updates id)) in
      storeObject bk "todonna-item" id payload
  end.

Definition remove (id : string) : M unit := remove_key bk id.

(** The callback [async (key) => ...] that [getAll] maps over the
    listing. *)
Definition load (max_age : Z) (key : string) : M (option TodoItem.t) :=
  try_catch
    (await stored := getObject bk key (Some max_age) in
     match stored with
     | Object o => ret (Some (fromStorage key o))
     | _ => ret None
     end)
    (fun error => if isNotFoundError error then ret None else throw error).

Definition getAll (options : option LoadOptions) : M (list TodoItem.t) :=
  let max_age := default 86400000 (options ≫= maxAge) in
  let include_removed := default false (options ≫= includeRemoved) in
  await listing := getListing bk "" (Some max_age) in
  match listing with
  | None => ret []
  | Some keys =>
      await entries := Promise_all (load max_age) keys in
      ret (List.filter
             (fun todo =>
                include_removed || negb (or_false (TodoItem.removed todo)))
             (omap (fun entry => entry) entries))
  end.
End Builder.
End TodonnaModule.

(** ** The [useData] hook: reload and saving guard *)

Module UseData.
Local Open Scope nat_scope.

(** What a loader resolves to, as far as the hook looks at it. *)
Inductive JsData :=
  | DUndefined
  | DNull
  | DArray (items : list string)
  | DObject (repr : string).

Definition isArray (v : JsData) : bool :=
  match v with DArray _ => true | _ => false end.

Definition data_truthy (v : JsData) : bool :=
  match v with DArray _ | DObject _ => true | _ => false end.

(** The [remoteStorage] instance: its connection flag and what each module
    method settles to; [None] is a method (or module) that is missing, so
    that [?.] skips it. *)
Record Remote := {
  connected : bool;
  has_mymodule : bool;
  has_ai_wallet : bool;
  mymodule_getItemsList : option (Outcome JsData);
  mymodule_loadSettings : option (Outcome JsData);
  todonna_getAll : option (Outcome JsData);
  einkauf_getItemsList : option (Outcome JsData);
  ai_wallet_getConfig : option (Outcome JsData);
  mymodule_saveItem : Outcome unit;
  mymodule_deleteItem : Outcome unit;
  mymodule_saveSettings : Outcome unit;
  ai_wallet_setConfig : Outcome unit;
}.

(** The hook's state. [listening] holds once [changeHandler] has been
    attached; [isSaving] is [isSavingRef.current]; [timers] are
    the deadlines of the pending [setTimeout] callbacks; [now] is the time
    in milliseconds; [console] collects the first argument of each
    [console.error]; [reloads] counts the calls of [loadAllData]. *)
Record State := {
  itemsList : JsData;
  settings : JsData;
  todos : JsData;
  stockItems : JsData;
  aiConfig : JsData;
  isLoading : bool;
  isConnected : bool;
  listening : bool;
  isSaving : bool;
  timers : list nat;
  now : nat;
  console : list string;
  reloads : nat;
}.

Definition initial : State :=
  {| itemsList := DArray []; settings := DObject "{theme,language}";
     todos := DArray []; stockItems := DArray []; aiConfig := DNull;
     isLoading := true; isConnected := false; listening := false;
     isSaving := false;
     timers := []; now := 0; console := []; reloads := 0 |}.

Definition setItemsList (v : JsData) (s : State) : State :=
  {| itemsList := v; settings := settings s; todos := todos s;
     stockItems := stockItems s; aiConfig := aiConfig s;
     isLoading := isLoading s; isConnected := isConnected s;
     listening := listening s; isSaving := isSaving s; timers := timers s;
     now := now s; console := console s; reloads := reloads s |}.
Definition setSettings (v : JsData) (s : State) : State :=
  {| itemsList := itemsList s; settings := v; todos := todos s;
     stockItems := stockItems s; aiConfig := aiConfig s;
     isLoading := isLoading s; isConnected := isConnected s;
     listening := listening s; isSaving := isSaving s; timers := timers s;
     now := now s; console := console s; reloads := reloads s |}.
Definition setTodos (v : JsData) (s : State) : State :=
  {| itemsList := itemsList s; settings := settings s; todos := v;
     stockItems := stockItems s; aiConfig := aiConfig s;
     isLoading := isLoading s; isConnected := isConnected s;
     listening := listening s; isSaving := isSaving s; timers := timers s;
     now := now s; console := console s; reloads := reloads s |}.
Definition setStockItems (v : JsData) (s : State) : State :=
  {| itemsList := itemsList s; settings := settings s; todos := todos s;
     stockItems := v; aiConfig := aiConfig s; isLoading := isLoading s;
     isConnected := isConnected s; listening := listening s;
     isSaving := isSaving s; timers := timers s; now := now s;
     console := console s; reloads := reloads s |}.
Definition setAiConfig (v : JsData) (s : State) : State :=
  {| itemsList := itemsList s; settings := settings s; todos := todos s;
     stockItems := stockItems s; aiConfig := v; isLoading := isLoading s;
     isConnected := isConnected s; listening := listening s;
     isSaving := isSaving s; timers := timers s; now := now s;
     console := console s; reloads := reloads s |}.
Definition setIsLoading (b : bool) (s : State) : State :=
  {| itemsList := itemsList s; settings := settings s; todos := todos s;
     stockItems := stockItems s; aiConfig := aiConfig s; isLoading := b;
     isConnected := isConnected s; listening := listening s;
     isSaving := isSaving s; timers := timers s; now := now s;
     console := console s; reloads := reloads s |}.
Definition setIsConnected (b : bool) (s : State) : State :=
  {| itemsList := itemsList s; settings := settings s; todos := todos s;
     stockItems := stockItems s; aiConfig := aiConfig s;
     isLoading := isLoading s; isConnected := b; listening := listening s;
     isSaving := isSaving s; timers := timers s; now := now s;
     console := console s; reloads := reloads s |}.
Definition setListening (b : bool) (s : State) : State :=
  {| itemsList := itemsList s; settings := settings s; todos := todos s;
     stockItems := stockItems s; aiConfig := aiConfig s;
     isLoading := isLoading s; isConnected := isConnected s; listening := b;
     isSaving := isSaving s; timers := timers s; now := now s;
     console := console s; reloads := reloads s |}.
Definition setIsSaving (b : bool) (s : State) : State :=
  {| itemsList := itemsList s; settings := settings s; todos := todos s;
     stockItems := stockItems s; aiConfig := aiConfig s;
     isLoading := isLoading s; isConnected := isConnected s;
     listening := listening s; isSaving := b; timers := timers s;
     now := now s; console := console s; reloads := reloads s |}.
Definition setTimers (ts : list nat) (s : State) : State :=
  {| itemsList := itemsList s; settings := settings s; todos := todos s;
     stockItems := stockItems s; aiConfig := aiConfig s;
     isLoading := isLoading s; isConnected := isConnected s;
     listening := listening s; isSaving := isSaving s; timers := ts;
     now := now s; console := console s; reloads := reloads s |}.
Definition setNow (t : nat) (s : State) : State :=
  {| itemsList := itemsList s; settings := settings s; todos := todos s;
     stockItems := stockItems s; aiConfig := aiConfig s;
     isLoading := isLoading s; isConnected := isConnected s;
     listening := listening s; isSaving := isSaving s; timers := timers s;
     now := t; console := console s; reloads := reloads s |}.
Definition console_error (msg : string) (s : State) : State :=
  {| itemsList := itemsList s; settings := settings s; todos := todos s;
     stockItems := stockItems s; aiConfig := aiConfig s;
     isLoading := isLoading s; isConnected := isConnected s;
     listening := listening s; isSaving := isSaving s; timers := timers s;
     now := now s; console := msg :: console s; reloads := reloads s |}.
Definition count_reload (s : State) : State :=
  {| itemsList := itemsList s; settings := settings s; todos := todos s;
     stockItems := stockItems s; aiConfig := aiConfig s;
     isLoading := isLoading s; isConnected := isConnected s;
     listening := listening s; isSaving := isSaving s; timers := timers s;
     now := now s; console := console s; reloads := S (reloads s) |}.

Definition modify (f : State → State) : Async State unit :=
  fun s => (Ok tt, f s).

(** [TypeError] of calling a method that does not exist. *)
Definition TypeError_not_a_function : JsError :=
  {| is_Error := true; e_name := Some "TypeError";
     e_message := Some "not a function";
     e_status := None; e_code := None;
     e_string := "TypeError: not a function" |}.

Section Hook.
(** [None] is the hook called with [null]. *)
Context (remoteStorage : option Remote).

(** [if (m?.method) { const v = await m.method(); set(v) }] *)
Definition load_scope (method : Remote → option (Outcome JsData))
    (set : JsData → State → State) : Async State unit :=
  match remoteStorage ≫= method with
  | None => ret tt
  | Some settled =>
      await v := lift settled in
      modify (set v)
  end.

(** [loadAllData]: one [try] around the five loaders. The promise it
    returns never rejects. *)
Definition loadAllData : Async State unit :=
  await _ := modify count_reload in
  fun s =>
    if bool_decide (remoteStorage = None) || negb (isConnected s)
    then modify (setIsLoading false) s
    else
      (await _ := modify (setIsLoading true) in
       await _ :=
         try_catch
           (await _ := load_scope mymodule_getItemsList setItemsList in
            await _ := load_scope mymodule_loadSettings setSettings in
            await _ :=
              load_scope todonna_getAll
                (fun loadedTodos =>
                   setTodos (if isArray loadedTodos then loadedTodos
                             else DArray [])) in
            await _ :=
              load_scope einkauf_getItemsList
                (fun stockList =>
                   setStockItems (if isArray stockList then stockList
                                  else DArray [])) in
            load_scope ai_wallet_getConfig
              (fun config =>
                 setAiConfig (if data_truthy config then config
                              else DNull)))
           (fun error => modify (console_error "Error loading data:")) in
       modify (setIsLoading false)) s.

(** The locally initiated writes that set the saving guard. *)
Inductive Mutation :=
  | SaveItem
  | DeleteItem
  | SaveSettings (newSettings : JsData)
  | SaveAiConfig (config : JsData).

Definition module_present (m : Mutation) : bool :=
  match remoteStorage, m with
  | None, _ => false
  | Some rs, SaveAiConfig _ => has_ai_wallet rs
  | Some rs, _ => has_mymodule rs
  end.

Definition not_connected (m : Mutation) : JsError :=
  match m with
  | SaveItem =>
      new_Error ("RemoteStorage is not connected. " ++
                 "Please connect to RemoteStorage.")
  | _ => new_Error "RemoteStorage is not connected"
  end.

(** A mutation up to its first [await]: the connection check, the guard,
    and for the settings their optimistic update. *)
Definition begin (m : Mutation) : Async State unit :=
  fun s =>
    if negb (module_present m) || negb (isConnected s)
    then throw (not_connected m) s
    else
      (await _ := modify (setIsSaving true) in
       match m with
       | SaveSettings newSettings => modify (setSettings newSettings)
       | _ => ret tt
       end) s.

(** [try { m } finally { f }] *)
Definition try_finally {A} (m : Async State A) (f : State → State)
  : Async State A :=
  fun s => let (o, s') := m s in (o, f s').

(** [setTimeout(() => { isSavingRef.current = false }, 100)] *)
Definition release_guard_later (s : State) : State :=
  setTimers (now s + 100 :: timers s) s.

(** [remoteStorage.mymodule.getItemsList()], not guarded by [?.] *)
Definition call_getItemsList (rs : Remote) : Async State JsData :=
  match mymodule_getItemsList rs with
  | Some settled => lift settled
  | None => throw TypeError_not_a_function
  end.

(** A mutation from the moment its write settles. *)
Definition finish (m : Mutation) : Async State unit :=
  match remoteStorage with
  | None => ret tt
  | Some rs =>
      try_finally
        (match m with
         | SaveItem =>
             try_catch
               (await _ := lift (mymodule_saveItem rs) in
                await updatedList := call_getItemsList rs in
                modify (setItemsList updatedList))
               (fun error =>
                  await _ := modify (console_error "Error saving item:") in
                  await _ := loadAllData in
                  throw error)
         | DeleteItem =>
             try_catch
               (await _ := lift (mymodule_deleteItem rs) in
                await updatedList := call_getItemsList rs in
                modify (setItemsList updatedList))
               (fun error =>
                  await _ :=
                    modify (console_error "Error deleting item:") in
                  throw error)
         | SaveSettings _ =>
             try_catch
               (lift (mymodule_saveSettings rs))
               (fun error =>
                  await _ :=
                    modify (console_error "Error saving settings:") in
                  await _ := loadAllData in
                  throw error)
         | SaveAiConfig config =>
             try_catch
               (await _ := lift (ai_wallet_setConfig rs) in
                modify (setAiConfig config))
               (fun error =>
                  await _ :=
                    modify
                      (console_error "Error saving AI wallet config:") in
                  throw error)
         end)
        release_guard_later
  end.

(** [changeHandler] *)
Definition changeHandler (s : State) : State :=
  if isSaving s then s else (loadAllData s).2.

(** The effects that depend on [isConnected]: the initial load, and the
    subscription to change notifications (never detached). *)
Definition connection_effects (s : State) : State :=
  if bool_decide (remoteStorage = None) || negb (isConnected s)
  then setIsLoading false s
  else setListening true (loadAllData s).2.

(** Timers whose delay has elapsed run their callback. *)
Definition fire_timers (s : State) : State :=
  let due := filter (fun t => t <= now s) (timers s) in
  let left := filter (fun t => ¬ (t <= now s)) (timers s) in
  match due with
  | [] => s
  | _ :: _ => setIsSaving false (setTimers left s)
  end.

(** What the event loop delivers to the hook: its first render, a
    'connected' or 'disconnected' event, a change notification, the start
    of a mutation and the settling of its write, and the passing of time. *)
Inductive Event :=
  | Mount
  | ConnectionEvent
  | Change
  | Begin (m : Mutation)
  | Settle (m : Mutation)
  | Elapse (ms : nat).

(** One turn of the event loop. The effects run on the first render, and
    again when [isConnected] has changed. *)
Definition handle (e : Event) (s : State) : State :=
  match e with
  | Mount =>
      let c := default false (connected <$> remoteStorage) in
      connection_effects (setIsConnected c s)
  | ConnectionEvent =>
      let c := default false (connected <$> remoteStorage) in
      if bool_decide (c = isConnected s) then s
      else connection_effects (setIsConnected c s)
  | Change => if listening s then changeHandler s else s
  | Begin m => (begin m s).2
  | Settle m => (finish m s).2
  | Elapse ms => fire_timers (setNow (now s + ms) s)
  end.



Definition run (es : list Event) (s : State) : State :=
  foldl (fun s e => handle e s) s es.
End Hook.
End UseData.

(** ** A runtime to compute with

    The date-time string format of ECMAScript (the one [toISOString]
    prints), over the proleptic Gregorian calendar, for a time zone at a
    fixed offset from UTC. [parse] accepts the strings [toISOString]
    prints. *)

Module Clock.
Local Open Scope Z_scope.
Definition msPerDay : Z := 86400000.

(** Year, month (1-12) and day of the month of a day number. *)
Definition civil_from_days (days : Z) : Z * Z * Z :=
  let z := days + 719468 in
  let era := z / 146097 in
  let doe := z - era * 146097 in
  let yoe := (doe - doe / 1460 + doe / 36524 - doe / 146096) / 365 in
  let doy := doe - (365 * yoe + yoe / 4 - yoe / 100) in
  let mp := (5 * doy + 2) / 153 in
  let d := doy - (153 * mp + 2) / 5 + 1 in
  let m := if mp <? 10 then mp + 3 else mp - 9 in
  let y := yoe + era * 400 + (if m <=? 2 then 1 else 0) in
  (y, m, d).

Definition days_from_civil (y m d : Z) : Z :=
  let y' := y - (if m <=? 2 then 1 else 0) in
  let era := y' / 400 in
  let yoe := y' - era * 400 in
  let doy := (153 * (if 2 <? m then m - 3 else m + 9) + 2) / 5 + d - 1 in
  let doe := yoe * 365 + yoe / 4 - yoe / 100 + doy in
  era * 146097 + doe - 719468.

Definition digit (n : Z) : ascii := ascii_of_nat (48 + Z.to_nat (n mod 10)).

(** The last [width] decimal digits of [n], in front of [acc]. *)
Fixpoint pad (width : nat) (n : Z) (acc : string) : string :=
  match width with
  | O => acc
  | S w => pad w (n / 10) (String (digit n) acc)
  end.

Definition year_string (y : Z) : string :=
  if (0 <=? y) && (y <=? 9999) then pad 4 y ""
  else if y <? 0 then String "-"%char (pad 6 (- y) "")
  else String "+"%char (pad 6 y "").

Definition iso (tv : Z) : string :=
  let days := tv / msPerDay in
  let ms := tv mod msPerDay in
  let '(y, m, d) := civil_from_days days in
  year_string y ++ "-" ++ pad 2 m "" ++ "-" ++ pad 2 d "" ++ "T" ++
  pad 2 (ms / 3600000) "" ++ ":" ++ pad 2 (ms / 60000 mod 60) "" ++ ":" ++
  pad 2 (ms / 1000 mod 60) "" ++ "." ++ pad 3 (ms mod 1000) "" ++ "Z".

Definition digit_value (c : ascii) : option Z :=
  let n := Z.of_nat (nat_of_ascii c) in
  if (48 <=? n) && (n <=? 57) then Some (n - 48) else None.

Fixpoint number_from (acc : Z) (s : string) : option Z :=
  match s with
  | EmptyString => Some acc
  | String c rest =>
      match digit_value c with
      | Some d => number_from (10 * acc + d) rest
      | None => None
      end
  end.

Definition field (from len : nat) (s : string) : option Z :=
  number_from 0 (String.substring from len s).

(** The fields of a string, the year taking [w] characters from
    position [o]. *)
Definition fields (o w : nat) (sign : Z) (s : string) : option Z :=
  y ← field o w s;
  m ← field (o + w + 1) 2 s;
  d ← field (o + w + 4) 2 s;
  hh ← field (o + w + 7) 2 s;
  mm ← field (o + w + 10) 2 s;
  ss ← field (o + w + 13) 2 s;
  ms ← field (o + w + 16) 3 s;
  Some (days_from_civil (sign * y) m d * msPerDay
        + hh * 3600000 + mm * 60000 + ss * 1000 + ms).

Definition parse (s : string) : option Z :=
  tv ← match s with
       | String "+"%char _ => fields 1 6 1 s
       | String "-"%char _ => fields 1 6 (-1) s
       | _ => fields 0 4 1 s
       end;
  if String.eqb (iso tv) s then Some tv else None.

Definition day_name (n : Z) : string :=
  match n with
  | 0 => "Sun" | 1 => "Mon" | 2 => "Tue" | 3 => "Wed"
  | 4 => "Thu" | 5 => "Fri" | _ => "Sat"
  end.

Definition month_name (m : Z) : string :=
  match m with
  | 1 => "Jan" | 2 => "Feb" | 3 => "Mar" | 4 => "Apr" | 5 => "May"
  | 6 => "Jun" | 7 => "Jul" | 8 => "Aug" | 9 => "Sep" | 10 => "Oct"
  | 11 => "Nov" | _ => "Dec"
  end.

(** The local calendar day, [offset] minutes east of UTC. *)
Definition local_day (offset : Z) (tv : Z) : string :=
  let days := (tv + offset * 60000) / msPerDay in
  let '(y, m, d) := civil_from_days days in
  day_name ((days + 4) mod 7) ++ " " ++ month_name m ++ " " ++
  pad 2 d "" ++ " " ++
  (if y <? 0 then String "-"%char (pad 6 (- y) "") else pad 4 y "").

Definition runtime (offset : Z) : JsRuntime :=
  {| toISOString := iso; Date_parse := parse;
     toDateString := local_day offset |}.
End Clock.

(** ** The AI proxy route ([src/app/api/ai-proxy/route.js], [POST]) *)

#[local] Set Warnings "-register-all".

Module AiProxy.
(** The values of JSON. (A number too large for a double parses to
    Infinity, which behaves here like any number other than 0.) *)
Inductive Json :=
  | JNull
  | JBool (b : bool)
  | JNumber (q : QArith_base.Q)
  | JString (s : string)
  | JArray (items : list Json)
  | JObject (fields : list (string * Json)).

Definition json_truthy (v : Json) : bool :=
  match v with
  | JNull => false
  | JBool b => b
  | JNumber q => negb (QArith_base.Qeq_bool q (QArith_base.Qmake 0 1))
  | JString s => negb (String.eqb s "")
  | JArray _ | JObject _ => true
  end.

(** Truthiness of a value that may be [undefined]. *)
Definition defined_truthy (v : option Json) : bool :=
  match v with
  | Some v => json_truthy v
  | None => false
  end.

Definition isArray (v : option Json) : bool :=
  match v with
  | Some (JArray _) => true
  | _ => false
  end.

(** The value of a key of a parsed object: its last occurrence. *)
Fixpoint get_field (name : string) (fields : list (string * Json))
  : option Json :=
  match fields with
  | [] => None
  | (key, v) :: rest =>
      match get_field name rest with
      | Some later => Some later
      | None => if String.eqb key name then Some v else None
      end
  end.

(** [value.name], [undefined] on anything but an object that has the key. *)
Definition property (name : string) (value : Json) : option Json :=
  match value with
  | JObject fields => get_field name fields
  | _ => None
  end.

(** What [createOpenAI] and [generateText] are called with. *)
Record GenerateRequest := {
  apiKey : Json;
  baseURL : Json;
  model : Json;
  messages : Json;
  temperature : Json;
}.

(** [new Response(JSON.stringify(body), { status, headers })] *)
Record Response := {
  status : Z;
  headers : list (string * string);
  body : Json;
}.

Definition json_response (body : Json) (status : Z) : Response :=
  {| status := status; headers := [("Content-Type", "application/json")];
     body := body |}.

Section Route.
(** [createOpenAI], [openai.chat] and [generateText] together: the [text]
    of the result ([None] when it has none), or what one of them throws. *)
Context (generateText : GenerateRequest → Outcome (option Json)).

(** The state is the list of the requests made to the provider, most
    recent first. *)
Definition call_provider (request : GenerateRequest)
  : Async (list GenerateRequest) (option Json) :=
  fun log => (generateText request, request :: log).

(** [POST(request)]; [request_json] is what [request.json()] settles to. *)
Definition POST (request_json : Outcome Json)
  : Async (list GenerateRequest) Response :=
  try_catch
    (await body := lift request_json in
     let source := if json_truthy body then body else JObject [] in
     let endpoint := property "endpoint" source in
     let apiKey := property "apiKey" source in
     let model := property "model" source in
     let messages := property "messages" source in
     let temperature :=
       default (JNumber (QArith_base.Qmake 1 2))
               (property "temperature" source) in
     if negb (defined_truthy endpoint) || negb (defined_truthy apiKey)
        || negb (defined_truthy model) || negb (isArray messages)
     then
       ret (json_response
              (JObject [("error",
                         JString "Missing endpoint, apiKey, model, or messages.")])
              400)
     else
       await text :=
         call_provider
           {| apiKey := default JNull apiKey;
              baseURL := default JNull endpoint;
              model := default JNull model;
              messages := default JNull messages;
              temperature := temperature |} in
       ret (json_response
              (JObject match text with
                       | Some t => [("text", t)]
                       | None => []
                       end)
              200))
    (fun error =>
       ret (json_response
              (JObject [("error", JString "AI proxy failed");
                        ("detail",
                         JString (if truthy (e_message error)
                                  then default "" (e_message error)
                                  else e_string error))])
              500)).
End Route.
End AiProxy.

(** ** The page ([src/unnamed/part_000], component [Home]) *)

Module Page.
Import AiProxy.

(** The methods of the runtime that the page calls: those of strings, and
    the conversions of a number and of a valid date to a string. *)
Class JsStrings := {
  trim : string → string;
  toLowerCase : string → string;
  Number_toString : QArith_base.Q → string;
  Date_toString : Z → string;
}.

(** An item of the stock, as far as the page looks at it. *)
Record StockItem := {
  name : option string;
  id : option string;
  category : option string;
  quantity : option Json;
}.

(** The AI wallet configuration: [None] is a key that is missing. *)
Record AiConfig := {
  endpoint : option string;
  apiKey : option string;
  llm : option string;
}.

(** What the page takes from the context when it is rendered; [None] is
    [null]. *)
Record Props := {
  isConnected : bool;
  todos : option (list TodoItem.t);
  stockItems : option (list StockItem);
  aiConfig : option AiConfig;
  question : string;
}.

Record Suggestion := {
  title : string;
  detail : string;
  source : string;
}.

(** What [fetch] resolves to. *)
Record FetchResponse := {
  ok : bool;
  response_status : Z;
  response_text : Outcome string;
  response_json : Outcome Json;
}.

(** The state that [handleGenerate] sets, and the bodies of the requests
    it has sent (most recent first). *)
Record State := {
  suggestions : list Suggestion;
  analysis : list string;
  aiAnswer : Json;
  aiError : string;
  status : string;
  isGenerating : bool;
  requests : list Json;
}.

Definition initial : State :=
  {| suggestions := []; analysis := []; aiAnswer := JString "";
     aiError := ""; status := ""; isGenerating := false; requests := [] |}.

Definition setSuggestions (v : list Suggestion) (s : State) : State :=
  {| suggestions := v; analysis := analysis s; aiAnswer := aiAnswer s;
     aiError := aiError s; status := status s;
     isGenerating := isGenerating s; requests := requests s |}.
Definition setAnalysis (v : list string) (s : State) : State :=
  {| suggestions := suggestions s; analysis := v; aiAnswer := aiAnswer s;
     aiError := aiError s; status := status s;
     isGenerating := isGenerating s; requests := requests s |}.
Definition setAiAnswer (v : Json) (s : State) : State :=
  {| suggestions := suggestions s; analysis := analysis s; aiAnswer := v;
     aiError := aiError s; status := status s;
     isGenerating := isGenerating s; requests := requests s |}.
Definition setAiError (v : string) (s : State) : State :=
  {| suggestions := suggestions s; analysis := analysis s;
     aiAnswer := aiAnswer s; aiError := v; status := status s;
     isGenerating := isGenerating s; requests := requests s |}.
Definition setStatus (v : string) (s : State) : State :=
  {| suggestions := suggestions s; analysis := analysis s;
     aiAnswer := aiAnswer s; aiError := aiError s; status := v;
     isGenerating := isGenerating s; requests := requests s |}.
Definition setIsGenerating (v : bool) (s : State) : State :=
  {| suggestions := suggestions s; analysis := analysis s;
     aiAnswer := aiAnswer s; aiError := aiError s; status := status s;
     isGenerating := v; requests := requests s |}.
Definition sent (payload : Json) (s : State) : State :=
  {| suggestions := suggestions s; analysis := analysis s;
     aiAnswer := aiAnswer s; aiError := aiError s; status := status s;
     isGenerating := isGenerating s; requests := payload :: requests s |}.

Definition setState (f : State → State) : Async State unit :=
  fun s => (Ok tt, f s).

(** [String(value)] *)
Fixpoint to_String `{JsStrings} (value : Json) : string :=
  match value with
  | JNull => "null"
  | JBool b => if b then "true" else "false"
  | JNumber q => Number_toString q
  | JString s => s
  | JArray items =>
      (fix elements (l : list Json) : string :=
         match l with
         | [] => ""
         | x :: rest =>
             match x with
             | JNull => ""
             | _ => to_String x
             end
             +:+ match rest with
                 | [] => ""
                 | _ => "," +:+ elements rest
                 end
         end) items
  | JObject _ => "[object Object]"
  end.

(** [array.join(separator)] over values that may be [undefined]. *)
Fixpoint join (separator : string) (items : list (option string)) : string :=
  match items with
  | [] => ""
  | [item] => default "" item
  | item :: rest => default "" item +:+ separator +:+ join separator rest
  end.

Definition newline : string := String "010" "".

Section Component.
Context `{JsStrings}.
(** The network: what [fetch("/api/ai-proxy", { method: "POST", body })]
    settles to, by the parsed body. *)
Context (fetch : Json → Outcome FetchResponse).
Context (props : Props).

(** [useMemo(() => (stockItems || []).filter(...))] *)
Definition lowStockItems : list StockItem :=
  List.filter
    (fun item =>
       match quantity item with
       | Some (JNumber q) =>
           QArith_base.Qle_bool q (QArith_base.Qmake 1 1)
       | _ => false
       end)
    (default [] (stockItems props)).

Definition keywords : list string :=
  ["party"; "celebration"; "birthday"; "gathering"; "dinner"].

Definition partyTodos : list TodoItem.t :=
  List.filter
    (fun todo =>
       existsb
         (fun word =>
            includes word
              (toLowerCase
                 (if truthy (TodoItem.text todo)
                  then default "" (TodoItem.text todo) else "")))
         keywords)
    (default [] (todos props)).

(** [aiConfig?.endpoint] and the like. *)
Definition wallet (field : AiConfig → option string) : option string :=
  aiConfig props ≫= field.

(** The suggestions that [handleGenerate] collects before it turns to the
    AI, in the order of its [push] calls. *)
Definition newSuggestions : list Suggestion :=
  let questionText := toLowerCase (trim (question props)) in
  (if isConnected props then []
   else [{| title := "Connect to RemoteStorage";
            detail := "Log in to RemoteStorage so I can read todos, stock, and AI wallet settings.";
            source := "connection" |}])
  ++
  (if bool_decide (0 < length partyTodos)%nat then
     let missingSnacks :=
       if bool_decide (0 < length lowStockItems)%nat
       then "Your stock shows " +:+ pretty (length lowStockItems)
            +:+ " items running low."
       else "I could not see any low stock items." in
     [{| title := "Prep for the upcoming party";
         detail := missingSnacks +:+ " Consider adding drinks and snacks to your shopping list so guests are covered.";
         source := "todonna + einkauf" |}]
   else [])
  ++
  (if bool_decide (0 < length lowStockItems)%nat then
     let names := join ", " (name <$> take 4 lowStockItems) in
     [{| title := "Restock essentials";
         detail := "You're low on " +:+ names
                   +:+ (if bool_decide (4 < length lowStockItems)%nat
                        then " and more" else "")
                   +:+ ". Add a quick shopping todo to avoid surprises.";
         source := "einkauf" |}]
   else [])
  ++
  (if includes "someone" questionText || includes "home" questionText then
     [{| title := "Welcome-home checklist";
         detail := "Make sure essentials are stocked (coffee, snacks, fresh fruit) and tidy up shared spaces.";
         source := "question" |}]
   else if bool_decide (0 < String.length questionText)%nat then
     [{| title := "Address your question";
         detail := "I’ll tailor advice based on " +:+ String "034" (question props)
                   +:+ String "034" ". If you want me to auto-create follow-up todos, keep AI wallet configured.";
         source := "question" |}]
   else [])
  ++
  (if negb (truthy (wallet endpoint)) || negb (truthy (wallet apiKey)) then
     [{| title := "Finish AI Wallet setup";
         detail := "Add your AI endpoint and API key so I can offload heavy reasoning and later auto-create todos for you.";
         source := "ai-wallet" |}]
   else []).

Definition analysisLog : list string :=
  ["Todos scanned: " +:+ pretty (length (default [] (todos props)))
     +:+ " (party-related: " +:+ pretty (length partyTodos) +:+ ")";
   "Stock items scanned: " +:+ pretty (length (default [] (stockItems props)))
     +:+ " (low: " +:+ pretty (length lowStockItems) +:+ ")";
   "AI wallet configured: "
     +:+ (if truthy (wallet endpoint) then "yes" else "no");
   if negb (String.eqb (question props) "")
   then "Question provided: " +:+ String "034" (question props)
        +:+ String "034" ""
   else "No custom question provided"].

(** Reading a property of [null]. *)
Definition TypeError_null : JsError :=
  {| is_Error := true; e_name := Some "TypeError";
     e_message := Some "Cannot read properties of null";
     e_status := None; e_code := None;
     e_string := "TypeError: Cannot read properties of null" |}.

(** A date in a template literal. *)
Definition date_text (date : option DateVal) : string :=
  match date with
  | Some (DateObj (Some tv)) => Date_toString tv
  | Some (DateObj None) => "Invalid Date"
  | Some (DateStr s) => s
  | None => "undefined"
  end.

Definition todo_line (todo : TodoItem.t) : string :=
  "- " +:+ default "undefined" (TodoItem.text todo)
  +:+ (if truthy (TodoItem.todo_item_status todo)
       then " [" +:+ default "" (TodoItem.todo_item_status todo) +:+ "]"
       else "")
  +:+ (if TodonnaModule.date_truthy (TodoItem.date todo)
       then " @ " +:+ date_text (TodoItem.date todo) else "").

Definition stock_line (item : StockItem) : string :=
  "- "
  +:+ default "undefined" (if truthy (name item) then name item else id item)
  +:+ " ("
  +:+ (if truthy (category item) then default "" (category item)
       else "uncategorized")
  +:+ "): qty "
  +:+ match quantity item with
      | None | Some JNull => "?"
      | Some value => to_String value
      end.

(** [buildContextSummary] *)
Definition buildContextSummary : string :=
  let todoSummary :=
    join newline
         (Some <$> (todo_line <$> take 8 (default [] (todos props)))) in
  let stockSummary :=
    join newline
         (Some <$> (stock_line <$> take 8 (default [] (stockItems props)))) in
  join newline
    (Some <$>
       ["You are Smart Advisor. Use todos (todonna), stock (einkauf), and the user question to propose what to do next.";
        "";
        "Todos snapshot:";
        if String.eqb todoSummary "" then "- none" else todoSummary;
        "";
        "Stock snapshot:";
        if String.eqb stockSummary "" then "- none" else stockSummary;
        "";
        "Generate 3 short, actionable suggestions and be specific about items to buy or tasks to add. Return concise bullet points."]).

(** The [payload] that [callAiAdvisor] builds from the trimmed endpoint and
    key. *)
Definition payload (config : AiConfig) (endpoint apiKey : option string)
  : Json :=
  let model := if truthy (llm config) then default "" (llm config)
               else "gpt-4o-mini" in
  JObject
    [("endpoint", JString (default "" endpoint));
     ("apiKey", JString (default "" apiKey));
     ("model", JString model);
     ("temperature", JNumber (QArith_base.Qmake 1 2));
     ("messages",
      JArray
        [JObject [("role", JString "system");
                  ("content", JString buildContextSummary)];
         JObject [("role", JString "user");
                  ("content",
                   JString (if negb (String.eqb (question props) "")
                            then question props
                            else "Give me general next steps from my data."))];
         JObject [("role", JString "user");
                  ("content",
                   JString ("Party-related todos: "
                            +:+ pretty (length partyTodos)
                            +:+ ". Low stock items: "
                            +:+ pretty (length lowStockItems) +:+ "."))]])].

(** [callAiAdvisor({ aiConfig, question, partyTodos, lowStockItems })] *)
Definition callAiAdvisor (aiConfig : option AiConfig) : Async State Json :=
  match aiConfig with
  | None => throw TypeError_null
  | Some config =>
      let endpoint := trim <$> endpoint config in
      let apiKey := trim <$> apiKey config in
      if negb (truthy endpoint) || negb (truthy apiKey)
      then throw (new_Error "AI wallet is missing endpoint or API key.")
      else
        await _ := setState (sent (payload config endpoint apiKey)) in
        await response := lift (fetch (payload config endpoint apiKey)) in
        if negb (ok response) then
          await text := lift (response_text response) in
          throw (new_Error ("AI endpoint error ("
                            +:+ pretty (response_status response)
                            +:+ "): " +:+ text))
        else
          await data := lift (response_json response) in
          let content :=
            if defined_truthy (property "text" data)
            then default JNull (property "text" data) else JString "" in
          ret (if json_truthy content then content
               else JString "AI returned no content.")
  end.

(** [handleGenerate]; the pause of 10 ms that lets the browser paint
    changes nothing in the state. *)
Definition handleGenerate : Async State unit :=
  fun s =>
    if isGenerating s then (Ok tt, s)
    else
      (await _ := setState (setIsGenerating true) in
       await _ := setState (setAiError "") in
       await _ := setState (setAiAnswer (JString "")) in
       await _ := setState (setSuggestions newSuggestions) in
       await _ := setState (setAnalysis analysisLog) in
       await _ :=
         (if truthy (wallet endpoint) && truthy (wallet apiKey) then
            try_catch
              (await aiText := callAiAdvisor (aiConfig props) in
               await _ := setState (setAiAnswer aiText) in
               setState (setStatus "Fresh AI-backed suggestions ready."))
              (fun error =>
                 await _ :=
                   setState (setAiError (if truthy (e_message error)
                                    then default "" (e_message error)
                                    else "AI advisor failed")) in
                 setState (setStatus "Static suggestions shown. AI call failed."))
          else
            setState (setStatus
                   (if bool_decide (0 < length newSuggestions)%nat
                    then "Fresh suggestions ready."
                    else "No suggestions yet. Add a question or data."))) in
       setState (setIsGenerating false)) s.
End Component.
End Page.


(** ** Notions used to state the properties *)

(** The status a record asks for: an explicit [completed] boolean wins. *)
Definition normalized_status (r : TodoItem.t) : option string :=
  match TodoItem.completed r with
  | Some c => Some (if c then "done" else "pending")
  | None => TodoItem.todo_item_status r
  end.

(** "Decoding the encoding of [r], with the record's own id as key, gives
    back text, status, emoji, date (as an instant) and time." *)
Definition round_trips `{JsRuntime} (now : Z) (r : TodoItem.t) : Prop :=
  ∃ item,
    Todonna.toTodonnaItem r = Ok item ∧
    let r' := Todonna.fromTodonnaItem now (TodoItem.id r) item in
    TodoItem.text r' = TodoItem.text r ∧
    TodoItem.todo_item_status r' = normalized_status r ∧
    TodoItem.emoji r' = TodoItem.emoji r ∧
    new_Date (TodoItem.date r') = new_Date (TodoItem.date r) ∧
    TodoItem.time r' = TodoItem.time r.

(** What one key contributes to [getAll]: the settled fetch-and-decode. *)
Definition entry `{JsRuntime} (bk : Backend) (w : World) (filename : string)
  : Settled (option TodoItem.t) :=
  match get_fault bk filename with
  | Some e => rejected e
  | None =>
      fulfilled
        match default Undefined (objects w !! filename) with
        | Object o =>
            if bool_decide (is_Some (TodonnaItem.todo_item_text o))
            then Some (Todonna.fromTodonnaItem (clock w) filename o)
            else None
        | _ => None
        end
  end.

(** Two worlds holding the same documents at the same time. *)
Definition same_scope (w w' : World) : Prop :=
  objects w' = objects w ∧ clock w' = clock w.

(** What one key contributes to the lightweight [getAll]. *)
Definition light_entry (bk : Backend) (w : World) (key : string)
  : Settled (option TodoItem.t) :=
  match get_fault bk key with
  | Some e =>
      if TodonnaModule.isNotFoundError e then fulfilled None else rejected e
  | None =>
      fulfilled
        match default Undefined (objects w !! key) with
        | Object o => Some (TodonnaModule.fromStorage key o)
        | _ => None
        end
  end.

(** The progress callback, if there is one, returns normally. *)
Definition quiet (options : option BatchOperationOptions) : Prop :=
  ∀ callback, options ≫= onProgress = Some callback →
              ∀ completed total, callback completed total = None.

(** "In the run of a batch over [items], started at index [i] in world [w],
    the item at offset [k] is the first whose operation fails, with error
    [e], leaving the world [wk]." *)
Fixpoint first_to_fail {A} (op : A → M unit)
    (options : option BatchOperationOptions) (total : nat)
    (items : list A) (i : nat) (w : World)
    (k : nat) (e : JsError) (wk : World) : Prop :=
  match items, k with
  | item :: _, O => op item w = (Throw e, wk)
  | item :: rest, S k' =>
      ∃ w1, op item w = (Ok tt, w1) ∧
            first_to_fail op options total rest (S i)
              (Todonna.report options (i + 1) total w1).2 k' e wk
  | [], _ => False
  end.

(** The scopes that [loadAllData] loads, in the order of their loaders. *)
Inductive Scope := ItemsList | Settings | Todos | Stock | AiConfig.

Definition position (sc : Scope) : nat :=
  match sc with
  | ItemsList => 0 | Settings => 1 | Todos => 2 | Stock => 3 | AiConfig => 4
  end.

Definition loader (sc : Scope) (rs : UseData.Remote)
  : option (Outcome UseData.JsData) :=
  match sc with
  | ItemsList => UseData.mymodule_getItemsList rs
  | Settings => UseData.mymodule_loadSettings rs
  | Todos => UseData.todonna_getAll rs
  | Stock => UseData.einkauf_getItemsList rs
  | AiConfig => UseData.ai_wallet_getConfig rs
  end.

(** The part of the hook's state that belongs to a scope. *)
Definition loaded (sc : Scope) (s : UseData.State) : UseData.JsData :=
  match sc with
  | ItemsList => UseData.itemsList s
  | Settings => UseData.settings s
  | Todos => UseData.todos s
  | Stock => UseData.stockItems s
  | AiConfig => UseData.aiConfig s
  end.

(** What the hook keeps of a value that a loader resolved to. *)
Definition kept (sc : Scope) (v : UseData.JsData) : UseData.JsData :=
  match sc with
  | ItemsList | Settings => v
  | Todos | Stock => if UseData.isArray v then v else UseData.DArray []
  | AiConfig => if UseData.data_truthy v then v else UseData.DNull
  end.

(** [s'] has the guard, the timers, the clock and the connection of [s],
    and possibly more timers. *)
Definition guard_kept (s s' : UseData.State) : Prop :=
  UseData.isSaving s' = UseData.isSaving s ∧
  UseData.now s' = UseData.now s ∧
  UseData.timers s ⊆ UseData.timers s' ∧
  UseData.isConnected s' = UseData.isConnected s ∧
  UseData.listening s' = UseData.listening s.



(** A computation that leaves the guard alone. *)
Definition keeps_guard {A} (m : Async UseData.State A) : Prop :=
  ∀ s, guard_kept s (m s).2.



(** The calls that only read. *)
Definition is_read (c : Call) : bool :=
  match c with
  | GetObject _ _ | GetListing _ _ => true
  | _ => false
  end.

(** [w'] is [w] after some reads: same documents, same time, and nothing
    but reads added to the calls. *)
Definition only_read (w w' : World) : Prop :=
  objects w' = objects w ∧ clock w' = clock w ∧
  ∃ reads : list Call,
    calls w' = (reads ++ calls w)%list ∧ Forall (fun c => is_read c = true) reads.

(** The write that a mutation awaits, and what it logs when it fails. *)
Definition write_of (m : UseData.Mutation) (rs : UseData.Remote)
  : Outcome unit :=
  match m with
  | UseData.SaveItem => UseData.mymodule_saveItem rs
  | UseData.DeleteItem => UseData.mymodule_deleteItem rs
  | UseData.SaveSettings _ => UseData.mymodule_saveSettings rs
  | UseData.SaveAiConfig _ => UseData.ai_wallet_setConfig rs
  end.

Definition message_of (m : UseData.Mutation) : string :=
  match m with
  | UseData.SaveItem => "Error saving item:"
  | UseData.DeleteItem => "Error deleting item:"
  | UseData.SaveSettings _ => "Error saving settings:"
  | UseData.SaveAiConfig _ => "Error saving AI wallet config:"
  end.

(** The mutations whose failure is followed by a full reload. *)
Definition reloads_on_failure (m : UseData.Mutation) : bool :=
  match m with
  | UseData.SaveItem | UseData.SaveSettings _ => true
  | _ => false
  end.

(** What the [catch] blocks of the mutations do with an error: log it,
    reload (two of them), throw it again. *)
Definition on_failure (rs : UseData.Remote) (m : UseData.Mutation)
    (e : JsError) : Async UseData.State unit :=
  await _ := UseData.modify (UseData.console_error (message_of m)) in
  await _ := (if reloads_on_failure m then UseData.loadAllData (Some rs)
              else ret tt) in
  throw e.

(** The todos and the stock are arrays. *)
Definition arrays (s : UseData.State) : Prop :=
  UseData.isArray (UseData.todos s) = true ∧
  UseData.isArray (UseData.stockItems s) = true.

(** A computation that keeps a property of the state. *)
Definition preserves (P : UseData.State → Prop) {A}
    (m : Async UseData.State A) : Prop :=
  ∀ s, P s → P (m s).2.

(** The request that the proxy makes for a body that it accepts:
    [endpoint], [apiKey] and [model] are truthy, [messages] is an array,
    and the temperature is the one of the body, or 0.5 when the body has
    none. *)
Definition accepted (body : AiProxy.Json) (request : AiProxy.GenerateRequest)
  : Prop :=
  AiProxy.property "endpoint" body = Some (AiProxy.baseURL request) ∧
  AiProxy.json_truthy (AiProxy.baseURL request) = true ∧
  AiProxy.property "apiKey" body = Some (AiProxy.apiKey request) ∧
  AiProxy.json_truthy (AiProxy.apiKey request) = true ∧
  AiProxy.property "model" body = Some (AiProxy.model request) ∧
  AiProxy.json_truthy (AiProxy.model request) = true ∧
  AiProxy.property "messages" body = Some (AiProxy.messages request) ∧
  (∃ items, AiProxy.messages request = AiProxy.JArray items) ∧
  AiProxy.temperature request
    = default (AiProxy.JNumber (QArith_base.Qmake 1 2))
              (AiProxy.property "temperature" body).

(** The answers of the proxy. *)
Definition bad_request : AiProxy.Response :=
  AiProxy.json_response
    (AiProxy.JObject
       [("error",
         AiProxy.JString "Missing endpoint, apiKey, model, or messages.")])
    400.

Definition proxy_failed (error : JsError) : AiProxy.Response :=
  AiProxy.json_response
    (AiProxy.JObject
       [("error", AiProxy.JString "AI proxy failed");
        ("detail",
         AiProxy.JString (if truthy (e_message error)
                          then default "" (e_message error)
                          else e_string error))])
    500.

(** The result of a batch counts every item of it once. *)
Definition accounted {A} (b : Todonna.Running A) (res : BatchResult) : Prop :=
  (succeeded res + failed res
   = succeeded (Todonna.so_far b) + failed (Todonna.so_far b)
     + length (Todonna.pending b))%nat ∧
  (length (errors res) + failed (Todonna.so_far b)
   = length (errors (Todonna.so_far b)) + failed res)%nat.

(** ** Sample data *)

Module Sample.
(** 2024-05-01T23:00:00.000Z *)
Definition may_first : Z := 1714604400000.

Definition milk : TodoItem.t :=
  {| TodoItem.id := "a"; TodoItem.text := Some "Buy milk";
     TodoItem.completed := Some false; TodoItem.todo_item_status := None;
     TodoItem.emoji := Some "M"; TodoItem.date := Some (DateObj (Some may_first));
     TodoItem.time := Some "15:00"; TodoItem.removed := None |}.

Definition archived : TodoItem.t :=
  {| TodoItem.id := "b"; TodoItem.text := Some "Old";
     TodoItem.completed := None;
     TodoItem.todo_item_status := Some "archived";
     TodoItem.emoji := None; TodoItem.date := Some (DateObj (Some may_first));
     TodoItem.time := None; TodoItem.removed := None |}.

Definition undated : TodoItem.t :=
  {| TodoItem.id := "c"; TodoItem.text := Some "Someday";
     TodoItem.completed := Some true; TodoItem.todo_item_status := None;
     TodoItem.emoji := None; TodoItem.date := None;
     TodoItem.time := None; TodoItem.removed := None |}.

Definition no_emoji : TodoItem.t :=
  {| TodoItem.id := "d"; TodoItem.text := Some "Plain";
     TodoItem.completed := Some true; TodoItem.todo_item_status := None;
     TodoItem.emoji := Some ""; TodoItem.date := Some (DateObj (Some may_first));
     TodoItem.time := None; TodoItem.removed := None |}.

(** A backend that accepts every request. *)
Definition reliable : Backend :=
  {| get_fault := fun _ => None; listing_fault := None;
     store_fault := fun _ _ => None; remove_fault := fun _ => None |}.

(** A time zone two hours east of UTC. *)
Definition utc2 : JsRuntime := Clock.runtime 120.
(** An entry written without a date. *)
Definition undated_wire : TodonnaItem.t :=
  {| TodonnaItem.todo_item_id := Some "c";
     TodonnaItem.todo_item_text := Some "Someday";
     TodonnaItem.todo_item_status := Some "pending";
     TodonnaItem.emoji := None; TodonnaItem.date := None;
     TodonnaItem.time := None; TodonnaItem.completed := None;
     TodonnaItem.removed := None |}.

Definition milk_wire : TodonnaItem.t :=
  {| TodonnaItem.todo_item_id := Some "a";
     TodonnaItem.todo_item_text := Some "Buy milk";
     TodonnaItem.todo_item_status := Some "pending";
     TodonnaItem.emoji := Some "M";
     TodonnaItem.date := Some "2024-05-01T23:00:00.000Z";
     TodonnaItem.time := Some "15:00"; TodonnaItem.completed := None;
     TodonnaItem.removed := None |}.

(** An object without the required text. *)
Definition textless_wire : TodonnaItem.t :=
  {| TodonnaItem.todo_item_id := Some "x";
     TodonnaItem.todo_item_text := None;
     TodonnaItem.todo_item_status := None;
     TodonnaItem.emoji := Some "?"; TodonnaItem.date := None;
     TodonnaItem.time := None; TodonnaItem.completed := None;
     TodonnaItem.removed := None |}.

(** A scope read at 2024-05-01T23:00:00Z. *)
Definition scope (docs : list (string * JsVal)) : World :=
  {| objects := list_to_map docs; clock := may_first; calls := [] |}.

Definition server_error : JsError :=
  {| is_Error := true; e_name := Some "Error";
     e_message := Some "Internal Server Error";
     e_status := Some 500; e_code := None;
     e_string := "Error: Internal Server Error" |}.

(** A backend on which every fetch of key "x" fails. *)
Definition flaky : Backend :=
  {| get_fault := fun key => if String.eqb key "x" then Some server_error
                             else None;
     listing_fault := None;
     store_fault := fun _ _ => None; remove_fault := fun _ => None |}.

(** A backend that refuses to remove key "x". *)
Definition stubborn : Backend :=
  {| get_fault := fun _ => None; listing_fault := None;
     store_fault := fun _ _ => None;
     remove_fault := fun key => if String.eqb key "x" then Some server_error
                                else None |}.
End Sample.


Module Scenario.
(** The scenario of the specification: the scope holds todo "1", pending;
    it is replaced by "1", done, and "2", pending. *)
Definition one_pending : TodonnaItem.t :=
  {| TodonnaItem.todo_item_id := Some "1";
     TodonnaItem.todo_item_text := Some "First";
     TodonnaItem.todo_item_status := Some "pending";
     TodonnaItem.emoji := None;
     TodonnaItem.date := Some "2024-05-01T23:00:00.000Z";
     TodonnaItem.time := None; TodonnaItem.completed := None;
     TodonnaItem.removed := None |}.

Definition one_done : TodoItem.t :=
  {| TodoItem.id := "1"; TodoItem.text := Some "First";
     TodoItem.completed := None; TodoItem.todo_item_status := Some "done";
     TodoItem.emoji := None;
     TodoItem.date := Some (DateObj (Some Sample.may_first));
     TodoItem.time := None; TodoItem.removed := None |}.

Definition two_pending : TodoItem.t :=
  {| TodoItem.id := "2"; TodoItem.text := Some "Second";
     TodoItem.completed := None; TodoItem.todo_item_status := Some "pending";
     TodoItem.emoji := None;
     TodoItem.date := Some (DateObj (Some Sample.may_first));
     TodoItem.time := None; TodoItem.removed := None |}.

Definition before : World := Sample.scope [("1", Object one_pending)].
End Scenario.

Module Home.
Import UseData.

(** A remote on which every loader and every write succeeds. *)
Definition healthy : Remote :=
  {| connected := true; has_mymodule := true; has_ai_wallet := true;
     mymodule_getItemsList := Some (Ok (DArray ["note"]));
     mymodule_loadSettings := Some (Ok (DObject "{theme:dark}"));
     todonna_getAll := Some (Ok (DArray ["Buy milk"]));
     einkauf_getItemsList := Some (Ok (DArray ["milk"]));
     ai_wallet_getConfig := Some (Ok (DObject "{endpoint}"));
     mymodule_saveItem := Ok tt; mymodule_deleteItem := Ok tt;
     mymodule_saveSettings := Ok tt; ai_wallet_setConfig := Ok tt |}.

(** The same remote when loading the todos fails. *)
Definition todos_down : Remote :=
  {| connected := true; has_mymodule := true; has_ai_wallet := true;
     mymodule_getItemsList := Some (Ok (DArray ["note"]));
     mymodule_loadSettings := Some (Ok (DObject "{theme:dark}"));
     todonna_getAll := Some (Throw Sample.server_error);
     einkauf_getItemsList := Some (Ok (DArray ["milk"]));
     ai_wallet_getConfig := Some (Ok (DObject "{endpoint}"));
     mymodule_saveItem := Ok tt; mymodule_deleteItem := Ok tt;
     mymodule_saveSettings := Ok tt; ai_wallet_setConfig := Ok tt |}.
End Home.

(** String methods to compute with, for text in ASCII. *)
Module AsciiText.
Definition is_space (c : ascii) : bool :=
  let n := nat_of_ascii c in
  (Nat.leb 9 n && Nat.leb n 13) || Nat.eqb n 32.

Definition lower (c : ascii) : ascii :=
  let n := nat_of_ascii c in
  if Nat.leb 65 n && Nat.leb n 90 then ascii_of_nat (n + 32) else c.

Fixpoint toLowerCase (s : string) : string :=
  match s with
  | EmptyString => EmptyString
  | String c rest => String (lower c) (toLowerCase rest)
  end.

Fixpoint trimStart (s : string) : string :=
  match s with
  | EmptyString => EmptyString
  | String c rest => if is_space c then trimStart rest else s
  end.

Fixpoint trimEnd (s : string) : string :=
  match s with
  | EmptyString => EmptyString
  | String c rest =>
      let rest' := trimEnd rest in
      if is_space c && String.eqb rest' "" then "" else String c rest'
  end.

Definition trim (s : string) : string := trimEnd (trimStart s).

(** The digits after the point, for a number with a short decimal
    expansion. *)
Fixpoint fraction (places : nat) (r d : Z) : string :=
  match places with
  | O => ""
  | S places' =>
      if (r =? 0)%Z then ""
      else String (Clock.digit (r * 10 / d))
                  (fraction places' ((r * 10) mod d) d)
  end.

Definition Number_toString (q : QArith_base.Q) : string :=
  let n := QArith_base.Qnum q in
  let d := Z.pos (QArith_base.Qden q) in
  let a := Z.abs n in
  (if (n <? 0)%Z then "-" else "") +:+ pretty (a / d)
  +:+ (if (a mod d =? 0)%Z then "" else "." +:+ fraction 17 (a mod d) d).

(** A date in the time zone [offset] minutes east of UTC. *)
Definition Date_toString (offset : Z) (tv : Z) : string :=
  let ms := (tv + offset * 60000) mod Clock.msPerDay in
  Clock.local_day offset tv +:+ " "
  +:+ Clock.pad 2 (ms / 3600000) "" +:+ ":"
  +:+ Clock.pad 2 (ms / 60000 mod 60) "" +:+ ":"
  +:+ Clock.pad 2 (ms / 1000 mod 60) "" +:+ " GMT"
  +:+ (if (offset <? 0)%Z then "-" else "+")
  +:+ Clock.pad 2 (Z.abs offset / 60) ""
  +:+ Clock.pad 2 (Z.abs offset mod 60) "".

Definition strings : Page.JsStrings :=
  {| Page.trim := trim; Page.toLowerCase := toLowerCase;
     Page.Number_toString := Number_toString;
     Page.Date_toString := Date_toString 120 |}.
End AsciiText.

Module Visit.
Import AiProxy Page.
(** A visitor with a party ahead, little milk left and a wallet whose
    endpoint was typed with spaces around it. *)
Definition party : TodoItem.t :=
  {| TodoItem.id := "p"; TodoItem.text := Some "Birthday PARTY for Ann";
     TodoItem.completed := None; TodoItem.todo_item_status := Some "pending";
     TodoItem.emoji := None; TodoItem.date := None;
     TodoItem.time := None; TodoItem.removed := Some false |}.

Definition props (config : option AiConfig) : Props :=
  {| isConnected := true;
     todos := Some [party; Sample.milk];
     stockItems :=
       Some [{| name := Some "milk"; id := Some "s1";
                category := Some "dairy";
                quantity := Some (JNumber (QArith_base.Qmake 1 2)) |};
             {| name := Some "rice"; id := Some "s2"; category := None;
                quantity := Some (JNumber (QArith_base.Qmake 3 1)) |};
             {| name := None; id := Some "s3"; category := Some "";
                quantity := Some (JString "1") |}];
     aiConfig := config;
     question := "What should I buy?" |}.

Definition spaced_wallet : AiConfig :=
  {| endpoint := Some " https://llm.example/v1 "; apiKey := Some "secret";
     llm := None |}.

Definition blank_wallet : AiConfig :=
  {| endpoint := Some "   "; apiKey := Some "secret"; llm := None |}.

(** A proxy that answers with a text, and one that answers 500. *)
Definition answers (payload : Json) : Outcome FetchResponse :=
  Ok {| ok := true; response_status := 200;
        response_text := Ok "{text}";
        response_json := Ok (JObject [("text", JString "Buy milk.")]) |}.

Definition fails (payload : Json) : Outcome FetchResponse :=
  Ok {| ok := false; response_status := 500;
        response_text := Ok "AI proxy failed";
        response_json := Ok (JObject [("error", JString "AI proxy failed")]) |}.
End Visit.

(** * Properties *)

(** ** The runtime at work *)

Example iso_epoch : Clock.iso 0 = "1970-01-01T00:00:00.000Z".
Proof. reflexivity. Qed.
Example iso_2024 : Clock.iso 1714604400000 = "2024-05-01T23:00:00.000Z".
Proof. vm_compute. reflexivity. Qed.
Example parse_2024 :
  Clock.parse "2024-05-01T23:00:00.000Z" = Some 1714604400000.
Proof. vm_compute. reflexivity. Qed.
Example iso_before_epoch : Clock.iso (-1) = "1969-12-31T23:59:59.999Z".
Proof. vm_compute. reflexivity. Qed.
Example parse_garbage : Clock.parse "tomorrow" = None.
Proof. vm_compute. reflexivity. Qed.
Example local_day_utc2 :
  Clock.local_day 120 1714604400000 = "Thu May 02 2024".
Proof. vm_compute. reflexivity. Qed.

(** The calendar arithmetic and the printer are inverted by the reader. *)

Section Calendar.
Import Clock.
Local Open Scope Z_scope.

(** The day number of the civil date of a day number is that day number,
    and the civil date is a date. *)
Lemma days_from_civil_from_days z :
  let '(y, m, d) := civil_from_days z in
  days_from_civil y m d = z ∧ 1 <= m <= 12 ∧ 1 <= d <= 31 ∧
  (z + 719468) / 146097 * 400 <= y <= (z + 719468) / 146097 * 400 + 400.
Proof.
  unfold civil_from_days, days_from_civil.
  set (z' := z + 719468).
  set (era := z' / 146097).
  set (doe := z' - era * 146097).
  assert (0 <= doe < 146097) as Hdoe.
  { unfold doe, era. pose proof (Z.div_mod z' 146097 ltac:(lia)).
    pose proof (Z.mod_pos_bound z' 146097 ltac:(lia)). lia. }
  assert (z = era * 146097 + doe - 719468) as Hz by (unfold doe, z'; lia).
  clearbody doe era. clear z'. subst z.
  set (yoe := (doe - doe / 1460 + doe / 36524 - doe / 146096) / 365).
  assert (0 <= yoe <= 399) as Hyoe.
  { unfold yoe. Z.to_euclidean_division_equations. lia. }
  set (doy := doe - (365 * yoe + yoe / 4 - yoe / 100)).
  assert (0 <= doy <= 365) as Hdoy.
  { unfold doy, yoe. Z.to_euclidean_division_equations. lia. }
  assert (doe = yoe * 365 + yoe / 4 - yoe / 100 + doy) as Hdoe'
    by (unfold doy; lia).
  clearbody doy. clearbody yoe.
  set (mp := (5 * doy + 2) / 153).
  assert (0 <= mp <= 11) as Hmp.
  { unfold mp. Z.to_euclidean_division_equations. lia. }
  set (d := doy - (153 * mp + 2) / 5 + 1).
  assert (1 <= d <= 31) as Hd.
  { unfold d, mp. Z.to_euclidean_division_equations. lia. }
  assert (doy = (153 * mp + 2) / 5 + d - 1) as Hdoy' by (unfold d; lia).
  clearbody d. clearbody mp.
  destruct (Z.ltb_spec mp 10).
  - destruct (Z.leb_spec (mp + 3) 2); [lia|].
    destruct (Z.ltb_spec 2 (mp + 3)); [|lia].
    replace (mp + 3 - 3) with mp by lia.
    replace (yoe + era * 400 + 0 - 0) with (yoe + era * 400) by lia.
    assert ((yoe + era * 400) / 400 = era) as ->.
    { Z.to_euclidean_division_equations. lia. }
    replace (yoe + era * 400 - era * 400) with yoe by lia.
    split; [lia|]. split; [lia|]. split; [lia|]. lia.
  - destruct (Z.leb_spec (mp - 9) 2); [|lia].
    destruct (Z.ltb_spec 2 (mp - 9)); [lia|].
    replace (mp - 9 + 9) with mp by lia.
    replace (yoe + era * 400 + 1 - 1) with (yoe + era * 400) by lia.
    assert ((yoe + era * 400) / 400 = era) as ->.
    { Z.to_euclidean_division_equations. lia. }
    replace (yoe + era * 400 - era * 400) with yoe by lia.
    split; [lia|]. split; [lia|]. split; [lia|]. lia.
Qed.

Lemma digit_value_digit n : digit_value (digit n) = Some (n mod 10).
Proof.
  unfold digit_value, digit.
  pose proof (Z.mod_pos_bound n 10 ltac:(lia)) as Hn.
  rewrite nat_ascii_embedding by lia.
  rewrite Nat2Z.inj_add, Z2Nat.id by lia.
  change (Z.of_nat 48) with 48.
  destruct (Z.leb_spec 48 (48 + n mod 10)); [|lia].
  destruct (Z.leb_spec (48 + n mod 10) 57); [|lia].
  cbn [andb]. f_equal. lia.
Qed.

(** A digit is not a sign. *)
Lemma digit_first {A} n (plus minus other : A) :
  match digit n with
  | "+"%char => plus
  | "-"%char => minus
  | _ => other
  end = other.
Proof.
  unfold digit. pose proof (Z.mod_pos_bound n 10 ltac:(lia)) as Hn.
  assert (Z.to_nat (n mod 10) < 10)%nat as Hlt by lia.
  destruct (Z.to_nat (n mod 10)) as [|[|[|[|[|[|[|[|[|[|k]]]]]]]]]];
    try reflexivity. lia.
Qed.

Lemma digits2 n :
  0 <= n < 100 → 10 * (10 * 0 + (n / 10) mod 10) + n mod 10 = n.
Proof. intros. Z.to_euclidean_division_equations. lia. Qed.

Lemma digits3 n :
  0 <= n < 1000 →
  10 * (10 * (10 * 0 + (n / 10 / 10) mod 10) + (n / 10) mod 10) + n mod 10
  = n.
Proof. intros. Z.to_euclidean_division_equations. lia. Qed.

Lemma digits4 n :
  0 <= n < 10000 →
  10 * (10 * (10 * (10 * 0 + (n / 10 / 10 / 10) mod 10)
              + (n / 10 / 10) mod 10) + (n / 10) mod 10) + n mod 10 = n.
Proof. intros. Z.to_euclidean_division_equations. lia. Qed.

Lemma digits6 n :
  0 <= n < 1000000 →
  10 * (10 * (10 * (10 * (10 * (10 * 0
    + (n / 10 / 10 / 10 / 10 / 10) mod 10)
    + (n / 10 / 10 / 10 / 10) mod 10)
    + (n / 10 / 10 / 10) mod 10)
    + (n / 10 / 10) mod 10) + (n / 10) mod 10) + n mod 10 = n.
Proof. intros. Z.to_euclidean_division_equations. lia. Qed.

Ltac read_digits :=
  repeat (progress (cbn [number_from String.substring Nat.add
                         mbind option_bind]; rewrite ?digit_value_digit)).

(** Every time value of ECMAScript's range is read back from the string
    it prints to. *)
Lemma parse_iso tv :
  -8640000000000000 <= tv <= 8640000000000000 →
  parse (iso tv) = Some tv ∧ iso tv ≠ "".
Proof.
  intros Hrange.
  assert (parse (iso tv) = Some tv) as Hparse; cycle 1.
  { split; [exact Hparse|]. intros Hempty. rewrite Hempty in Hparse.
    vm_compute in Hparse. discriminate. }
  unfold parse.
  assert (match iso tv with
          | String "+"%char _ => fields 1 6 1 (iso tv)
          | String "-"%char _ => fields 1 6 (-1) (iso tv)
          | _ => fields 0 4 1 (iso tv)
          end = Some tv) as ->; [|simpl; by rewrite String.eqb_refl].
  unfold iso.
  set (days := tv / msPerDay). set (ms := tv mod msPerDay).
  assert (tv = days * msPerDay + ms) as Htv.
  { unfold days, ms. pose proof (Z.div_mod tv msPerDay ltac:(unfold msPerDay; lia)).
    lia. }
  assert (0 <= ms < msPerDay) as Hms.
  { apply Z.mod_pos_bound. unfold msPerDay. lia. }
  assert (-100000000 <= days <= 100000000) as Hdays.
  { unfold days, msPerDay. Z.to_euclidean_division_equations. lia. }
  clearbody days ms.
  pose proof (days_from_civil_from_days days) as Hcivil.
  destruct (civil_from_days days) as [[y m] d].
  destruct Hcivil as (Hback & Hm & Hd & Hy).
  assert (-999999 <= y <= 999999) as Hy'.
  { Z.to_euclidean_division_equations. lia. }
  clear Hy. unfold msPerDay in *.
  unfold year_string. subst tv.
  assert (0 <= m < 100) as Hm' by lia.
  assert (0 <= d < 100) as Hd' by lia.
  assert (0 <= ms / 3600000 < 100 ∧ 0 <= (ms / 60000) mod 60 < 100 ∧
          0 <= (ms / 1000) mod 60 < 100 ∧ 0 <= ms mod 1000 < 1000 ∧
          ms / 3600000 * 3600000 + (ms / 60000) mod 60 * 60000 +
          (ms / 1000) mod 60 * 1000 + ms mod 1000 = ms)
    as (Hhh & Hmm & Hss & Hmsec & Hsum).
  { Z.to_euclidean_division_equations. lia. }
  set (hh := ms / 3600000) in *. set (mm := (ms / 60000) mod 60) in *.
  set (ss := (ms / 1000) mod 60) in *. set (msec := ms mod 1000) in *.
  clearbody hh mm ss msec. clear Hrange Hms Hdays Hm Hd.
  destruct (Z.leb_spec 0 y), (Z.leb_spec y 9999); cbn [andb].
  - assert (0 <= y < 10000) as Hy by lia.
    cbn [pad]; cbv beta iota fix delta [String.append].
    rewrite digit_first. unfold fields, field. read_digits.
    rewrite (digits4 y), (digits2 m), (digits2 d), (digits2 hh),
      (digits2 mm), (digits2 ss), (digits3 msec) by assumption.
    rewrite Z.mul_1_l, Hback. unfold msPerDay. f_equal. clear - Hsum. lia.
  - destruct (Z.ltb_spec y 0); [lia|].
    assert (0 <= y < 1000000) as Hy by lia.
    cbn [pad]; cbv beta iota fix delta [String.append].
    unfold fields, field. read_digits.
    rewrite (digits6 y), (digits2 m), (digits2 d), (digits2 hh),
      (digits2 mm), (digits2 ss), (digits3 msec) by assumption.
    rewrite Z.mul_1_l, Hback. unfold msPerDay. f_equal. clear - Hsum. lia.
  - destruct (Z.ltb_spec y 0); [|lia].
    assert (0 <= - y < 1000000) as Hy by lia.
    cbn [pad]; cbv beta iota fix delta [String.append].
    unfold fields, field. read_digits.
    rewrite (digits6 (- y)), (digits2 m), (digits2 d), (digits2 hh),
      (digits2 mm), (digits2 ss), (digits3 msec) by assumption.
    replace (-1 * - y) with y by lia.
    rewrite Hback. unfold msPerDay. f_equal. clear - Hsum. lia.
  - lia.
Qed.
End Calendar.

(** ** Running the primitives *)

Section Primitives.
Context (bk : Backend).

Lemma getObject_run key max_age w :
  getObject bk key max_age w =
    (match get_fault bk key with
     | Some e => Throw e
     | None => Ok (default Undefined (objects w !! key))
     end, logged (GetObject key max_age) w).
Proof.
  unfold getObject, bind, record_call.
  destruct (get_fault bk key); reflexivity.
Qed.

Lemma storeObject_run type key payload w :
  storeObject bk type key payload w =
    let w1 := logged (StoreObject type key payload) w in
    if validates payload then
      match store_fault bk key payload with
      | Some e => (Throw e, w1)
      | None =>
          (Ok tt, {| objects := <[key := Object payload]> (objects w);
                     clock := clock w; calls := calls w1 |})
      end
    else (Throw ValidationError, w1).
Proof.
  unfold storeObject, bind, record_call.
  destruct (validates payload); [|reflexivity].
  destruct (store_fault bk key payload); reflexivity.
Qed.

Lemma remove_key_run key w :
  remove_key bk key w =
    let w1 := logged (Remove key) w in
    match remove_fault bk key with
    | Some e => (Throw e, w1)
    | None =>
        (Ok tt, {| objects := delete key (objects w);
                   clock := clock w; calls := calls w1 |})
    end.
Proof.
  unfold remove_key, bind, record_call.
  destruct (remove_fault bk key); reflexivity.
Qed.
End Primitives.

(** ** The codec *)

Section Codec.
Context `{JsRuntime}.

Lemma truthy_Some_iff (s : string) : truthy (Some s) = true ↔ s ≠ "".
Proof.
  simpl. destruct (String.eqb_spec s ""); simpl; split; congruence.
Qed.

Lemma toTodonnaItem_id r item :
  Todonna.toTodonnaItem r = Ok item →
  TodonnaItem.todo_item_id item = Some (TodoItem.id r).
Proof.
  unfold Todonna.toTodonnaItem.
  destruct (TodoItem.date r) as [[[tv|]|s]|]; intros [= <-]; reflexivity.
Qed.

Lemma toTodonnaItem_text r item :
  Todonna.toTodonnaItem r = Ok item →
  TodonnaItem.todo_item_text item = TodoItem.text r.
Proof.
  unfold Todonna.toTodonnaItem.
  destruct (TodoItem.date r) as [[[tv|]|s]|]; intros [= <-]; reflexivity.
Qed.

Lemma toTodonnaItem_status r item :
  Todonna.toTodonnaItem r = Ok item →
  TodonnaItem.todo_item_status item = normalized_status r.
Proof.
  unfold Todonna.toTodonnaItem, normalized_status.
  destruct (TodoItem.date r) as [[[tv|]|s]|]; intros [= <-]; reflexivity.
Qed.

Lemma toTodonnaItem_no_flags r item :
  Todonna.toTodonnaItem r = Ok item →
  TodonnaItem.removed item = None ∧ TodonnaItem.completed item = None.
Proof.
  unfold Todonna.toTodonnaItem.
  destruct (TodoItem.date r) as [[[tv|]|s]|]; intros [= <-]; split;
    reflexivity.
Qed.

Lemma toTodonnaItem_throws r :
  (∃ e, Todonna.toTodonnaItem r = Throw e) ↔
  TodoItem.date r = Some (DateObj None).
Proof.
  unfold Todonna.toTodonnaItem.
  destruct (TodoItem.date r) as [[[tv|]|s]|]; split;
    try (intros [e [=]]); try (intros [=]); eauto.
Qed.

Lemma fromTodonnaItem_id_own now id item :
  TodonnaItem.todo_item_id item = Some id →
  TodoItem.id (Todonna.fromTodonnaItem now id item) = id.
Proof.
  intros Hid. simpl. rewrite Hid.
  destruct (truthy (Some id)); reflexivity.
Qed.

Lemma fromTodonnaItem_status now id item :
  TodoItem.todo_item_status (Todonna.fromTodonnaItem now id item) = Some "done"
  ∨ TodoItem.todo_item_status (Todonna.fromTodonnaItem now id item)
    = Some "pending".
Proof.
  simpl.
  destruct (if truthy (TodonnaItem.todo_item_status item) then _ else _);
    auto.
Qed.

Lemma fromTodonnaItem_archived now id item :
  TodonnaItem.todo_item_status item = Some "archived" →
  TodoItem.todo_item_status (Todonna.fromTodonnaItem now id item)
    = Some "pending".
Proof. intros Hs. simpl. rewrite Hs. reflexivity. Qed.

Lemma fromTodonnaItem_status_of now id item :
  TodonnaItem.completed item = None →
  TodoItem.todo_item_status (Todonna.fromTodonnaItem now id item)
    = Some (if bool_decide (TodonnaItem.todo_item_status item = Some "done")
            then "done" else "pending").
Proof.
  intros Hc. simpl. rewrite Hc.
  destruct (TodonnaItem.todo_item_status item) as [s|] eqn:Hs; simpl.
  - destruct (String.eqb_spec s ""); simpl; [|reflexivity].
    subst s. reflexivity.
  - reflexivity.
Qed.

Lemma fromTodonnaItem_no_date now id item :
  truthy (TodonnaItem.date item) = false →
  TodoItem.date (Todonna.fromTodonnaItem now id item)
    = Some (DateObj (Some now)).
Proof. intros Hd. simpl. rewrite Hd. reflexivity. Qed.
End Codec.

(** A date survives the codec when the runtime reads back what it
    prints. *)
Lemma date_round_trip `{JsRuntime} now id r item tv :
  TodoItem.date r = Some (DateObj (Some tv)) →
  toISOString tv ≠ "" → Date_parse (toISOString tv) = Some tv →
  Todonna.toTodonnaItem r = Ok item →
  TodoItem.date (Todonna.fromTodonnaItem now id item)
    = Some (DateObj (Some tv)).
Proof.
  intros Hdate Hne Hparse Hitem.
  unfold Todonna.toTodonnaItem in Hitem. rewrite Hdate in Hitem.
  injection Hitem as <-. simpl.
  apply truthy_Some_iff in Hne. simpl in Hne. rewrite Hne.
  by rewrite Hparse.
Qed.

(** So with this runtime a valid date always survives the codec. *)
Corollary clock_date_round_trip offset now id r item tv :
  -8640000000000000 <= tv <= 8640000000000000 →
  TodoItem.date r = Some (DateObj (Some tv)) →
  @Todonna.toTodonnaItem (Clock.runtime offset) r = Ok item →
  TodoItem.date (@Todonna.fromTodonnaItem (Clock.runtime offset) now id item)
    = Some (DateObj (Some tv)).
Proof.
  intros Hrange Hdate Hitem.
  destruct (parse_iso tv Hrange) as [Hparse Hne].
  exact (@date_round_trip (Clock.runtime offset) now id r item tv
           Hdate Hne Hparse Hitem).
Qed.

(** C2, as stated, fails: a record whose status is archived comes back
    pending, a record without a date comes back dated with the moment of
    decoding, and an empty emoji comes back undefined. *)
Lemma round_trip_fails :
  ¬ @round_trips Sample.utc2 0 Sample.archived ∧
  ¬ @round_trips Sample.utc2 0 Sample.undated ∧
  ¬ @round_trips Sample.utc2 0 Sample.no_emoji.
Proof.
  repeat split; intros (item & Hitem & Hrest);
    vm_compute in Hitem; injection Hitem as <-;
    vm_compute in Hrest; intuition discriminate.
Qed.

(** C2 (amended). Every record whose date is not an invalid [Date] is
    encoded, and decoding the encoding under the record's own id gives back
    the id and the text; the status when it is (or normalizes to) done or
    pending, and pending for any other status; emoji and time unless they
    are the empty string, which decodes to undefined; the instant of the
    date when the record has one that the runtime prints to a string it
    reads back, and the moment of decoding when the record has none. *)
Theorem codec_round_trip `{JsRuntime} (now : Z) (r : TodoItem.t) :
  TodoItem.date r ≠ Some (DateObj None) →
  ∃ item,
    Todonna.toTodonnaItem r = Ok item ∧
    let r' := Todonna.fromTodonnaItem now (TodoItem.id r) item in
    TodoItem.id r' = TodoItem.id r ∧
    TodoItem.text r' = TodoItem.text r ∧
    (normalized_status r = Some "done" ∨ normalized_status r = Some "pending" →
     TodoItem.todo_item_status r' = normalized_status r) ∧
    (normalized_status r ≠ Some "done" →
     TodoItem.todo_item_status r' = Some "pending") ∧
    (TodoItem.emoji r ≠ Some "" → TodoItem.emoji r' = TodoItem.emoji r) ∧
    (TodoItem.emoji r = Some "" → TodoItem.emoji r' = None) ∧
    (TodoItem.time r ≠ Some "" → TodoItem.time r' = TodoItem.time r) ∧
    (TodoItem.time r = Some "" → TodoItem.time r' = None) ∧
    (∀ tv, TodoItem.date r = Some (DateObj (Some tv)) →
           toISOString tv ≠ "" → Date_parse (toISOString tv) = Some tv →
           TodoItem.date r' = Some (DateObj (Some tv))) ∧
    (∀ s, TodoItem.date r = Some (DateStr s) → s ≠ "" →
          new_Date (TodoItem.date r') = Date_parse s) ∧
    (TodoItem.date r = None → TodoItem.date r' = Some (DateObj (Some now))).
Proof.
  intros Hvalid.
  destruct (Todonna.toTodonnaItem r) as [item|e] eqn:Hitem; cycle 1.
  { exfalso. apply Hvalid, toTodonnaItem_throws. eauto. }
  exists item. split; [reflexivity|]. cbv zeta.
  pose proof (toTodonnaItem_id _ _ Hitem) as Hid.
  pose proof (toTodonnaItem_text _ _ Hitem) as Htext.
  pose proof (toTodonnaItem_status _ _ Hitem) as Hstatus.
  pose proof (toTodonnaItem_no_flags _ _ Hitem) as [_ Hlegacy].
  rewrite (fromTodonnaItem_status_of _ _ _ Hlegacy), Hstatus.
  split; [by apply fromTodonnaItem_id_own|].
  split; [exact Htext|].
  split.
  { intros [-> | ->]; reflexivity. }
  split.
  { intros Hnd. by rewrite bool_decide_eq_false_2. }
  clear Hid Htext Hstatus Hlegacy.
  unfold Todonna.toTodonnaItem in Hitem.
  assert (TodonnaItem.emoji item =
            match TodoItem.emoji r with
            | Some e => if String.eqb e "" then None else Some e
            | None => None
            end) as Hemoji.
  { destruct (TodoItem.date r) as [[[tv|]|s]|]; try discriminate;
      injection Hitem as <-; reflexivity. }
  assert (TodonnaItem.time item =
            match TodoItem.time r with
            | Some e => if String.eqb e "" then None else Some e
            | None => None
            end) as Htime.
  { destruct (TodoItem.date r) as [[[tv|]|s]|]; try discriminate;
      injection Hitem as <-; reflexivity. }
  simpl. rewrite Hemoji, Htime.
  repeat split.
  - destruct (TodoItem.emoji r) as [e|]; [|reflexivity].
    destruct (String.eqb_spec e ""); congruence.
  - intros ->. reflexivity.
  - destruct (TodoItem.time r) as [e|]; [|reflexivity].
    destruct (String.eqb_spec e ""); congruence.
  - intros ->. reflexivity.
  - intros tv Hd Hne Hparse. rewrite Hd in Hitem. injection Hitem as <-.
    simpl. apply truthy_Some_iff in Hne. simpl in Hne. rewrite Hne.
    by rewrite Hparse.
  - intros s Hd Hne. rewrite Hd in Hitem. injection Hitem as <-.
    simpl. apply truthy_Some_iff in Hne. simpl in Hne. by rewrite Hne.
  - intros Hd. rewrite Hd in Hitem. injection Hitem as <-. reflexivity.
Qed.

Lemma codec_round_trip_witness :
  ∃ item,
    @Todonna.toTodonnaItem Sample.utc2 Sample.milk = Ok item ∧
    @Todonna.fromTodonnaItem Sample.utc2 0 "a" item =
      {| TodoItem.id := "a"; TodoItem.text := Some "Buy milk";
         TodoItem.completed := None;
         TodoItem.todo_item_status := Some "pending";
         TodoItem.emoji := Some "M";
         TodoItem.date := Some (DateObj (Some Sample.may_first));
         TodoItem.time := Some "15:00"; TodoItem.removed := Some false |}.
Proof.
  destruct (@codec_round_trip Sample.utc2 0 Sample.milk) as (item & Hitem & _).
  { discriminate. }
  exists item. split; [exact Hitem|].
  vm_compute in Hitem. injection Hitem as <-. vm_compute. reflexivity.
Defined.

(** ** Listing the scope *)

Section Listing.
Context `{JsRuntime} (bk : Backend).

Lemma same_scope_logged c w w' : same_scope w w' → same_scope w (logged c w').
Proof. intros [? ?]. split; assumption. Qed.

Lemma same_scope_refl w : same_scope w w.
Proof. split; reflexivity. Qed.

Lemma load_settled max_age filename w w0 :
  same_scope w w0 →
  settle (Todonna.load bk max_age filename) w0 =
    (Ok (entry bk w filename), logged (GetObject filename (Some max_age)) w0).
Proof.
  intros [Hobj Hclock].
  unfold settle, Todonna.load, bind. rewrite getObject_run.
  unfold entry. rewrite <- Hobj, <- Hclock.
  destruct (get_fault bk filename); [reflexivity|].
  destruct (default Undefined (objects w0 !! filename)) as [|b|o];
    try reflexivity.
  destruct (bool_decide _); reflexivity.
Qed.

Lemma load_all_settled max_age filenames w w0 :
  same_scope w w0 →
  ∃ w1,
    mapM (fun filename => settle (Todonna.load bk max_age filename))
         filenames w0 = (Ok (entry bk w <$> filenames), w1)
    ∧ same_scope w w1.
Proof.
  revert w0. induction filenames as [|filename rest IH]; intros w0 Hsame.
  - exists w0. split; [reflexivity|assumption].
  - simpl. unfold bind at 1. rewrite (load_settled _ _ w) by assumption.
    destruct (IH (logged (GetObject filename (Some max_age)) w0))
      as (w1 & Hrun & Hsame1).
    { by apply same_scope_logged. }
    exists w1. unfold bind at 1. rewrite Hrun. split; [reflexivity|assumption].
Qed.

(** [getAll] when the listing is delivered. *)
Lemma getAll_run options w :
  listing_fault bk = None →
  ∃ w1,
    Todonna.getAll bk options w =
      (Ok (Todonna.collect (default false (options ≫= includeRemoved))
                           (entry bk w <$> (map_to_list (objects w)).*1)),
       w1)
    ∧ same_scope w w1.
Proof.
  intros Hlisting. unfold Todonna.getAll, bind at 1, getListing, bind at 1.
  unfold record_call. rewrite Hlisting.
  set (max_age := default 86400000 (options ≫= maxAge)).
  set (w0 := logged (GetListing "" (Some max_age)) w).
  destruct (load_all_settled max_age (map_to_list (objects w0)).*1 w w0)
    as (w1 & Hrun & Hsame).
  { apply same_scope_logged, same_scope_refl. }
  exists w1. unfold bind. rewrite Hrun. split; [reflexivity|assumption].
Qed.

Lemma getAll_no_listing options w :
  listing_fault bk = Some ListingNotAnObject →
  Todonna.getAll bk options w =
    (Ok [], logged (GetListing "" (Some (default 86400000 (options ≫= maxAge)))) w).
Proof.
  intros Hlisting. unfold Todonna.getAll, bind, getListing, bind.
  unfold record_call. rewrite Hlisting. reflexivity.
Qed.

Lemma getAll_rejected options w e :
  listing_fault bk = Some (ListingRejects e) →
  Todonna.getAll bk options w =
    (Throw e, logged (GetListing "" (Some (default 86400000 (options ≫= maxAge)))) w).
Proof.
  intros Hlisting. unfold Todonna.getAll, bind, getListing, bind.
  unfold record_call. rewrite Hlisting. reflexivity.
Qed.

Lemma elem_of_collect include_removed results r :
  r ∈ Todonna.collect include_removed results ↔
  fulfilled (Some r) ∈ results ∧
  (include_removed = true ∨ or_false (TodoItem.removed r) = false).
Proof.
  induction results as [|[[value|]|e] rest IH]; simpl.
  - split; [intros Hin; inversion Hin|intros [Hin _]; inversion Hin].
  - destruct (include_removed || negb (or_false (TodoItem.removed value)))
      eqn:Hkeep.
    + rewrite elem_of_cons, IH, elem_of_cons. split.
      * intros [-> | [? ?]]; [|by auto].
        split; [by left|].
        apply orb_true_iff in Hkeep as [?|Hkeep]; [by left|right].
        by apply negb_true_iff.
      * intros [[[= ->] | Hin] Hr]; [by left|right; by split].
    + rewrite IH, elem_of_cons. split.
      * intros [? ?]. split; [by right|assumption].
      * intros [[[= ->] | Hin] Hr]; [|by split].
        apply orb_false_iff in Hkeep as [Hi Hrm].
        apply negb_false_iff in Hrm. destruct Hr; congruence.
  - rewrite IH, elem_of_cons. split.
    + intros [? ?]. split; [by right|assumption].
    + intros [[[=]|?] ?]. by split.
  - rewrite IH, elem_of_cons. split.
    + intros [? ?]. split; [by right|assumption].
    + intros [[[=]|?] ?]. by split.
Qed.

(** The records listed are exactly the decodings of the keys that are
    fetched and hold an object with a text. *)
Lemma elem_of_entries w r :
  fulfilled (Some r) ∈ entry bk w <$> (map_to_list (objects w)).*1 ↔
  ∃ key o,
    objects w !! key = Some (Object o) ∧ get_fault bk key = None ∧
    is_Some (TodonnaItem.todo_item_text o) ∧
    r = Todonna.fromTodonnaItem (clock w) key o.
Proof.
  rewrite list_elem_of_fmap. split.
  - intros (key & Hentry & Hkey).
    apply list_elem_of_fmap in Hkey as ([key' v] & -> & Hkv).
    apply elem_of_map_to_list in Hkv. simpl in *.
    unfold entry in Hentry. rewrite Hkv in Hentry. simpl in Hentry.
    destruct (get_fault bk key') eqn:Hfault; [discriminate|].
    destruct v as [|b|o]; try discriminate.
    case_bool_decide; [|discriminate].
    injection Hentry as ->. exists key', o. auto.
  - intros (key & o & Hobj & Hfault & Htext & ->).
    exists key. split.
    + unfold entry. rewrite Hfault, Hobj. simpl.
      by rewrite bool_decide_eq_true_2.
    + apply list_elem_of_fmap. exists (key, Object o).
      split; [reflexivity|]. by apply elem_of_map_to_list.
Qed.
End Listing.

Section Reading.
Context `{JsRuntime} (bk : Backend).

Lemma get_run id max_age w :
  Todonna.get bk id max_age w =
    (match get_fault bk id with
     | Some e => Throw e
     | None =>
         Ok match default Undefined (objects w !! id) with
            | Object o =>
                if bool_decide (is_Some (TodonnaItem.todo_item_text o))
                then Some (Todonna.fromTodonnaItem (clock w) id o)
                else None
            | _ => None
            end
     end, logged (GetObject id max_age) w).
Proof.
  unfold Todonna.get, bind. rewrite getObject_run.
  destruct (get_fault bk id); [reflexivity|].
  destruct (default Undefined (objects w !! id)) as [|b|o]; try reflexivity.
  destruct (bool_decide _); reflexivity.
Qed.

(** What [getAll] returns: it never fails once the listing is delivered,
    it leaves the scope as it is, and it lists exactly the decodings of
    the keys that are fetched and hold an object with a text. *)
Lemma getAll_spec options w :
  listing_fault bk = None →
  ∃ todos w1,
    Todonna.getAll bk options w = (Ok todos, w1) ∧ same_scope w w1 ∧
    ∀ r, r ∈ todos ↔
         ∃ key o,
           objects w !! key = Some (Object o) ∧ get_fault bk key = None ∧
           is_Some (TodonnaItem.todo_item_text o) ∧
           r = Todonna.fromTodonnaItem (clock w) key o.
Proof.
  intros Hlisting.
  destruct (getAll_run bk options w Hlisting) as (w1 & Hrun & Hsame).
  eexists _, w1. split; [exact Hrun|]. split; [exact Hsame|].
  intros r. rewrite elem_of_collect, elem_of_entries. split.
  - intros [Hr _]. exact Hr.
  - intros (key & o & Hobj & Hfault & Htext & ->).
    split; [by exists key, o|]. right. reflexivity.
Qed.

(** Whatever the listing does, what [getAll] returns was decoded by
    [fromTodonnaItem]. *)
Lemma getAll_decoded options w todos w1 r :
  Todonna.getAll bk options w = (Ok todos, w1) → r ∈ todos →
  ∃ key o, r = Todonna.fromTodonnaItem (clock w) key o.
Proof.
  intros Hrun Hr.
  destruct (listing_fault bk) as [[e|]|] eqn:Hlisting.
  - rewrite (getAll_rejected bk options w e Hlisting) in Hrun. discriminate.
  - rewrite (getAll_no_listing bk options w Hlisting) in Hrun.
    injection Hrun as <- <-. inversion Hr.
  - destruct (getAll_spec options w Hlisting) as (todos' & w' & Hrun' & _ & Hiff).
    rewrite Hrun' in Hrun. injection Hrun as <- <-.
    apply Hiff in Hr as (key & o & _ & _ & _ & ->). eauto.
Qed.
End Reading.

(** ** Updating a record *)

Section Updating.
Context `{JsRuntime} (bk : Backend).

Lemma update_run id updates w :
  Todonna.update bk id updates w =
    let w0 := logged (GetObject id (Some 0)) w in
    match get_fault bk id with
    | Some e => (Throw e, w0)
    | None =>
        match default Undefined (objects w !! id) with
        | Object o =>
            match Todonna.toTodonnaItem
                    (spread (Todonna.fromTodonnaItem (clock w) id o)
                            updates id) with
            | Ok item => storeObject bk "todonna-item" id item w0
            | Throw e => (Throw e, w0)
            end
        | _ => (Throw (Todonna.not_found id), w0)
        end
    end.
Proof.
  unfold Todonna.update, bind at 1. rewrite getObject_run. cbv zeta.
  destruct (get_fault bk id); [reflexivity|].
  destruct (default Undefined (objects w !! id)) as [|b|o]; reflexivity.
Qed.

(** A successful [update] found an object under [id] and replaced it by
    the encoding of the merge. *)
Lemma update_ok id updates w w' :
  Todonna.update bk id updates w = (Ok tt, w') →
  ∃ o item,
    objects w !! id = Some (Object o) ∧ get_fault bk id = None ∧
    Todonna.toTodonnaItem
      (spread (Todonna.fromTodonnaItem (clock w) id o) updates id) = Ok item ∧
    validates item = true ∧ store_fault bk id item = None ∧
    objects w' = <[id := Object item]> (objects w) ∧ clock w' = clock w.
Proof.
  rewrite update_run. cbv zeta.
  destruct (get_fault bk id); [discriminate|].
  destruct (objects w !! id) as [[|b|o]|] eqn:Hobj; simpl; try discriminate.
  destruct (Todonna.toTodonnaItem _) as [item|e] eqn:Hitem; [|discriminate].
  rewrite storeObject_run. cbv zeta.
  destruct (validates item) eqn:Hvalid; [|discriminate].
  destruct (store_fault bk id item) eqn:Hfault; [discriminate|].
  intros [= <-]. exists o, item. simpl. auto 10.
Qed.
End Updating.

(** C9. In the main Todonna module every record that [get] or [getAll]
    returns has [removed = false] and a status that is done or pending,
    whatever the wire object holds; a wire status of archived decodes to
    pending; [toTodonnaItem] writes no [removed] field; and after a
    successful [update], also one that sets [removed: true], the stored
    object has no [removed] field and is read back with [removed = false]. *)
Theorem removed_never_persisted `{JsRuntime} (bk : Backend) :
  (∀ id max_age w r w',
      Todonna.get bk id max_age w = (Ok (Some r), w') →
      TodoItem.removed r = Some false ∧
      (TodoItem.todo_item_status r = Some "done" ∨
       TodoItem.todo_item_status r = Some "pending")) ∧
  (∀ options w todos w' r,
      Todonna.getAll bk options w = (Ok todos, w') → r ∈ todos →
      TodoItem.removed r = Some false ∧
      (TodoItem.todo_item_status r = Some "done" ∨
       TodoItem.todo_item_status r = Some "pending")) ∧
  (∀ now id item,
      TodonnaItem.todo_item_status item = Some "archived" →
      TodoItem.todo_item_status (Todonna.fromTodonnaItem now id item)
        = Some "pending") ∧
  (∀ r item, Todonna.toTodonnaItem r = Ok item →
             TodonnaItem.removed item = None) ∧
  (∀ id updates w w',
      Partial.removed updates = Some (Some true) →
      Todonna.update bk id updates w = (Ok tt, w') →
      ∃ item,
        objects w' !! id = Some (Object item) ∧
        TodonnaItem.removed item = None ∧
        ∀ max_age, ∃ r w'',
          Todonna.get bk id max_age w' = (Ok (Some r), w'') ∧
          TodoItem.removed r = Some false).
Proof.
  repeat split.
  - rewrite get_run in H0.
    destruct (get_fault bk id); [discriminate|].
    destruct (default Undefined (objects w !! id)) as [|b|o]; try discriminate.
    destruct (bool_decide _); [|discriminate].
    injection H0 as <- _. reflexivity.
  - rewrite get_run in H0.
    destruct (get_fault bk id); [discriminate|].
    destruct (default Undefined (objects w !! id)) as [|b|o]; try discriminate.
    destruct (bool_decide _); [|discriminate].
    injection H0 as <- _. apply fromTodonnaItem_status.
  - destruct (getAll_decoded bk options w todos w' r) as (key & o & ->); auto.
  - destruct (getAll_decoded bk options w todos w' r) as (key & o & ->); auto.
    apply fromTodonnaItem_status.
  - intros now id item. apply fromTodonnaItem_archived.
  - intros r item Hitem. by apply toTodonnaItem_no_flags in Hitem as [? _].
  - intros id updates w w' _ Hupdate.
    apply update_ok in Hupdate
      as (o & item & Hobj & Hfault & Hitem & Hvalid & _ & Hobjects & Hclock).
    exists item. rewrite Hobjects, lookup_insert_eq.
    split; [reflexivity|].
    split; [by apply toTodonnaItem_no_flags in Hitem as [? _]|].
    intros max_age. rewrite get_run, Hfault, Hobjects, lookup_insert_eq. simpl.
    unfold validates in Hvalid. rewrite Hvalid.
    eexists _, _. split; reflexivity.
Qed.

(** ** Listing by date *)

Section ByDate.
Context `{JsRuntime} (bk : Backend).

Lemma getByDate_run d options w :
  Todonna.getByDate bk d options w =
    match Todonna.getAll bk options w with
    | (Ok allTodos, w1) =>
        (Ok (filter (fun todo =>
                       dateString (new_Date (TodoItem.date todo))
                       = dateString d) allTodos), w1)
    | (Throw e, w1) => (Throw e, w1)
    end.
Proof.
  unfold Todonna.getByDate, bind.
  destruct (Todonna.getAll bk options w) as [[allTodos|e] w1]; reflexivity.
Qed.
End ByDate.

(** C10. A wire object without a date is decoded with the moment of
    decoding as its date; so a record stored without a date (an object with
    a text, under a key that is fetched) is returned by [getByDate d]
    exactly when [d] is a valid date on the same local calendar day as the
    call. *)
Theorem undated_is_dated_at_decoding `{JsRuntime} (bk : Backend) :
  (∀ now id item,
      TodonnaItem.date item = None →
      TodoItem.date (Todonna.fromTodonnaItem now id item)
        = Some (DateObj (Some now))) ∧
  (∀ w key o d options,
      listing_fault bk = None → get_fault bk key = None →
      objects w !! key = Some (Object o) →
      is_Some (TodonnaItem.todo_item_text o) →
      TodonnaItem.date o = None →
      ∃ todos w',
        Todonna.getByDate bk d options w = (Ok todos, w') ∧
        (Todonna.fromTodonnaItem (clock w) key o ∈ todos ↔
         dateString d = Some (toDateString (clock w)))).
Proof.
  split.
  - intros now id item Hdate. apply fromTodonnaItem_no_date.
    by rewrite Hdate.
  - intros w key o d options Hlisting Hfault Hobj Htext Hdate.
    destruct (getAll_spec bk options w Hlisting)
      as (allTodos & w1 & Hrun & _ & Hall).
    rewrite getByDate_run, Hrun. eexists _, w1. split; [reflexivity|].
    rewrite list_elem_of_filter, Hall.
    rewrite fromTodonnaItem_no_date by (by rewrite Hdate). simpl.
    split.
    + intros [Hday _]. symmetry. exact Hday.
    + intros Hday. split; [by symmetry|]. by exists key, o.
Qed.

Lemma undated_is_dated_at_decoding_witness :
  let w := Sample.scope [("c", Object Sample.undated_wire)] in
  let r := @Todonna.fromTodonnaItem Sample.utc2 (clock w) "c"
             Sample.undated_wire in
  (∃ todos w',
     @Todonna.getByDate Sample.utc2 Sample.reliable
       (Some (Sample.may_first + 3600000)) None w = (Ok todos, w') ∧
     r ∈ todos) ∧
  (∃ todos w',
     @Todonna.getByDate Sample.utc2 Sample.reliable
       (Some (Sample.may_first - 7200000)) None w = (Ok todos, w') ∧
     r ∉ todos).
Proof.
  intros w r.
  pose proof (@undated_is_dated_at_decoding Sample.utc2 Sample.reliable)
    as [_ Hlisted].
  split.
  - destruct (Hlisted w "c" Sample.undated_wire
                (Some (Sample.may_first + 3600000)) None)
      as (todos & w' & Hrun & Hiff); try reflexivity.
    { by eexists. }
    exists todos, w'. split; [exact Hrun|].
    apply Hiff. vm_compute. reflexivity.
  - destruct (Hlisted w "c" Sample.undated_wire
                (Some (Sample.may_first - 7200000)) None)
      as (todos & w' & Hrun & Hiff); try reflexivity.
    { by eexists. }
    exists todos, w'. split; [exact Hrun|].
    intros Hin. apply Hiff in Hin. vm_compute in Hin. discriminate.
Defined.

(** ** Soft deletion *)

(** C5 fails on the main module: a record soft-deleted with
    [update(id, {removed: true})] is still returned by the default listing,
    with [removed = false]. *)
Theorem soft_deleted_is_still_listed `{JsRuntime} (bk : Backend)
    id updates w w' :
  listing_fault bk = None →
  Partial.removed updates = Some (Some true) →
  Todonna.update bk id updates w = (Ok tt, w') →
  ∃ todos w'' r,
    Todonna.getAll bk None w' = (Ok todos, w'') ∧
    r ∈ todos ∧ TodoItem.id r = id ∧ TodoItem.removed r = Some false.
Proof.
  intros Hlisting _ Hupdate.
  apply update_ok in Hupdate
    as (o & item & Hobj & Hfault & Hitem & Hvalid & _ & Hobjects & Hclock).
  destruct (getAll_spec bk None w' Hlisting) as (todos & w'' & Hrun & _ & Hall).
  exists todos, w'', (Todonna.fromTodonnaItem (clock w') id item).
  split; [exact Hrun|]. split; [|split].
  - apply Hall. exists id, item. rewrite Hobjects, lookup_insert_eq.
    unfold validates in Hvalid. apply bool_decide_eq_true in Hvalid. auto.
  - apply fromTodonnaItem_id_own.
    by rewrite (toTodonnaItem_id _ _ Hitem).
  - reflexivity.
Qed.

Lemma soft_deleted_is_still_listed_witness :
  let w := Sample.scope [("a", Object Sample.milk_wire)] in
  let soft_delete :=
    {| Partial.id := None; Partial.text := None; Partial.completed := None;
       Partial.todo_item_status := None; Partial.emoji := None;
       Partial.date := None; Partial.time := None;
       Partial.removed := Some (Some true) |} in
  ∃ w' todos w'' r,
    @Todonna.update Sample.utc2 Sample.reliable "a" soft_delete w = (Ok tt, w') ∧
    @Todonna.getAll Sample.utc2 Sample.reliable None w' = (Ok todos, w'') ∧
    r ∈ todos ∧ TodoItem.id r = "a" ∧ TodoItem.removed r = Some false.
Proof.
  intros w soft_delete.
  destruct (@Todonna.update Sample.utc2 Sample.reliable "a" soft_delete w)
    as [[[]|e] w'] eqn:Hupdate; [|vm_compute in Hupdate; discriminate].
  destruct (@soft_deleted_is_still_listed Sample.utc2 Sample.reliable
              "a" soft_delete w w') as (todos & w'' & r & Hrun & Hr);
    [reflexivity|reflexivity|exact Hupdate|].
  exists w', todos, w'', r. split; [reflexivity|]. split; [exact Hrun|exact Hr].
Defined.

(** ** The lightweight module *)

Section Lightweight.
Context `{JsRuntime} (bk : Backend).

Lemma light_get_run id max_age w :
  TodonnaModule.get bk id max_age w =
    (match get_fault bk id with
     | Some e => if TodonnaModule.isNotFoundError e then Ok None else Throw e
     | None =>
         Ok match default Undefined (objects w !! id) with
            | Undefined | Primitive false => None
            | v => Some (TodonnaModule.fromStorage id
                           (TodonnaModule.properties v))
            end
     end, logged (GetObject id max_age) w).
Proof.
  unfold TodonnaModule.get, try_catch, bind. rewrite getObject_run.
  destruct (get_fault bk id) as [e|].
  - destruct (TodonnaModule.isNotFoundError e); reflexivity.
  - destruct (default Undefined (objects w !! id)) as [|[]|o]; reflexivity.
Qed.

Lemma light_load_settled max_age key w w0 :
  same_scope w w0 →
  settle (TodonnaModule.load bk max_age key) w0 =
    (Ok (light_entry bk w key), logged (GetObject key (Some max_age)) w0).
Proof.
  intros [Hobj Hclock].
  unfold settle, TodonnaModule.load, try_catch, bind. rewrite getObject_run.
  unfold light_entry. rewrite <- Hobj.
  destruct (get_fault bk key) as [e|].
  - destruct (TodonnaModule.isNotFoundError e); reflexivity.
  - destruct (default Undefined (objects w0 !! key)) as [|b|o]; reflexivity.
Qed.

Lemma light_load_all_settled max_age keys w w0 :
  same_scope w w0 →
  ∃ w1,
    mapM (fun key => settle (TodonnaModule.load bk max_age key)) keys w0
      = (Ok (light_entry bk w <$> keys), w1)
    ∧ same_scope w w1.
Proof.
  revert w0. induction keys as [|key rest IH]; intros w0 Hsame.
  - exists w0. split; [reflexivity|assumption].
  - simpl. unfold bind at 1. rewrite (light_load_settled _ _ w) by assumption.
    destruct (IH (logged (GetObject key (Some max_age)) w0))
      as (w1 & Hrun & Hsame1).
    { by apply same_scope_logged. }
    exists w1. unfold bind at 1. rewrite Hrun. split; [reflexivity|assumption].
Qed.

Lemma light_getAll_run options w :
  listing_fault bk = None →
  let entries := light_entry bk w <$> (map_to_list (objects w)).*1 in
  ∃ w1,
    TodonnaModule.getAll bk options w =
      (match first_rejection entries with
       | Some e => Throw e
       | None =>
           Ok (List.filter
                 (fun todo =>
                    default false (options ≫= includeRemoved)
                    || negb (or_false (TodoItem.removed todo)))
                 (omap (fun entry => entry) (values entries)))
       end, w1)
    ∧ same_scope w w1.
Proof.
  intros Hlisting entries.
  unfold TodonnaModule.getAll, bind at 1, getListing, bind at 1.
  unfold record_call. rewrite Hlisting.
  set (max_age := default 86400000 (options ≫= maxAge)).
  set (w0 := logged (GetListing "" (Some max_age)) w).
  destruct (light_load_all_settled max_age (map_to_list (objects w0)).*1 w w0)
    as (w1 & Hrun & Hsame).
  { apply same_scope_logged, same_scope_refl. }
  exists w1. unfold bind at 1, Promise_all, bind at 1. rewrite Hrun.
  change (objects w0) with (objects w). fold entries. split; [|assumption].
  destruct (first_rejection entries); reflexivity.
Qed.


Lemma first_rejection_None {A} (rs : list (Settled A)) :
  (∀ e, rejected e ∉ rs) → first_rejection rs = None.
Proof.
  induction rs as [|[a|e0] rs IH]; intros Hnone; simpl.
  - reflexivity.
  - apply IH. intros e Hin. apply (Hnone e). by right.
  - exfalso. apply (Hnone e0). by left.
Qed.
End Lightweight.

(** ** Entries that cannot be decoded *)




Section LightUpdating.
Context `{JsRuntime} (bk : Backend).

Lemma light_update_run id updates w :
  TodonnaModule.update bk id updates w =
    let w0 := logged (GetObject id None) w in
    match get_fault bk id with
    | Some e =>
        if TodonnaModule.isNotFoundError e
        then (Throw (new_Error "Todo not found"), w0) else (Throw e, w0)
    | None =>
        match default Undefined (objects w !! id) with
        | Undefined | Primitive false =>
            (Throw (new_Error "Todo not found"), w0)
        | v =>
            match TodonnaModule.toStorage
                    (spread (TodonnaModule.fromStorage id
                               (TodonnaModule.properties v)) updates id) with
            | Ok payload => storeObject bk "todonna-item" id payload w0
            | Throw e => (Throw e, w0)
            end
        end
    end.
Proof.
  unfold TodonnaModule.update, bind at 1. rewrite light_get_run. cbv zeta.
  destruct (get_fault bk id) as [e|].
  - destruct (TodonnaModule.isNotFoundError e); reflexivity.
  - destruct (default Undefined (objects w !! id)) as [|[]|o]; reflexivity.
Qed.
End LightUpdating.

(** All calls of a list are writes of [id]. *)
Lemma storeObject_calls bk type key payload w :
  calls (storeObject bk type key payload w).2
    = StoreObject type key payload :: calls w ∧
  ((storeObject bk type key payload w).1 = Ok tt ∧
   objects (storeObject bk type key payload w).2
     = <[key := Object payload]> (objects w)
   ∨ (∃ e, (storeObject bk type key payload w).1 = Throw e) ∧
     objects (storeObject bk type key payload w).2 = objects w).
Proof.
  rewrite storeObject_run. cbv zeta.
  destruct (validates payload); [destruct (store_fault bk key payload)|];
    simpl; eauto 10.
Qed.

(** C3, as stated, fails on the lightweight [TodonnaModule]: its [update]
    reads the current record through [get(id)], without a [maxAge]. *)
Lemma light_update_reads_without_maxAge :
  let w := Sample.scope [("a", Object Sample.milk_wire)] in
  let w' := (@TodonnaModule.update Sample.utc2 Sample.reliable "a"
               Partial.empty w).2 in
  last (calls w') = Some (GetObject "a" None) ∧
  GetObject "a" (Some 0) ∉ calls w'.
Proof.
  vm_compute. split; [reflexivity|].
  intros Hin. repeat (apply elem_of_cons in Hin as [Hin|Hin]; [discriminate|]).
  inversion Hin.
Qed.

Section UpdateFacts.
Context `{JsRuntime} (bk : Backend).

(** The read comes first and bypasses the cache; what follows, if
    anything, is one write under the same key. *)
Lemma update_calls id updates w :
  ∃ writes : list Call,
    calls (Todonna.update bk id updates w).2
      = (writes ++ GetObject id (Some 0) :: calls w)%list ∧
    ∀ c, c ∈ writes → ∃ item, c = StoreObject "todonna-item" id item.
Proof.
  rewrite update_run. cbv zeta.
  destruct (get_fault bk id); [exists []; split; [reflexivity|inversion 1]|].
  destruct (default Undefined (objects w !! id)) as [|b|o];
    try (exists []; split; [reflexivity|inversion 1]).
  destruct (Todonna.toTodonnaItem _) as [item|e];
    [|exists []; split; [reflexivity|inversion 1]].
  destruct (storeObject_calls bk "todonna-item" id item
              (logged (GetObject id (Some 0)) w)) as [-> _].
  exists [StoreObject "todonna-item" id item]. split; [reflexivity|].
  intros c Hc. apply list_elem_of_singleton in Hc as ->. eauto.
Qed.

Lemma update_missing id updates w :
  get_fault bk id = None →
  (∀ o, objects w !! id ≠ Some (Object o)) →
  Todonna.update bk id updates w
    = (Throw (Todonna.not_found id), logged (GetObject id (Some 0)) w).
Proof.
  intros Hfault Hmissing. rewrite update_run, Hfault. cbv zeta.
  destruct (objects w !! id) as [[|b|o]|] eqn:Hobj; try reflexivity.
  by destruct (Hmissing o).
Qed.

Lemma update_error id updates w e w' :
  Todonna.update bk id updates w = (Throw e, w') → objects w' = objects w.
Proof.
  rewrite update_run. cbv zeta.
  destruct (get_fault bk id); [by intros [= _ <-]|].
  destruct (default Undefined (objects w !! id)) as [|b|o];
    try by intros [= _ <-].
  destruct (Todonna.toTodonnaItem _) as [item|e0]; [|by intros [= _ <-]].
  intros Hstore.
  destruct (storeObject_calls bk "todonna-item" id item
              (logged (GetObject id (Some 0)) w)) as [_ [[Hok _]|[_ Hsame]]].
  - rewrite Hstore in Hok. discriminate.
  - rewrite Hstore in Hsame. exact Hsame.
Qed.

Lemma update_accepted id updates w o item :
  get_fault bk id = None →
  objects w !! id = Some (Object o) →
  Todonna.toTodonnaItem
    (spread (Todonna.fromTodonnaItem (clock w) id o) updates id) = Ok item →
  validates item = true → store_fault bk id item = None →
  ∃ w', Todonna.update bk id updates w = (Ok tt, w').
Proof.
  intros Hfault Hobj Hitem Hvalid Hstore.
  rewrite update_run, Hfault, Hobj. simpl. rewrite Hitem.
  rewrite storeObject_run, Hvalid, Hstore. eauto.
Qed.

Lemma light_update_calls id updates w :
  ∃ writes : list Call,
    calls (TodonnaModule.update bk id updates w).2
      = (writes ++ GetObject id None :: calls w)%list ∧
    ∀ c, c ∈ writes → ∃ item, c = StoreObject "todonna-item" id item.
Proof.
  rewrite light_update_run. cbv zeta.
  destruct (get_fault bk id) as [e|].
  { destruct (TodonnaModule.isNotFoundError e);
      exists []; split; try reflexivity; inversion 1. }
  assert (∀ v,
    ∃ writes : list Call,
      calls (match TodonnaModule.toStorage
                     (spread (TodonnaModule.fromStorage id
                                (TodonnaModule.properties v)) updates id) with
             | Ok payload =>
                 storeObject bk "todonna-item" id payload
                   (logged (GetObject id None) w)
             | Throw e => (Throw e, logged (GetObject id None) w)
             end).2 = (writes ++ GetObject id None :: calls w)%list ∧
      ∀ c, c ∈ writes → ∃ item, c = StoreObject "todonna-item" id item)
    as Hwrite.
  { intros v. destruct (TodonnaModule.toStorage _) as [payload|e];
      [|exists []; split; [reflexivity|inversion 1]].
    destruct (storeObject_calls bk "todonna-item" id payload
                (logged (GetObject id None) w)) as [-> _].
    exists [StoreObject "todonna-item" id payload]. split; [reflexivity|].
    intros c Hc. apply list_elem_of_singleton in Hc as ->. eauto. }
  destruct (default Undefined (objects w !! id)) as [|[]|o] eqn:Hv;
    try (exists []; split; [reflexivity|inversion 1]).
  - apply (Hwrite (Primitive true)).
  - apply (Hwrite (Object o)).
Qed.

Lemma light_update_missing id updates w :
  get_fault bk id = None → objects w !! id = None →
  TodonnaModule.update bk id updates w
    = (Throw (new_Error "Todo not found"), logged (GetObject id None) w).
Proof.
  intros Hfault Hmissing.
  rewrite light_update_run, Hfault, Hmissing. reflexivity.
Qed.

Lemma light_update_error id updates w e w' :
  TodonnaModule.update bk id updates w = (Throw e, w') →
  objects w' = objects w.
Proof.
  rewrite light_update_run. cbv zeta.
  destruct (get_fault bk id) as [e0|].
  { destruct (TodonnaModule.isNotFoundError e0); by intros [= _ <-]. }
  assert (∀ v,
    match TodonnaModule.toStorage
            (spread (TodonnaModule.fromStorage id
                       (TodonnaModule.properties v)) updates id) with
    | Ok payload =>
        storeObject bk "todonna-item" id payload
          (logged (GetObject id None) w)
    | Throw e => (Throw e, logged (GetObject id None) w)
    end = (Throw e, w') → objects w' = objects w) as Hwrite.
  { intros v. destruct (TodonnaModule.toStorage _) as [payload|e0];
      [|by intros [= _ <-]].
    intros Hstore.
    destruct (storeObject_calls bk "todonna-item" id payload
                (logged (GetObject id None) w)) as [_ [[Hok _]|[_ Hsame]]].
    - rewrite Hstore in Hok. discriminate.
    - rewrite Hstore in Hsame. exact Hsame. }
  destruct (default Undefined (objects w !! id)) as [|[]|o] eqn:Hv;
    try by intros [= _ <-].
  - apply (Hwrite (Primitive true)).
  - apply (Hwrite (Object o)).
Qed.

Lemma light_update_ok id updates w w' :
  TodonnaModule.update bk id updates w = (Ok tt, w') →
  ∃ v payload,
    objects w !! id = Some v ∧
    TodonnaModule.toStorage
      (spread (TodonnaModule.fromStorage id (TodonnaModule.properties v))
              updates id) = Ok payload ∧
    TodonnaItem.todo_item_id payload = Some id ∧
    objects w' = <[id := Object payload]> (objects w).
Proof.
  rewrite light_update_run. cbv zeta.
  destruct (get_fault bk id) as [e0|].
  { destruct (TodonnaModule.isNotFoundError e0); discriminate. }
  assert (∀ v,
    objects w !! id = Some v →
    match TodonnaModule.toStorage
            (spread (TodonnaModule.fromStorage id
                       (TodonnaModule.properties v)) updates id) with
    | Ok payload =>
        storeObject bk "todonna-item" id payload
          (logged (GetObject id None) w)
    | Throw e => (Throw e, logged (GetObject id None) w)
    end = (Ok tt, w') →
    ∃ v payload,
      objects w !! id = Some v ∧
      TodonnaModule.toStorage
        (spread (TodonnaModule.fromStorage id (TodonnaModule.properties v))
                updates id) = Ok payload ∧
      TodonnaItem.todo_item_id payload = Some id ∧
      objects w' = <[id := Object payload]> (objects w)) as Hwrite.
  { intros v Hv.
    destruct (TodonnaModule.toStorage _) as [payload|e0] eqn:Hpayload;
      [|discriminate].
    intros Hstore.
    destruct (storeObject_calls bk "todonna-item" id payload
                (logged (GetObject id None) w)) as [_ [[_ Hobj]|[[e He] _]]].
    - rewrite Hstore in Hobj. exists v, payload.
      split; [exact Hv|]. split; [exact Hpayload|]. split; [|exact Hobj].
      unfold TodonnaModule.toStorage in Hpayload.
      destruct (TodonnaModule.date_truthy _);
        [destruct (new_Date _)|]; try discriminate;
        injection Hpayload as <-; reflexivity.
    - rewrite Hstore in He. discriminate. }
  destruct (objects w !! id) as [[|[]|o]|] eqn:Hv; simpl; try discriminate.
  - intros Hrun. exact (Hwrite (Primitive true) eq_refl Hrun).
  - intros Hrun. exact (Hwrite (Object o) eq_refl Hrun).
Qed.
End UpdateFacts.

(** C3 (amended). In the main Todonna module [update(id, updates)] first
    reads the current record with [maxAge = 0], and any further call is a
    write under [id]; when the read finds no object it fails with the
    not-found error after that single read; whenever it fails the documents
    of the scope are unchanged; when it succeeds, the document under [id] is
    the encoding of the fetched record with [updates] merged over it, and
    carries [id] whatever [updates] holds; and it does succeed when the
    merge can be encoded and the backend accepts the write. The lightweight
    [TodonnaModule] behaves in the same way, except that it reads through
    [get(id)] without a [maxAge]. *)
Theorem update_reads_then_merges `{JsRuntime} (bk : Backend)
    (id : string) (updates : Partial.t) (w : World) :
  ((∃ writes : list Call,
      calls (Todonna.update bk id updates w).2
        = (writes ++ GetObject id (Some 0) :: calls w)%list ∧
      ∀ c, c ∈ writes → ∃ item, c = StoreObject "todonna-item" id item) ∧
   (get_fault bk id = None →
    (∀ o, objects w !! id ≠ Some (Object o)) →
    Todonna.update bk id updates w
      = (Throw (Todonna.not_found id), logged (GetObject id (Some 0)) w)) ∧
   (∀ e w', Todonna.update bk id updates w = (Throw e, w') →
            objects w' = objects w) ∧
   (∀ w', Todonna.update bk id updates w = (Ok tt, w') →
          ∃ o item,
            objects w !! id = Some (Object o) ∧
            Todonna.toTodonnaItem
              (spread (Todonna.fromTodonnaItem (clock w) id o) updates id)
              = Ok item ∧
            TodonnaItem.todo_item_id item = Some id ∧
            objects w' = <[id := Object item]> (objects w)) ∧
   (∀ o item,
       get_fault bk id = None → objects w !! id = Some (Object o) →
       Todonna.toTodonnaItem
         (spread (Todonna.fromTodonnaItem (clock w) id o) updates id)
         = Ok item →
       validates item = true → store_fault bk id item = None →
       ∃ w', Todonna.update bk id updates w = (Ok tt, w'))) ∧
  ((∃ writes : list Call,
      calls (TodonnaModule.update bk id updates w).2
        = (writes ++ GetObject id None :: calls w)%list ∧
      ∀ c, c ∈ writes → ∃ item, c = StoreObject "todonna-item" id item) ∧
   (get_fault bk id = None → objects w !! id = None →
    TodonnaModule.update bk id updates w
      = (Throw (new_Error "Todo not found"), logged (GetObject id None) w)) ∧
   (∀ e w', TodonnaModule.update bk id updates w = (Throw e, w') →
            objects w' = objects w) ∧
   (∀ w', TodonnaModule.update bk id updates w = (Ok tt, w') →
          ∃ v payload,
            objects w !! id = Some v ∧
            TodonnaModule.toStorage
              (spread (TodonnaModule.fromStorage id
                         (TodonnaModule.properties v)) updates id)
              = Ok payload ∧
            TodonnaItem.todo_item_id payload = Some id ∧
            objects w' = <[id := Object payload]> (objects w))).
Proof.
  split.
  - split; [apply update_calls|].
    split; [apply update_missing|].
    split; [apply update_error|].
    split.
    + intros w' Hrun.
      apply update_ok in Hrun as (o & item & ? & ? & Hitem & ? & ? & ? & ?).
      exists o, item. repeat split; try assumption.
      by rewrite (toTodonnaItem_id _ _ Hitem).
    + intros o item. apply update_accepted.
  - split; [apply light_update_calls|].
    split; [apply light_update_missing|].
    split; [apply light_update_error|].
    apply light_update_ok.
Qed.

Lemma update_reads_then_merges_witness :
  let w := Sample.scope [("a", Object Sample.milk_wire)] in
  let rename :=
    {| Partial.id := Some "z"; Partial.text := Some (Some "Buy oat milk");
       Partial.completed := Some (Some true);
       Partial.todo_item_status := None; Partial.emoji := None;
       Partial.date := None; Partial.time := None;
       Partial.removed := None |} in
  ∃ w' item,
    @Todonna.update Sample.utc2 Sample.reliable "a" rename w = (Ok tt, w') ∧
    objects w' !! "a" = Some (Object item) ∧
    TodonnaItem.todo_item_id item = Some "a" ∧
    TodonnaItem.todo_item_text item = Some "Buy oat milk" ∧
    TodonnaItem.todo_item_status item = Some "done" ∧
    (@Todonna.update Sample.utc2 Sample.reliable "q" rename w).1
      = Throw (Todonna.not_found "q").
Proof.
  intros w rename.
  destruct (@update_reads_then_merges Sample.utc2 Sample.reliable "a" rename w)
    as [(_ & _ & _ & Hok & _) _].
  destruct (@update_reads_then_merges Sample.utc2 Sample.reliable "q" rename w)
    as [(_ & Hmissing & _) _].
  destruct (@Todonna.update Sample.utc2 Sample.reliable "a" rename w)
    as [[[]|e] w'] eqn:Hrun; [|vm_compute in Hrun; discriminate].
  destruct (Hok w' eq_refl) as (o & item & Hobj & Hitem & Hid & Hobjects).
  exists w', item. split; [reflexivity|].
  vm_compute in Hobj. injection Hobj as <-.
  vm_compute in Hitem. injection Hitem as <-.
  rewrite Hobjects, lookup_insert_eq.
  split; [reflexivity|]. split; [reflexivity|]. split; [reflexivity|].
  split; [reflexivity|].
  rewrite Hmissing; [reflexivity|reflexivity|].
  intros o Ho. vm_compute in Ho. discriminate.
Defined.

(** ** Batches *)

Section Batches.
Context {A : Type} (op : A → M unit) (id_of : A → string)
        (options : option BatchOperationOptions) (total : nat).

Lemma report_quiet completed w :
  quiet options →
  ∃ w', Todonna.report options completed total w = (Ok tt, w') ∧
        objects w' = objects w ∧ clock w' = clock w.
Proof.
  intros Hquiet. unfold Todonna.report.
  destruct (options ≫= onProgress) as [callback|] eqn:Hcallback.
  - unfold bind, record_call. rewrite (Hquiet callback Hcallback).
    eexists. split; [reflexivity|]. split; reflexivity.
  - exists w. split; [reflexivity|]. split; reflexivity.
Qed.

(** A batch never throws. *)
Lemma loop_returns items i result w :
  ∃ res w', Todonna.loop op id_of options total i items result w
            = (Ok res, w').
Proof.
  revert i result w. induction items as [|item rest IH]; intros i result w.
  - eexists _, _. reflexivity.
  - simpl. unfold bind, Todonna.attempt.
    destruct (op item w) as [[[]|e] w1].
    + destruct (Todonna.report options (i + 1) total w1) as [[[]|e] w2].
      * apply IH.
      * destruct (default false (options ≫= stopOnError));
          [eexists _, _; reflexivity|apply IH].
    + destruct (default false (options ≫= stopOnError));
        [eexists _, _; reflexivity|apply IH].
Qed.

(** With a callback that returns normally every item is counted at most
    once. *)
Lemma loop_counts items i result w res w' :
  quiet options →
  Todonna.loop op id_of options total i items result w = (Ok res, w') →
  (succeeded res + failed res
     ≤ succeeded result + failed result + length items ∧
   failed result ≤ failed res ∧
   length (errors res)
     = length (errors result) + (failed res - failed result))%nat.
Proof.
  intros Hquiet. revert i result w.
  induction items as [|item rest IH]; intros i result w.
  - intros [= <- <-]. simpl. lia.
  - simpl. unfold bind, Todonna.attempt.
    destruct (op item w) as [[[]|e] w1].
    + destruct (report_quiet (i + 1) w1 Hquiet) as (w2 & -> & _).
      intros Hrun. apply IH in Hrun. simpl in Hrun. lia.
    + destruct (default false (options ≫= stopOnError)).
      * intros [= <- <-]. simpl. rewrite length_app. simpl. lia.
      * intros Hrun. apply IH in Hrun. simpl in Hrun.
        rewrite length_app in Hrun. simpl in Hrun. lia.
Qed.

(** With [stopOnError] the batch ends at the first failure: the items
    before it are the successes, it is the only failure and the only
    error, and the world is the one its operation left. *)
Lemma loop_stops_at_first_failure items i result w k e wk :
  quiet options →
  default false (options ≫= stopOnError) = true →
  first_to_fail op options total items i w k e wk →
  ∃ item,
    items !! k = Some item ∧
    Todonna.loop op id_of options total i items result w =
      (Ok {| succeeded := (succeeded result + k)%nat;
             failed := S (failed result);
             errors := errors result ++ [(id_of item, Todonna.as_Error e)] |},
       wk).
Proof.
  intros Hquiet Hstop. revert i result w k.
  induction items as [|item rest IH]; intros i result w k Hfirst.
  - destruct k; contradiction.
  - destruct k as [|k]; simpl in Hfirst.
    + exists item. split; [reflexivity|].
      simpl. unfold bind, Todonna.attempt. rewrite Hfirst, Hstop.
      unfold ret. repeat f_equal. lia.
    + destruct Hfirst as (w1 & Hop & Hrest).
      destruct (report_quiet (i + 1) w1 Hquiet) as (w2 & Hreport & _).
      rewrite Hreport in Hrest. simpl in Hrest.
      destruct (IH (S i)
                  {| succeeded := S (succeeded result);
                     failed := failed result; errors := errors result |}
                  w2 k Hrest) as (item' & Hlookup & Hrun).
      exists item'. split; [exact Hlookup|].
      simpl. unfold bind, Todonna.attempt. rewrite Hop, Hreport, Hrun.
      simpl. repeat f_equal. lia.
Qed.
End Batches.

(** C4 fails when the progress callback throws: the callback is called
    inside the [try] block, after the success has been counted, so the item
    is counted as a failure as well, and [succeeded + failed] exceeds the
    number of items. *)
Theorem progress_callback_counts_twice :
  let options :=
    Some {| stopOnError := Some true;
            onProgress := Some (fun _ _ => Some Sample.server_error) |} in
  let w := Sample.scope [("a", Object Sample.milk_wire)] in
  (@Todonna.batchAdd Sample.utc2 Sample.reliable [Sample.milk] options w).1
    = Ok {| succeeded := 1; failed := 1;
            errors := [("a", Sample.server_error)] |} ∧
  (@Todonna.batchUpdate Sample.utc2 Sample.reliable
     [("a", Partial.empty)] options w).1
    = Ok {| succeeded := 1; failed := 1;
            errors := [("a", Sample.server_error)] |} ∧
  (Todonna.batchRemove Sample.reliable ["a"] options w).1
    = Ok {| succeeded := 1; failed := 1;
            errors := [("a", Sample.server_error)] |}.
Proof. repeat split; vm_compute; reflexivity. Qed.

(** What C4 says holds whenever the progress callback returns normally:
    with [stopOnError], if the item at offset [k] (the [k+1]-th) is the
    first to fail, the result counts [k] successes and one failure, its only
    error is that item's, and nothing is attempted afterwards; and in every
    batch [succeeded + failed] is at most the number of items. *)
Theorem batches_stop_at_first_failure `{JsRuntime} (bk : Backend)
    (options : option BatchOperationOptions) (w : World)
    (k : nat) (e : JsError) (wk : World) :
  quiet options →
  (default false (options ≫= stopOnError) = true →
   (∀ todos,
       first_to_fail (Todonna.add bk) options (length todos) todos 0 w k e wk →
       ∃ todo,
         todos !! k = Some todo ∧
         Todonna.batchAdd bk todos options w =
           (Ok {| succeeded := k; failed := 1;
                  errors := [(TodoItem.id todo, Todonna.as_Error e)] |}, wk)) ∧
   (∀ updates,
       first_to_fail (fun u => Todonna.update bk u.1 u.2) options
         (length updates) updates 0 w k e wk →
       ∃ u,
         updates !! k = Some u ∧
         Todonna.batchUpdate bk updates options w =
           (Ok {| succeeded := k; failed := 1;
                  errors := [(u.1, Todonna.as_Error e)] |}, wk)) ∧
   (∀ ids,
       first_to_fail (Todonna.remove bk) options (length ids) ids 0 w k e wk →
       ∃ id,
         ids !! k = Some id ∧
         Todonna.batchRemove bk ids options w =
           (Ok {| succeeded := k; failed := 1;
                  errors := [(id, Todonna.as_Error e)] |}, wk))) ∧
  (∀ todos res w',
      Todonna.batchAdd bk todos options w = (Ok res, w') →
      (succeeded res + failed res ≤ length todos)%nat) ∧
  (∀ updates res w',
      Todonna.batchUpdate bk updates options w = (Ok res, w') →
      (succeeded res + failed res ≤ length updates)%nat) ∧
  (∀ ids res w',
      Todonna.batchRemove bk ids options w = (Ok res, w') →
      (succeeded res + failed res ≤ length ids)%nat).
Proof.
  intros Hquiet. split; [intros Hstop; split; [|split]|split; [|split]].
  - intros todos Hfirst.
    destruct (loop_stops_at_first_failure (Todonna.add bk) TodoItem.id options
                (length todos) todos 0 Todonna.empty_result w k e wk
                Hquiet Hstop Hfirst) as (todo & Hlookup & Hrun).
    exists todo. split; [exact Hlookup|exact Hrun].
  - intros updates Hfirst.
    destruct (loop_stops_at_first_failure
                (fun u => Todonna.update bk u.1 u.2) fst options
                (length updates) updates 0 Todonna.empty_result w k e wk
                Hquiet Hstop Hfirst) as (u & Hlookup & Hrun).
    exists u. split; [exact Hlookup|exact Hrun].
  - intros ids Hfirst.
    destruct (loop_stops_at_first_failure (Todonna.remove bk) (fun id => id)
                options (length ids) ids 0 Todonna.empty_result w k e wk
                Hquiet Hstop Hfirst) as (id & Hlookup & Hrun).
    exists id. split; [exact Hlookup|exact Hrun].
  - intros todos res w' Hrun.
    apply loop_counts in Hrun; [simpl in Hrun; lia|exact Hquiet].
  - intros updates res w' Hrun.
    apply loop_counts in Hrun; [simpl in Hrun; lia|exact Hquiet].
  - intros ids res w' Hrun.
    apply loop_counts in Hrun; [simpl in Hrun; lia|exact Hquiet].
Qed.

Lemma batches_stop_at_first_failure_witness :
  let options := Some {| stopOnError := Some true; onProgress := None |} in
  let w := Sample.scope [("a", Object Sample.milk_wire);
                         ("x", Object Sample.undated_wire);
                         ("b", Object Sample.milk_wire)] in
  ∃ wk,
    Todonna.batchRemove Sample.stubborn ["a"; "x"; "b"] options w =
      (Ok {| succeeded := 1; failed := 1;
             errors := [("x", Sample.server_error)] |}, wk) ∧
    objects wk !! "a" = None ∧
    objects wk !! "b" = Some (Object Sample.milk_wire).
Proof.
  intros options w.
  exists (logged (Remove "x")
            {| objects := delete "a" (objects w); clock := clock w;
               calls := [Remove "a"] |}).
  split; [|split; vm_compute; reflexivity].
  destruct (@batches_stop_at_first_failure Sample.utc2 Sample.stubborn
              options w 1 Sample.server_error
              (logged (Remove "x")
                 {| objects := delete "a" (objects w); clock := clock w;
                    calls := [Remove "a"] |}))
    as [Hstops _].
  { intros callback [=]. }
  destruct (Hstops eq_refl) as (_ & _ & Hremove).
  destruct (Hremove ["a"; "x"; "b"]) as (id & Hid & Hrun).
  { simpl. eexists. split; reflexivity. }
  injection Hid as <-. rewrite Hrun. reflexivity.
Defined.

(** ** Reconciliation *)

Section Diff.
Implicit Types existing todos : list TodoItem.t.

Lemma elem_of_ids_of id todos :
  id ∈ Todonna.ids_of todos ↔ ∃ t, t ∈ todos ∧ TodoItem.id t = id.
Proof.
  unfold Todonna.ids_of. rewrite elem_of_list_to_set, list_elem_of_fmap.
  split; intros (t & ? & ?); exists t; auto.
Qed.

Lemma toAdd_ids existing todos :
  Todonna.ids_of (Todonna.toAdd (Todonna.diff existing todos))
    = Todonna.ids_of todos ∖ Todonna.ids_of existing.
Proof.
  apply set_eq. intros id. rewrite elem_of_difference, !elem_of_ids_of.
  simpl. split.
  - intros (t & Ht & <-). apply list_elem_of_filter in Ht as [Hnew Ht].
    split; [by exists t|]. by rewrite <- elem_of_ids_of.
  - intros [(t & Ht & <-) Hnew]. exists t. split; [|reflexivity].
    apply list_elem_of_filter. split; [|assumption].
    by rewrite elem_of_ids_of.
Qed.

Lemma toUpdate_ids existing todos :
  Todonna.ids_of (Todonna.toUpdate (Todonna.diff existing todos))
    = Todonna.ids_of todos ∩ Todonna.ids_of existing.
Proof.
  apply set_eq. intros id. rewrite elem_of_intersection, !elem_of_ids_of.
  simpl. split.
  - intros (t & Ht & <-). apply list_elem_of_filter in Ht as [Hold Ht].
    split; [by exists t|]. by rewrite <- elem_of_ids_of.
  - intros [(t & Ht & <-) Hold]. exists t. split; [|reflexivity].
    apply list_elem_of_filter. split; [|assumption].
    by rewrite elem_of_ids_of.
Qed.

Lemma toRemove_ids existing todos :
  list_to_set (Todonna.toRemove (Todonna.diff existing todos))
    = Todonna.ids_of existing ∖ Todonna.ids_of todos.
Proof.
  change (list_to_set (Todonna.toRemove (Todonna.diff existing todos)))
    with (Todonna.ids_of
            (filter (fun t => TodoItem.id t ∉ Todonna.ids_of todos) existing)).
  apply set_eq. intros id. rewrite elem_of_difference, !elem_of_ids_of.
  split.
  - intros (t & Ht & <-). apply list_elem_of_filter in Ht as [Hgone Ht].
    split; [by exists t|]. by rewrite <- elem_of_ids_of.
  - intros [(t & Ht & <-) Hgone]. exists t. split; [|reflexivity].
    apply list_elem_of_filter. split; [|assumption].
    by rewrite elem_of_ids_of.
Qed.
End Diff.

Section BatchEffects.
Context {A : Type} (op : A → M unit) (id_of : A → string) (total : nat).

Lemma quiet_None : quiet None.
Proof. intros callback [=]. Qed.

(** A batch without failures whose operation writes under the item's id
    adds the ids of its items to the keys of the scope. *)
Lemma loop_inserts items i result w res w' :
  (∀ x w1 w2, op x w1 = (Ok tt, w2) →
              dom (objects w2) = {[id_of x]} ∪ dom (objects w1)) →
  Todonna.loop op id_of None total i items result w = (Ok res, w') →
  failed res = failed result →
  dom (objects w') = list_to_set (id_of <$> items) ∪ dom (objects w).
Proof.
  intros Hop. revert i result w.
  induction items as [|item rest IH]; intros i result w.
  - intros [= <- <-] _. set_solver.
  - simpl. unfold bind, Todonna.attempt.
    destruct (op item w) as [[[]|e] w1] eqn:Hitem; simpl.
    + intros Hrun Hfailed. rewrite (IH _ _ _ Hrun Hfailed), (Hop _ _ _ Hitem).
      set_solver.
    + intros Hrun Hfailed. apply loop_counts in Hrun; [|apply quiet_None].
      simpl in Hrun. lia.
Qed.

(** A batch without failures whose operation deletes the item's id
    removes the ids of its items from the keys of the scope. *)
Lemma loop_deletes items i result w res w' :
  (∀ x w1 w2, op x w1 = (Ok tt, w2) →
              dom (objects w2) = dom (objects w1) ∖ {[id_of x]}) →
  Todonna.loop op id_of None total i items result w = (Ok res, w') →
  failed res = failed result →
  dom (objects w') = dom (objects w) ∖ list_to_set (id_of <$> items).
Proof.
  intros Hop. revert i result w.
  induction items as [|item rest IH]; intros i result w.
  - intros [= <- <-] _. set_solver.
  - simpl. unfold bind, Todonna.attempt.
    destruct (op item w) as [[[]|e] w1] eqn:Hitem; simpl.
    + intros Hrun Hfailed. rewrite (IH _ _ _ Hrun Hfailed), (Hop _ _ _ Hitem).
      set_solver.
    + intros Hrun Hfailed. apply loop_counts in Hrun; [|apply quiet_None].
      simpl in Hrun. lia.
Qed.
End BatchEffects.

Section Reconciliation.
Context `{JsRuntime} (bk : Backend).

Lemma add_ok_dom todo w w' :
  Todonna.add bk todo w = (Ok tt, w') →
  dom (objects w') = {[TodoItem.id todo]} ∪ dom (objects w).
Proof.
  unfold Todonna.add, bind, lift.
  destruct (Todonna.toTodonnaItem todo) as [item|e]; [|discriminate].
  rewrite storeObject_run. cbv zeta.
  destruct (validates item); [|discriminate].
  destruct (store_fault bk (TodoItem.id todo) item); [discriminate|].
  intros [= <-]. simpl. apply dom_insert_L.
Qed.

Lemma update_ok_dom id updates w w' :
  Todonna.update bk id updates w = (Ok tt, w') →
  dom (objects w') = {[id]} ∪ dom (objects w).
Proof.
  intros Hrun. apply update_ok in Hrun as (o & item & _ & _ & _ & _ & _ & -> & _).
  apply dom_insert_L.
Qed.

Lemma remove_ok_dom id w w' :
  Todonna.remove bk id w = (Ok tt, w') →
  dom (objects w') = dom (objects w) ∖ {[id]}.
Proof.
  unfold Todonna.remove. rewrite remove_key_run. cbv zeta.
  destruct (remove_fault bk id); [discriminate|].
  intros [= <-]. simpl. apply dom_delete_L.
Qed.

Lemma iterate_run {A} (op : A → M unit) id_of total item i result w :
  Todonna.iterate op id_of None total item i result w =
    match op item w with
    | (Ok _, w1) =>
        (Ok {| succeeded := S (succeeded result); failed := failed result;
               errors := errors result |}, w1)
    | (Throw e, w1) =>
        (Ok {| succeeded := succeeded result; failed := S (failed result);
               errors := errors result ++ [(id_of item, Todonna.as_Error e)] |},
         w1)
    end.
Proof.
  unfold Todonna.iterate, bind, Todonna.attempt.
  destruct (op item w) as [[[]|e] w1]; reflexivity.
Qed.

(** The three batches of [replaceAll] never throw, in whatever order they
    take their turns, and no failure is ever forgotten. *)
Lemma interleave_returns turns adds updates removes w :
  ∃ a u r w',
    Todonna.interleave bk turns adds updates removes w = (Ok (a, u, r), w') ∧
    (failed (Todonna.so_far adds) ≤ failed a)%nat ∧
    (failed (Todonna.so_far updates) ≤ failed u)%nat ∧
    (failed (Todonna.so_far removes) ≤ failed r)%nat.
Proof.
  revert adds updates removes w.
  induction turns as [|turn turns IH]; intros adds updates removes w.
  - simpl. unfold bind.
    destruct (loop_returns (Todonna.add bk) TodoItem.id None
                (Todonna.total adds) (Todonna.pending adds)
                (Todonna.index adds) (Todonna.so_far adds) w)
      as (a & wa & Ha).
    destruct (loop_returns (fun u => Todonna.update bk u.1 u.2) fst None
                (Todonna.total updates) (Todonna.pending updates)
                (Todonna.index updates) (Todonna.so_far updates) wa)
      as (u & wu & Hu).
    destruct (loop_returns (Todonna.remove bk) (fun id => id) None
                (Todonna.total removes) (Todonna.pending removes)
                (Todonna.index removes) (Todonna.so_far removes) wu)
      as (r & wr & Hr).
    rewrite Ha, Hu, Hr. exists a, u, r, wr. split; [reflexivity|].
    apply loop_counts in Ha as (_ & ? & _); [|apply quiet_None].
    apply loop_counts in Hu as (_ & ? & _); [|apply quiet_None].
    apply loop_counts in Hr as (_ & ? & _); [|apply quiet_None].
    auto.
  - destruct turn; simpl.
    + destruct (Todonna.pending adds) as [|todo rest]; [apply IH|].
      unfold bind. rewrite iterate_run.
      destruct (Todonna.add bk todo w) as [[[]|e] w1];
        match goal with
        | |- context [Todonna.interleave bk turns ?b updates removes w1] =>
            destruct (IH b updates removes w1)
              as (a & u & r & w' & Hrun & Ha & Hu & Hr)
        end;
        exists a, u, r, w'; simpl in Ha; (split; [exact Hrun|]);
        repeat split; try assumption; lia.
    + destruct (Todonna.pending updates) as [|up rest]; [apply IH|].
      unfold bind. rewrite iterate_run.
      destruct (Todonna.update bk up.1 up.2 w) as [[[]|e] w1];
        match goal with
        | |- context [Todonna.interleave bk turns adds ?b removes w1] =>
            destruct (IH adds b removes w1)
              as (a & u & r & w' & Hrun & Ha & Hu & Hr)
        end;
        exists a, u, r, w'; simpl in Hu; (split; [exact Hrun|]);
        repeat split; try assumption; lia.
    + destruct (Todonna.pending removes) as [|id rest]; [apply IH|].
      unfold bind. rewrite iterate_run.
      destruct (Todonna.remove bk id w) as [[[]|e] w1];
        match goal with
        | |- context [Todonna.interleave bk turns adds updates ?b w1] =>
            destruct (IH adds updates b w1)
              as (a & u & r & w' & Hrun & Ha & Hu & Hr)
        end;
        exists a, u, r, w'; simpl in Hr; (split; [exact Hrun|]);
        repeat split; try assumption; lia.
Qed.

(** When none of their items fails, the keys that the batches write are
    added and the keys that they remove are gone, in whatever order the
    batches take their turns: writes and removals never meet on a key. *)
Lemma interleave_dom turns adds updates removes w a u r w' :
  let written : gset string :=
    list_to_set (TodoItem.id <$> Todonna.pending adds)
    ∪ list_to_set (fst <$> Todonna.pending updates) in
  let removed : gset string := list_to_set (Todonna.pending removes) in
  Todonna.interleave bk turns adds updates removes w = (Ok (a, u, r), w') →
  failed a = failed (Todonna.so_far adds) →
  failed u = failed (Todonna.so_far updates) →
  failed r = failed (Todonna.so_far removes) →
  written ## removed →
  dom (objects w') = (dom (objects w) ∪ written) ∖ removed.
Proof.
  revert adds updates removes w.
  induction turns as [|turn turns IH]; intros adds updates removes w;
    cbv zeta.
  - simpl. unfold bind.
    destruct (Todonna.loop (Todonna.add bk) _ _ _ _ _ _ w)
      as [[a0|e] wa] eqn:Ha; [|discriminate].
    destruct (Todonna.loop (fun u => Todonna.update bk u.1 u.2) _ _ _ _ _ _ wa)
      as [[u0|e] wu] eqn:Hu; [|discriminate].
    destruct (Todonna.loop (Todonna.remove bk) _ _ _ _ _ _ wu)
      as [[r0|e] wr] eqn:Hr; [|discriminate].
    intros [= <- <- <- <-] Hfa Hfu Hfr Hdisjoint.
    apply loop_inserts in Ha; [|apply add_ok_dom|exact Hfa].
    apply loop_inserts in Hu;
      [|intros [id up] w1 w2; apply update_ok_dom|exact Hfu].
    apply loop_deletes in Hr; [|apply remove_ok_dom|exact Hfr].
    rewrite Hr, Hu, Ha, list_fmap_id. set_solver.
  - destruct turn; simpl.
    + destruct (Todonna.pending adds) as [|todo rest] eqn:Hpending.
      { intros Hrun ? ? ? ?. eapply IH in Hrun; try eassumption.
        - by rewrite Hrun, Hpending.
        - by rewrite Hpending. }
      unfold bind. rewrite iterate_run.
      destruct (Todonna.add bk todo w) as [[[]|e] w1] eqn:Hadd;
        intros Hrun Hfa Hfu Hfr Hdisjoint.
      * apply add_ok_dom in Hadd.
        eapply IH in Hrun; simpl; try eassumption; [|set_solver].
        simpl in Hrun. rewrite Hrun, Hadd. set_solver.
      * match type of Hrun with
        | Todonna.interleave bk turns ?x ?y ?z w1 = _ =>
            destruct (interleave_returns turns x y z w1)
              as (a' & u' & r' & w'' & Hrun' & Ha & _)
        end.
        rewrite Hrun in Hrun'. injection Hrun' as <- <- <- <-.
        simpl in Ha. lia.
    + destruct (Todonna.pending updates) as [|up rest] eqn:Hpending.
      { intros Hrun ? ? ? ?. eapply IH in Hrun; try eassumption.
        - by rewrite Hrun, Hpending.
        - by rewrite Hpending. }
      unfold bind. rewrite iterate_run.
      destruct (Todonna.update bk up.1 up.2 w) as [[[]|e] w1] eqn:Hupdate;
        intros Hrun Hfa Hfu Hfr Hdisjoint.
      * apply update_ok_dom in Hupdate.
        eapply IH in Hrun; simpl; try eassumption; [|set_solver].
        simpl in Hrun. rewrite Hrun, Hupdate. set_solver.
      * match type of Hrun with
        | Todonna.interleave bk turns ?x ?y ?z w1 = _ =>
            destruct (interleave_returns turns x y z w1)
              as (a' & u' & r' & w'' & Hrun' & _ & Hu & _)
        end.
        rewrite Hrun in Hrun'. injection Hrun' as <- <- <- <-.
        simpl in Hu. lia.
    + destruct (Todonna.pending removes) as [|id rest] eqn:Hpending.
      { intros Hrun ? ? ? ?. eapply IH in Hrun; try eassumption.
        - by rewrite Hrun, Hpending.
        - by rewrite Hpending. }
      unfold bind. rewrite iterate_run.
      destruct (Todonna.remove bk id w) as [[[]|e] w1] eqn:Hremove;
        intros Hrun Hfa Hfu Hfr Hdisjoint.
      * apply remove_ok_dom in Hremove.
        eapply IH in Hrun; simpl; try eassumption; [|set_solver].
        simpl in Hrun. rewrite Hrun, Hremove. set_solver.
      * match type of Hrun with
        | Todonna.interleave bk turns ?x ?y ?z w1 = _ =>
            destruct (interleave_returns turns x y z w1)
              as (a' & u' & r' & w'' & Hrun' & _ & _ & Hr)
        end.
        rewrite Hrun in Hrun'. injection Hrun' as <- <- <- <-.
        simpl in Hr. lia.
Qed.

(** [replaceAll] returns once the snapshot has been read. *)
Lemma replaceAll_run turns todos w existing w0 :
  Todonna.getAll bk (Some {| maxAge := None; includeRemoved := Some true |}) w
    = (Ok existing, w0) →
  let d := Todonna.diff existing todos in
  ∃ a u r w',
    Todonna.interleave bk turns
      (Todonna.started (Todonna.toAdd d))
      (Todonna.started
         ((fun t => (TodoItem.id t, Partial.of_todo t)) <$> Todonna.toUpdate d))
      (Todonna.started (Todonna.toRemove d)) w0 = (Ok (a, u, r), w') ∧
    Todonna.replaceAll bk turns todos w
      = (Ok (Todonna.merge_results a u r), w').
Proof.
  intros Hsnapshot d.
  destruct (interleave_returns turns
              (Todonna.started (Todonna.toAdd d))
              (Todonna.started
                 ((fun t => (TodoItem.id t, Partial.of_todo t))
                    <$> Todonna.toUpdate d))
              (Todonna.started (Todonna.toRemove d)) w0)
    as (a & u & r & w' & Hrun & _).
  exists a, u, r, w'. split; [exact Hrun|].
  unfold Todonna.replaceAll, bind. rewrite Hsnapshot. fold d.
  rewrite Hrun. reflexivity.
Qed.
End Reconciliation.

(** C1, as stated, fails when the snapshot does not cover the scope. A key
    whose fetch fails while [replaceAll] takes its snapshot is not part of
    it, so it is neither updated nor removed, although every item of the
    three batches succeeds. And an entry stored under a key that is not its
    id is removed under its id: the removal succeeds, the entry stays, and
    the next listing still returns it. *)
Lemma replaceAll_keeps_unseen_entries :
  (let w := Sample.scope [("a", Object Sample.milk_wire);
                           ("x", Object Sample.undated_wire)] in
   ∃ res w',
     @Todonna.replaceAll Sample.utc2 Sample.flaky [] [Sample.milk] w
       = (Ok res, w') ∧
     failed res = 0%nat ∧
     dom (objects w') ≠ Todonna.ids_of [Sample.milk] ∧
     objects w' !! "x" = Some (Object Sample.undated_wire)) ∧
  (let w := Sample.scope [("k1", Object Sample.textless_wire);
                           ("k2", Object Sample.milk_wire)] in
   ∃ res w' todos w'',
     @Todonna.replaceAll Sample.utc2 Sample.reliable [] [] w = (Ok res, w') ∧
     res = {| succeeded := 1; failed := 0; errors := [] |} ∧
     @Todonna.getAll Sample.utc2 Sample.reliable None w' = (Ok todos, w'') ∧
     TodoItem.id <$> todos = ["a"]).
Proof.
  split.
  - intros w.
    destruct (@Todonna.replaceAll Sample.utc2 Sample.flaky [] [Sample.milk] w)
      as [[res|e] w'] eqn:Hrun; vm_compute in Hrun; [|discriminate].
    injection Hrun as <- <-.
    exists {| succeeded := 1; failed := 0; errors := [] |}.
    eexists. split; [reflexivity|]. split; [reflexivity|].
    split; [|vm_compute; reflexivity].
    intros Hdom. assert ("x" ∈ Todonna.ids_of [Sample.milk]) as Hx.
    { rewrite <- Hdom. apply elem_of_dom. eexists. vm_compute. reflexivity. }
    apply elem_of_ids_of in Hx as (t & Ht & Hid).
    apply list_elem_of_singleton in Ht as ->. discriminate.
  - intros w.
    destruct (@Todonna.replaceAll Sample.utc2 Sample.reliable [] [] w)
      as [[res|e] w'] eqn:Hrun; vm_compute in Hrun; [|discriminate].
    injection Hrun as <- <-.
    eexists _, _, _, _. split; [reflexivity|]. split; [reflexivity|].
    split; vm_compute; reflexivity.
Qed.

(** C1 (amended). Once the listing is delivered, [replaceAll new] takes a
    snapshot [old] and returns, in whatever order its three batches take
    their turns; its diff satisfies toAdd = ids of new not in old, toUpdate
    = ids of new also in old, toRemove = ids of old not in new; the three
    are pairwise disjoint and together are old ∪ new; and if every item of
    the three batches succeeds, the keys of the scope afterwards are the ids
    of new together with the keys that the snapshot does not cover - so they
    are exactly the ids of new when the snapshot covers the scope (the ids
    of old are the keys of the scope). *)
Theorem replaceAll_reconciles `{JsRuntime} (bk : Backend)
    (turns : list Todonna.Turn) (todos : list TodoItem.t) (w : World) :
  listing_fault bk = None →
  ∃ existing w0 res w',
    Todonna.getAll bk (Some {| maxAge := None; includeRemoved := Some true |}) w
      = (Ok existing, w0) ∧
    Todonna.replaceAll bk turns todos w = (Ok res, w') ∧
    let d := Todonna.diff existing todos in
    let old := Todonna.ids_of existing in
    let new := Todonna.ids_of todos in
    let adds := Todonna.ids_of (Todonna.toAdd d) in
    let updates := Todonna.ids_of (Todonna.toUpdate d) in
    let removes : gset string := list_to_set (Todonna.toRemove d) in
    adds = new ∖ old ∧ updates = new ∩ old ∧ removes = old ∖ new ∧
    adds ## updates ∧ adds ## removes ∧ updates ## removes ∧
    adds ∪ updates ∪ removes = old ∪ new ∧
    (failed res = 0%nat →
     dom (objects w') = new ∪ (dom (objects w) ∖ old) ∧
     (old = dom (objects w) → dom (objects w') = new)).
Proof.
  intros Hlisting.
  destruct (getAll_spec bk
              (Some {| maxAge := None; includeRemoved := Some true |})
              w Hlisting) as (existing & w0 & Hsnapshot & [Hobj0 _] & _).
  destruct (replaceAll_run bk turns todos w existing w0 Hsnapshot)
    as (a & u & r & w' & Hbatches & Hrun).
  exists existing, w0, (Todonna.merge_results a u r), w'.
  split; [exact Hsnapshot|]. split; [exact Hrun|]. cbv zeta.
  rewrite toAdd_ids, toUpdate_ids, toRemove_ids.
  split; [reflexivity|]. split; [reflexivity|]. split; [reflexivity|].
  split; [set_solver|]. split; [set_solver|]. split; [set_solver|].
  split.
  { apply set_eq. intros id.
    destruct (decide (id ∈ Todonna.ids_of existing));
      destruct (decide (id ∈ Todonna.ids_of todos)); set_solver. }
  intros Hfailed. simpl in Hfailed.
  assert (dom (objects w')
          = Todonna.ids_of todos
            ∪ (dom (objects w) ∖ Todonna.ids_of existing)) as Hdom.
  { assert (list_to_set
              ((fun t => (TodoItem.id t, Partial.of_todo t))
                 <$> Todonna.toUpdate (Todonna.diff existing todos)).*1
            = Todonna.ids_of todos ∩ Todonna.ids_of existing) as Hupdates.
    { rewrite <- list_fmap_compose. apply toUpdate_ids. }
    pose proof (toAdd_ids existing todos) as Hadds.
    pose proof (toRemove_ids existing todos) as Hremoves.
    unfold Todonna.ids_of at 1 in Hadds.
    apply interleave_dom in Hbatches;
      cbn [Todonna.pending Todonna.started Todonna.so_far
           Todonna.empty_result failed] in *; try lia.
    - rewrite Hbatches, Hobj0, Hadds, Hupdates, Hremoves.
      apply set_eq. intros id.
      destruct (decide (id ∈ Todonna.ids_of existing));
        destruct (decide (id ∈ Todonna.ids_of todos)); set_solver.
    - rewrite Hadds, Hupdates, Hremoves. set_solver. }
  split; [exact Hdom|].
  intros Hcovers. rewrite Hdom, Hcovers. set_solver.
Qed.

Lemma replaceAll_reconciles_witness :
  ∃ res w',
    @Todonna.replaceAll Sample.utc2 Sample.reliable
      [Todonna.TurnRemove; Todonna.TurnUpdate; Todonna.TurnAdd]
      [Scenario.one_done; Scenario.two_pending] Scenario.before
      = (Ok res, w') ∧
    res = {| succeeded := 2; failed := 0; errors := [] |} ∧
    dom (objects w')
      = Todonna.ids_of [Scenario.one_done; Scenario.two_pending] ∧
    (TodonnaItem.todo_item_status <$>
       (objects w' !! "1" ≫= fun v => match v with
                                      | Object o => Some o
                                      | _ => None
                                      end)) = Some (Some "done").
Proof.
  destruct (@replaceAll_reconciles Sample.utc2 Sample.reliable
              [Todonna.TurnRemove; Todonna.TurnUpdate; Todonna.TurnAdd]
              [Scenario.one_done; Scenario.two_pending] Scenario.before
              eq_refl)
    as (existing & w0 & res & w' & Hsnapshot & Hrun & Hfacts).
  exists res, w'. split; [exact Hrun|].
  vm_compute in Hrun. injection Hrun as <- <-.
  vm_compute in Hsnapshot. injection Hsnapshot as <- <-.
  split; [reflexivity|].
  destruct Hfacts as (_ & _ & _ & _ & _ & _ & _ & Hkeys).
  destruct (Hkeys eq_refl) as [_ Hexact].
  split; [|vm_compute; reflexivity].
  apply Hexact. vm_compute. reflexivity.
Defined.


(** ** The reload *)

(** C8, as stated, fails: when loading the todos fails during the reload
    that follows the connection, the stock and the AI configuration are not
    loaded, although their loaders would succeed. *)
Lemma failed_todos_block_later_scopes :
  let s := UseData.handle (Some Home.todos_down) UseData.ConnectionEvent
             UseData.initial in
  UseData.isConnected s = true ∧
  UseData.stockItems s = UseData.DArray [] ∧
  UseData.aiConfig s = UseData.DNull ∧
  UseData.stockItems
    (UseData.handle (Some Home.healthy) UseData.ConnectionEvent
       UseData.initial) = UseData.DArray ["milk"].
Proof. repeat split; reflexivity. Qed.


Section ReloadFailure.
Import UseData.

Lemma reload_stops_at_first_failure rs s sc e :
  isConnected s = true →
  loader sc rs = Some (Throw e) →
  (∀ sc' e', position sc' < position sc → loader sc' rs ≠ Some (Throw e'))%nat →
  let s' := (loadAllData (Some rs) s).2 in
  (loadAllData (Some rs) s).1 = Ok tt ∧
  isLoading s' = false ∧
  console s' = "Error loading data:" :: console s ∧
  reloads s' = S (reloads s) ∧
  (∀ sc', position sc ≤ position sc' → loaded sc' s' = loaded sc' s)%nat ∧
  (∀ sc' v, position sc' < position sc → loader sc' rs = Some (Ok v) →
            loaded sc' s' = kept sc' v)%nat ∧
  (∀ sc', position sc' < position sc → loader sc' rs = None →
          loaded sc' s' = loaded sc' s)%nat.
Proof.
  intros Hconnected Hfails Hfirst.
  assert (∀ sc', (position sc' < position sc)%nat →
                 loader sc' rs = None ∨ ∃ v, loader sc' rs = Some (Ok v))
    as Hbefore.
  { intros sc' Hlt. destruct (loader sc' rs) as [[v|e']|] eqn:Hl; eauto.
    by destruct (Hfirst sc' e' Hlt). }
  clear Hfirst.
  unfold loadAllData, bind, modify, try_catch, load_scope, lift. simpl.
  rewrite Hconnected. simpl.
  pose proof (Hbefore ItemsList) as H0.
  pose proof (Hbefore Settings) as H1.
  pose proof (Hbefore Todos) as H2.
  pose proof (Hbefore Stock) as H3.
  clear Hbefore.
  destruct sc; simpl in *;
    repeat match goal with
           | H : (?a < ?b)%nat → _ |- _ =>
               first [ specialize (H ltac:(lia)); destruct H as [H|[? H]]
                     | clear H ]
           end;
    repeat match goal with
           | H : _ rs = _ |- _ => rewrite H
           end;
    simpl;
    (split; [reflexivity|]; split; [reflexivity|];
     split; [reflexivity|]; split; [reflexivity|]; split; [|split];
     [ intros sc' Hle; destruct sc'; simpl in *; first [lia|reflexivity]
     | intros sc' v' Hlt Hl; destruct sc'; simpl in *;
         first [lia|by simplify_eq]
     | intros sc' Hlt Hl; destruct sc'; simpl in *;
         first [lia|reflexivity|congruence] ]).
Qed.
End ReloadFailure.

Section ReloadSuccess.
Import UseData.

End ReloadSuccess.

Ltac guard_setter :=
  intros; unfold guard_kept; simpl; repeat split; reflexivity.

Section Guard.
Import UseData.
Context (remoteStorage : option Remote).

Lemma guard_kept_refl s : guard_kept s s.
Proof. repeat split; reflexivity. Qed.

Lemma guard_kept_trans s1 s2 s3 :
  guard_kept s1 s2 → guard_kept s2 s3 → guard_kept s1 s3.
Proof.
  intros (? & ? & ? & ? & ?) (? & ? & ? & ? & ?).
  repeat split; try congruence. set_solver.
Qed.

Lemma keeps_ret {A} (a : A) : keeps_guard (ret a).
Proof. intros s. apply guard_kept_refl. Qed.

Lemma keeps_throw {A} e : keeps_guard (@throw State A e).
Proof. intros s. apply guard_kept_refl. Qed.

Lemma keeps_lift {A} (o : Outcome A) : keeps_guard (lift o).
Proof. intros s. apply guard_kept_refl. Qed.

Lemma keeps_bind {A B} (m : Async State A) (k : A → Async State B) :
  keeps_guard m → (∀ a, keeps_guard (k a)) → keeps_guard (bind m k).
Proof.
  intros Hm Hk s. unfold bind. specialize (Hm s).
  destruct (m s) as [[a|e] s1]; [|exact Hm].
  eapply guard_kept_trans; [exact Hm|apply Hk].
Qed.

Lemma keeps_try_catch {A} (m : Async State A) h :
  keeps_guard m → (∀ e, keeps_guard (h e)) → keeps_guard (try_catch m h).
Proof.
  intros Hm Hh s. unfold try_catch. specialize (Hm s).
  destruct (m s) as [[a|e] s1]; [exact Hm|].
  eapply guard_kept_trans; [exact Hm|apply Hh].
Qed.

Lemma keeps_modify f :
  (∀ s, guard_kept s (f s)) → keeps_guard (modify f).
Proof. intros Hf s. apply Hf. Qed.

Lemma keeps_load_scope method set :
  (∀ v s, guard_kept s (set v s)) →
  keeps_guard (load_scope remoteStorage method set).
Proof.
  intros Hset. unfold load_scope.
  destruct (remoteStorage ≫= method) as [settled|]; [|apply keeps_ret].
  apply keeps_bind; [apply keeps_lift|].
  intros v. apply keeps_modify, Hset.
Qed.

Lemma keeps_loadAllData : keeps_guard (loadAllData remoteStorage).
Proof.
  unfold loadAllData. apply keeps_bind; [apply keeps_modify; guard_setter|].
  intros _ s.
  destruct (bool_decide (remoteStorage = None) || negb (isConnected s)).
  { revert s. apply keeps_modify. guard_setter. }
  revert s. apply keeps_bind; [apply keeps_modify; guard_setter|]. intros _.
  apply keeps_bind; [|intros _; apply keeps_modify; guard_setter].
  apply keeps_try_catch; [|intros e; apply keeps_modify; guard_setter].
  repeat (apply keeps_bind; [|intros _]);
    apply keeps_load_scope; guard_setter.
Qed.
End Guard.

Section GuardRelease.
Import UseData.
Context (remoteStorage : option Remote).

Lemma finish_guard m s :
  guard_kept s (finish remoteStorage m s).2 ∧
  (is_Some remoteStorage →
   (now s + 100)%nat ∈ timers (finish remoteStorage m s).2).
Proof.
  unfold finish. destruct remoteStorage as [rs|] eqn:Hrs.
  2:{ split; [apply guard_kept_refl|]. intros [? [=]]. }
  unfold try_finally.
  match goal with
  | |- context [let (o, s') := ?body s in _] =>
      assert (keeps_guard body) as Hbody
  end.
  { assert (keeps_guard (call_getItemsList rs)) as Hcall.
    { unfold call_getItemsList.
      destruct (mymodule_getItemsList rs);
        [apply keeps_lift|apply keeps_throw]. }
    rewrite <- Hrs.
    destruct m; apply keeps_try_catch;
      repeat first
        [ apply keeps_loadAllData | exact Hcall
        | apply keeps_lift | apply keeps_throw
        | apply keeps_modify; guard_setter
        | apply keeps_bind | intros ? ]. }
  specialize (Hbody s).
  match goal with
  | |- context [let (o, s') := ?body s in _] =>
      destruct (body s) as [o sb]
  end.
  simpl in *. destruct Hbody as (Hsaving & Hnow & Htimers & Hconn & Hlisten).
  split.
  - repeat split; simpl; try assumption. set_solver.
  - intros _. unfold release_guard_later. simpl. rewrite Hnow. by left.
Qed.





Lemma run_cons e es s :
  run remoteStorage (e :: es) s
    = run remoteStorage es (handle remoteStorage e s).
Proof. reflexivity. Qed.

End GuardRelease.

Section Counting.
Import UseData.

Lemma loadAllData_counts remoteStorage s :
  reloads (loadAllData remoteStorage s).2 = S (reloads s).
Proof.
  unfold loadAllData, bind, modify, try_catch, load_scope, lift. simpl.
  destruct remoteStorage as [rs|]; [|reflexivity]. simpl.
  destruct (isConnected s); [|reflexivity]. simpl.
  destruct (mymodule_getItemsList rs) as [[?|?]|]; simpl; try reflexivity;
    (destruct (mymodule_loadSettings rs) as [[?|?]|]; simpl;
     try reflexivity);
    (destruct (todonna_getAll rs) as [[?|?]|]; simpl; try reflexivity);
    (destruct (einkauf_getItemsList rs) as [[?|?]|]; simpl;
     try reflexivity);
    (destruct (ai_wallet_getConfig rs) as [[?|?]|]; reflexivity).
Qed.
End Counting.

Section Steps.
Import UseData.
Context (remoteStorage : option Remote).


End Steps.



(** C8 (amended). During the reload that follows the connection, the
    failure of a loader is caught and logged once, for the reload as a
    whole: the scopes whose loaders come before the failing one are loaded,
    the failing scope and every scope after it keep their previous value,
    and the loading flag is cleared. *)
Theorem reload_stops_at_failing_scope (rs : UseData.Remote)
    (s : UseData.State) (sc : Scope) (e : JsError) :
  UseData.isConnected s = false → UseData.connected rs = true →
  loader sc rs = Some (Throw e) →
  (∀ sc' e', position sc' < position sc →
             loader sc' rs ≠ Some (Throw e'))%nat →
  let s' := UseData.handle (Some rs) UseData.ConnectionEvent s in
  UseData.isConnected s' = true ∧
  UseData.isLoading s' = false ∧
  UseData.console s' = "Error loading data:" :: UseData.console s ∧
  UseData.reloads s' = S (UseData.reloads s) ∧
  (∀ sc', position sc ≤ position sc' → loaded sc' s' = loaded sc' s)%nat ∧
  (∀ sc' v, position sc' < position sc → loader sc' rs = Some (Ok v) →
            loaded sc' s' = kept sc' v)%nat ∧
  (∀ sc', position sc' < position sc → loader sc' rs = None →
          loaded sc' s' = loaded sc' s)%nat.
Proof.
  intros Hdown Hup Hfails Hfirst s'.
  assert (s' = UseData.setListening true
                 (UseData.loadAllData (Some rs)
                    (UseData.setIsConnected true s)).2) as ->.
  { unfold s'. simpl. rewrite Hup, Hdown. reflexivity. }
  destruct (reload_stops_at_first_failure rs (UseData.setIsConnected true s)
              sc e eq_refl Hfails Hfirst)
    as (_ & Hloading & Hconsole & Hcount & Hlater & Hearlier & Hmissing).
  destruct (keeps_loadAllData (Some rs) (UseData.setIsConnected true s))
    as (_ & _ & _ & Hconnected & _).
  split; [exact Hconnected|]. split; [exact Hloading|].
  split; [exact Hconsole|]. split; [exact Hcount|].
  split; [|split].
  - intros sc' Hle. specialize (Hlater sc' Hle).
    destruct sc'; exact Hlater.
  - intros sc' v Hlt Hl. specialize (Hearlier sc' v Hlt Hl).
    destruct sc'; exact Hearlier.
  - intros sc' Hlt Hl. specialize (Hmissing sc' Hlt Hl).
    destruct sc'; exact Hmissing.
Qed.

Lemma reload_stops_at_failing_scope_witness :
  let s' := UseData.handle (Some Home.todos_down) UseData.ConnectionEvent
              UseData.initial in
  UseData.itemsList s' = UseData.DArray ["note"] ∧
  UseData.todos s' = UseData.DArray [] ∧
  UseData.stockItems s' = UseData.DArray [] ∧
  UseData.aiConfig s' = UseData.DNull ∧
  UseData.console s' = ["Error loading data:"] ∧
  UseData.isLoading s' = false.
Proof.
  intros s'.
  destruct (reload_stops_at_failing_scope Home.todos_down UseData.initial
              Todos Sample.server_error eq_refl eq_refl eq_refl)
    as (_ & Hloading & Hconsole & _ & Hlater & Hearlier & _).
  { intros [] e' Hlt; simpl in Hlt; try lia; discriminate. }
  split; [apply (Hearlier ItemsList); [simpl; lia|reflexivity]|].
  split; [apply (Hlater Todos); simpl; lia|].
  split; [apply (Hlater Stock); simpl; lia|].
  split; [apply (Hlater AiConfig); simpl; lia|].
  split; [exact Hconsole|exact Hloading].
Defined.

(** * Further properties *)

(** ** Adding and removing *)

Section AddRemove.
Context `{JsRuntime} (bk : Backend).

Lemma add_run todo w :
  Todonna.add bk todo w =
    match Todonna.toTodonnaItem todo with
    | Ok item => storeObject bk "todonna-item" (TodoItem.id todo) item w
    | Throw e => (Throw e, w)
    end.
Proof.
  unfold Todonna.add, bind, lift.
  destruct (Todonna.toTodonnaItem todo); reflexivity.
Qed.

Lemma add_ok todo w w' :
  Todonna.add bk todo w = (Ok tt, w') →
  ∃ item,
    Todonna.toTodonnaItem todo = Ok item ∧ validates item = true ∧
    objects w' = <[TodoItem.id todo := Object item]> (objects w) ∧
    clock w' = clock w.
Proof.
  rewrite add_run.
  destruct (Todonna.toTodonnaItem todo) as [item|e]; [|discriminate].
  rewrite storeObject_run. cbv zeta.
  destruct (validates item) eqn:Hvalid; [|discriminate].
  destruct (store_fault bk (TodoItem.id todo) item); [discriminate|].
  intros [= <-]. exists item. auto.
Qed.
End AddRemove.

(** X1. After a successful [add(todo)] the document under the todo's id is
    its encoding, whatever was there before, the other documents are as
    they were, and [get] of that id returns a record with the todo's id and
    text. *)
Theorem added_is_found `{JsRuntime} (bk : Backend)
    (todo : TodoItem.t) (max_age : option Z) (w w' : World) :
  Todonna.add bk todo w = (Ok tt, w') →
  get_fault bk (TodoItem.id todo) = None →
  ∃ item r w'',
    Todonna.toTodonnaItem todo = Ok item ∧
    objects w' !! TodoItem.id todo = Some (Object item) ∧
    (∀ key, key ≠ TodoItem.id todo → objects w' !! key = objects w !! key) ∧
    Todonna.get bk (TodoItem.id todo) max_age w' = (Ok (Some r), w'') ∧
    TodoItem.id r = TodoItem.id todo ∧ TodoItem.text r = TodoItem.text todo ∧
    is_Some (TodoItem.text r).
Proof.
  intros Hadd Hfault.
  apply add_ok in Hadd as (item & Hitem & Hvalid & Hobjects & Hclock).
  unfold validates in Hvalid. apply bool_decide_eq_true in Hvalid.
  exists item, (Todonna.fromTodonnaItem (clock w') (TodoItem.id todo) item).
  eexists. split; [exact Hitem|]. rewrite Hobjects.
  split; [apply lookup_insert_eq|].
  split; [intros key Hkey; by apply lookup_insert_ne|].
  split.
  { rewrite get_run, Hfault, Hobjects, lookup_insert_eq. simpl.
    by rewrite bool_decide_eq_true_2. }
  split; [apply fromTodonnaItem_id_own, (toTodonnaItem_id _ _ Hitem)|].
  pose proof (toTodonnaItem_text _ _ Hitem) as Htext.
  split; [exact Htext|]. exact Hvalid.
Qed.

Lemma added_is_found_witness :
  ∃ w' r w'',
    @Todonna.add Sample.utc2 Sample.reliable Sample.milk
      (Sample.scope [("a", Object Sample.undated_wire)]) = (Ok tt, w') ∧
    @Todonna.get Sample.utc2 Sample.reliable "a" None w' = (Ok (Some r), w'') ∧
    TodoItem.text r = Some "Buy milk".
Proof.
  destruct (@Todonna.add Sample.utc2 Sample.reliable Sample.milk
              (Sample.scope [("a", Object Sample.undated_wire)]))
    as [[[]|e] w'] eqn:Hadd; [|vm_compute in Hadd; discriminate].
  destruct (@added_is_found Sample.utc2 Sample.reliable Sample.milk None
              _ w' Hadd eq_refl)
    as (item & r & w'' & _ & _ & _ & Hget & _ & Htext & _).
  exists w', r, w''. split; [reflexivity|]. split; [exact Hget|exact Htext].
Defined.

(** X2. An [add] that fails leaves the documents as they were; and a todo
    whose date is an invalid [Date] is refused with a [RangeError] before
    the store is called at all. *)
Theorem failed_add_writes_nothing `{JsRuntime} (bk : Backend)
    (todo : TodoItem.t) (w : World) :
  (∀ e w', Todonna.add bk todo w = (Throw e, w') → objects w' = objects w) ∧
  (TodoItem.date todo = Some (DateObj None) →
   Todonna.add bk todo w = (Throw RangeError_invalid_time, w)).
Proof.
  split.
  - intros e w'. rewrite add_run.
    destruct (Todonna.toTodonnaItem todo) as [item|e0]; [|by intros [= _ <-]].
    intros Hstore.
    destruct (storeObject_calls bk "todonna-item" (TodoItem.id todo) item w)
      as [_ [[Hok _]|[_ Hsame]]].
    + rewrite Hstore in Hok. discriminate.
    + rewrite Hstore in Hsame. exact Hsame.
  - intros Hdate. rewrite add_run. unfold Todonna.toTodonnaItem.
    rewrite Hdate. reflexivity.
Qed.

Section Removing.
Context `{JsRuntime} (bk : Backend).

Lemma remove_run id w :
  Todonna.remove bk id w =
    let w1 := logged (Remove id) w in
    match remove_fault bk id with
    | Some e => (Throw e, w1)
    | None =>
        (Ok tt, {| objects := delete id (objects w);
                   clock := clock w; calls := calls w1 |})
    end.
Proof. apply remove_key_run. Qed.
End Removing.

(** X3. After a successful [remove(id)], [get(id)] returns null and the
    other documents are as they were; a [remove] that the store refuses
    leaves every document as it was, and one that it accepts succeeds. *)
Theorem removed_is_gone `{JsRuntime} (bk : Backend)
    (id : string) (max_age : option Z) (w : World) :
  get_fault bk id = None →
  (∀ w', Todonna.remove bk id w = (Ok tt, w') →
         (Todonna.get bk id max_age w').1 = Ok None ∧
         objects w' !! id = None ∧
         ∀ key, key ≠ id → objects w' !! key = objects w !! key) ∧
  (∀ e w', Todonna.remove bk id w = (Throw e, w') → objects w' = objects w) ∧
  (remove_fault bk id = None → ∃ w', Todonna.remove bk id w = (Ok tt, w')).
Proof.
  intros Hfault. rewrite remove_run. cbv zeta.
  destruct (remove_fault bk id) as [e0|]; split; [|split| |split].
  - intros w' [=].
  - by intros e w' [= _ <-].
  - intros [=].
  - intros w' [= <-]. rewrite get_run, Hfault. simpl.
    rewrite lookup_delete_eq. split; [reflexivity|]. split; [reflexivity|].
    intros key Hkey. by apply lookup_delete_ne.
  - intros e w' [=].
  - eauto.
Qed.

Lemma removed_is_gone_witness :
  let w := Sample.scope [("a", Object Sample.milk_wire);
                          ("c", Object Sample.undated_wire)] in
  ∃ w',
    @Todonna.remove Sample.reliable "a" w = (Ok tt, w') ∧
    (@Todonna.get Sample.utc2 Sample.reliable "a" None w').1 = Ok None ∧
    objects w' !! "c" = Some (Object Sample.undated_wire).
Proof.
  intros w.
  destruct (@removed_is_gone Sample.utc2 Sample.reliable "a" None w eq_refl)
    as (Hgone & _ & Hdoes).
  destruct (Hdoes eq_refl) as (w' & Hremove).
  destruct (Hgone w' Hremove) as (Hget & _ & Hothers).
  exists w'. split; [exact Hremove|]. split; [exact Hget|].
  rewrite Hothers by discriminate. vm_compute. reflexivity.
Defined.

Section Reads.
Context `{JsRuntime} (bk : Backend).

Lemma only_read_refl w : only_read w w.
Proof.
  split; [reflexivity|]. split; [reflexivity|]. exists []. split; [reflexivity|].
  constructor.
Qed.

Lemma only_read_logged c w w1 :
  is_read c = true → only_read w w1 → only_read w (logged c w1).
Proof.
  intros Hc (Hobj & Hclock & reads & Hcalls & Hreads).
  split; [exact Hobj|]. split; [exact Hclock|].
  exists (c :: reads). simpl. rewrite Hcalls. split; [reflexivity|].
  by constructor.
Qed.

Lemma load_all_reads max_age filenames w w0 :
  only_read w w0 →
  ∃ results w1,
    mapM (fun filename => settle (Todonna.load bk max_age filename))
         filenames w0 = (Ok results, w1) ∧ only_read w w1.
Proof.
  revert w0. induction filenames as [|filename rest IH]; intros w0 Hread.
  - exists [], w0. split; [reflexivity|assumption].
  - simpl. unfold bind at 1.
    rewrite (load_settled bk _ _ w0) by apply same_scope_refl.
    destruct (IH (logged (GetObject filename (Some max_age)) w0))
      as (results & w1 & Hrun & Hread1).
    { by apply only_read_logged. }
    unfold bind at 1. rewrite Hrun. eexists _, w1.
    split; [reflexivity|assumption].
Qed.

Lemma getAll_reads options w : only_read w (Todonna.getAll bk options w).2.
Proof.
  unfold Todonna.getAll, bind at 1, getListing, bind at 1, record_call.
  set (max_age := default 86400000 (options ≫= maxAge)).
  set (w0 := logged (GetListing "" (Some max_age)) w).
  assert (only_read w w0) as Hread0.
  { by apply only_read_logged, only_read_refl. }
  destruct (listing_fault bk) as [[e|]|]; try exact Hread0.
  destruct (load_all_reads max_age (map_to_list (objects w0)).*1 w w0 Hread0)
    as (results & w1 & Hrun & Hread).
  unfold bind. rewrite Hrun. exact Hread.
Qed.

Lemma light_load_all_reads max_age keys w w0 :
  only_read w w0 →
  ∃ results w1,
    mapM (fun key => settle (TodonnaModule.load bk max_age key)) keys w0
      = (Ok results, w1) ∧ only_read w w1.
Proof.
  revert w0. induction keys as [|key rest IH]; intros w0 Hread.
  - exists [], w0. split; [reflexivity|assumption].
  - simpl. unfold bind at 1.
    rewrite (light_load_settled bk _ _ w0) by apply same_scope_refl.
    destruct (IH (logged (GetObject key (Some max_age)) w0))
      as (results & w1 & Hrun & Hread1).
    { by apply only_read_logged. }
    unfold bind at 1. rewrite Hrun. eexists _, w1.
    split; [reflexivity|assumption].
Qed.

Lemma light_getAll_reads options w :
  only_read w (TodonnaModule.getAll bk options w).2.
Proof.
  unfold TodonnaModule.getAll, bind at 1, getListing, bind at 1, record_call.
  set (max_age := default 86400000 (options ≫= maxAge)).
  set (w0 := logged (GetListing "" (Some max_age)) w).
  assert (only_read w w0) as Hread0.
  { by apply only_read_logged, only_read_refl. }
  destruct (listing_fault bk) as [[e|]|]; try exact Hread0.
  destruct (light_load_all_reads max_age (map_to_list (objects w0)).*1 w w0
              Hread0) as (results & w1 & Hrun & Hread).
  unfold bind at 1, Promise_all, bind at 1. rewrite Hrun.
  destruct (first_rejection results); exact Hread.
Qed.
End Reads.

(** X4. Reading never writes: [get], [getAll], [getByDate] and [count] of
    the main module, and [get] and [getAll] of the lightweight module,
    leave every document as it is whether they succeed or fail, and the
    only requests they send to the store are [getListing] and
    [getObject]. *)
Theorem reading_never_writes `{JsRuntime} (bk : Backend) (w : World) :
  (∀ id max_age, only_read w (Todonna.get bk id max_age w).2) ∧
  (∀ options, only_read w (Todonna.getAll bk options w).2) ∧
  (∀ d options, only_read w (Todonna.getByDate bk d options w).2) ∧
  (∀ filter_fn, only_read w (Todonna.count bk filter_fn w).2) ∧
  (∀ id max_age, only_read w (TodonnaModule.get bk id max_age w).2) ∧
  (∀ options, only_read w (TodonnaModule.getAll bk options w).2).
Proof.
  split; [|split; [|split; [|split; [|split]]]].
  - intros id max_age. rewrite get_run. simpl.
    by apply only_read_logged, only_read_refl.
  - intros options. apply getAll_reads.
  - intros d options. rewrite getByDate_run.
    pose proof (getAll_reads bk options w) as Hread.
    destruct (Todonna.getAll bk options w) as [[allTodos|e] w1]; exact Hread.
  - intros filter_fn. unfold Todonna.count, bind.
    pose proof (getAll_reads bk None w) as Hread.
    destruct (Todonna.getAll bk None w) as [[todos|e] w1]; exact Hread.
  - intros id max_age. rewrite light_get_run. simpl.
    by apply only_read_logged, only_read_refl.
  - intros options. apply light_getAll_reads.
Qed.

(** ** Listing by date, counting and clearing *)

(** X5. Once the listing is delivered, [getByDate(d)] returns exactly the
    todos that [getAll] lists whose date prints the same calendar day as
    [d]. So a todo whose stored date cannot be parsed is returned for no
    valid day - and is exactly what [getByDate] of an invalid [Date]
    returns. *)
Theorem getByDate_selects_the_day `{JsRuntime} (bk : Backend)
    (d : option Z) (options : option LoadOptions) (w : World) :
  listing_fault bk = None →
  ∃ allTodos w1 todos w2,
    Todonna.getAll bk options w = (Ok allTodos, w1) ∧
    Todonna.getByDate bk d options w = (Ok todos, w2) ∧
    (∀ r, r ∈ todos ↔
          r ∈ allTodos ∧ dateString (new_Date (TodoItem.date r)) = dateString d) ∧
    (∀ r tv, d = Some tv → r ∈ todos →
             ∃ tv', TodoItem.date r = Some (DateObj (Some tv')) ∧
                    toDateString tv' = toDateString tv) ∧
    (d = None →
     ∀ r, r ∈ todos ↔
          ∃ key o,
            objects w !! key = Some (Object o) ∧ get_fault bk key = None ∧
            is_Some (TodonnaItem.todo_item_text o) ∧
            r = Todonna.fromTodonnaItem (clock w) key o ∧
            truthy (TodonnaItem.date o) = true ∧
            Date_parse (default "" (TodonnaItem.date o)) = None).
Proof.
  intros Hlisting.
  destruct (getAll_spec bk options w Hlisting)
    as (allTodos & w1 & Hrun & _ & Hall).
  exists allTodos, w1. rewrite getByDate_run, Hrun. eexists _, w1.
  split; [reflexivity|]. split; [reflexivity|].
  split; [|split].
  - intros r. rewrite list_elem_of_filter. tauto.
  - intros r tv -> Hr. apply list_elem_of_filter in Hr as [Hday Hr].
    apply Hall in Hr as (key & o & _ & _ & _ & ->). simpl in *.
    destruct (if truthy (TodonnaItem.date o) then _ else _) as [tv'|];
      [|discriminate].
    exists tv'. split; [reflexivity|]. by injection Hday.
  - intros -> r. rewrite list_elem_of_filter, Hall. split.
    + intros [Hday (key & o & Hobj & Hfault & Htext & ->)].
      exists key, o. repeat (split; [assumption || reflexivity|]).
      simpl in Hday.
      destruct (truthy (TodonnaItem.date o)); [|discriminate].
      split; [reflexivity|].
      by destruct (Date_parse (default "" (TodonnaItem.date o))).
    + intros (key & o & Hobj & Hfault & Htext & -> & Htruthy & Hparse).
      split; [|by exists key, o]. simpl. by rewrite Htruthy, Hparse.
Qed.

Lemma getByDate_selects_the_day_witness :
  let garbled :=
    {| TodonnaItem.todo_item_id := Some "g";
       TodonnaItem.todo_item_text := Some "Garbled";
       TodonnaItem.todo_item_status := Some "pending";
       TodonnaItem.emoji := None; TodonnaItem.date := Some "tomorrow";
       TodonnaItem.time := None; TodonnaItem.completed := None;
       TodonnaItem.removed := None |} in
  let w := Sample.scope [("a", Object Sample.milk_wire);
                          ("g", Object garbled)] in
  ∃ todos w2,
    @Todonna.getByDate Sample.utc2 Sample.reliable None None w
      = (Ok todos, w2) ∧
    TodoItem.id <$> todos = ["g"].
Proof.
  intros garbled w.
  destruct (@getByDate_selects_the_day Sample.utc2 Sample.reliable None None
              w eq_refl) as (allTodos & w1 & todos & w2 & _ & Hrun & _).
  exists todos, w2. split; [exact Hrun|].
  vm_compute in Hrun. injection Hrun as <- _. reflexivity.
Defined.

Section CountingTodos.
Context `{JsRuntime} (bk : Backend).

Lemma collect_length include_removed
    (results : list (Settled (option TodoItem.t))) :
  (length (Todonna.collect include_removed results) ≤ length results)%nat.
Proof.
  induction results as [|[[value|]|e] rest IH]; simpl; try lia.
  destruct (include_removed || negb (or_false (TodoItem.removed value)));
    simpl; lia.
Qed.

Lemma filter_split_length {A} (f : A → bool) (l : list A) :
  (length (List.filter f l) + length (List.filter (fun x => negb (f x)) l)
   = length l)%nat.
Proof.
  induction l as [|x l IH]; simpl; [reflexivity|].
  destruct (f x); simpl; lia.
Qed.

Lemma count_run filter_fn w :
  Todonna.count bk filter_fn w =
    match Todonna.getAll bk None w with
    | (Ok todos, w1) =>
        (Ok match filter_fn with
            | Some f => length (List.filter f todos)
            | None => length todos
            end, w1)
    | (Throw e, w1) => (Throw e, w1)
    end.
Proof.
  unfold Todonna.count, bind.
  destruct (Todonna.getAll bk None w) as [[todos|e] w1]; reflexivity.
Qed.
End CountingTodos.

(** X6. Once the listing is delivered, [count()] is the number of todos
    that [getAll()] lists, which is at most the number of documents of the
    scope; and for every filter, the todos that it counts and the todos
    that its negation counts add up to [count()]. When the listing is
    rejected [count] fails with the same error, and when the listing is not
    an object it is 0. *)
Theorem count_is_bounded `{JsRuntime} (bk : Backend) (w : World) :
  (listing_fault bk = None →
   ∃ todos w1,
     Todonna.getAll bk None w = (Ok todos, w1) ∧
     (Todonna.count bk None w).1 = Ok (length todos) ∧
     (length todos ≤ size (objects w))%nat ∧
     ∀ f, ∃ m m',
       (Todonna.count bk (Some f) w).1 = Ok m ∧
       (Todonna.count bk (Some (fun t => negb (f t))) w).1 = Ok m' ∧
       (m + m' = length todos)%nat) ∧
  (∀ e, listing_fault bk = Some (ListingRejects e) →
        ∀ filter_fn, (Todonna.count bk filter_fn w).1 = Throw e) ∧
  (listing_fault bk = Some ListingNotAnObject →
   ∀ filter_fn, (Todonna.count bk filter_fn w).1 = Ok 0%nat).
Proof.
  split; [|split].
  - intros Hlisting.
    destruct (getAll_run bk None w Hlisting) as (w1 & Hrun & _).
    eexists _, w1. split; [exact Hrun|].
    rewrite !count_run, Hrun. split; [reflexivity|]. split.
    + etransitivity; [apply collect_length|].
      by rewrite !length_fmap, length_map_to_list.
    + intros f. rewrite !count_run, Hrun. eexists _, _.
      split; [reflexivity|]. split; [reflexivity|]. apply filter_split_length.
  - intros e Hlisting filter_fn.
    by rewrite count_run, (getAll_rejected bk None w e Hlisting).
  - intros Hlisting filter_fn.
    rewrite count_run, (getAll_no_listing bk None w Hlisting).
    by destruct filter_fn.
Qed.

Lemma count_is_bounded_witness :
  let w := Sample.scope [("a", Object Sample.milk_wire);
                          ("x", Object Sample.textless_wire)] in
  (@Todonna.count Sample.utc2 Sample.reliable None w).1 = Ok 1%nat ∧
  size (objects w) = 2%nat.
Proof.
  intros w.
  destruct (@count_is_bounded Sample.utc2 Sample.reliable w) as [Hcount _].
  destruct (Hcount eq_refl) as (todos & w1 & Hrun & Hn & _).
  rewrite Hn. vm_compute in Hrun. injection Hrun as <- _.
  split; vm_compute; reflexivity.
Defined.

Section Clearing.
Context `{JsRuntime} (bk : Backend).

(** What is left of the documents when the keys [ids] are removed. *)
Lemma batchRemove_all ids i result w :
  (∀ id, id ∈ ids → remove_fault bk id = None) →
  ∃ w',
    Todonna.loop (Todonna.remove bk) (fun id => id) None (length ids) i ids
      result w
    = (Ok {| succeeded := (succeeded result + length ids)%nat;
             failed := failed result; errors := errors result |}, w') ∧
    clock w' = clock w ∧
    ∀ key, objects w' !! key
           = if bool_decide (key ∈ ids) then None else objects w !! key.
Proof.
  generalize (length ids) at 1 as total. intros total.
  revert i result w. induction ids as [|id rest IH]; intros i result w Hfaults.
  - exists w. split; [|split; [reflexivity|]].
    + simpl. unfold ret. destruct result. simpl. repeat f_equal. lia.
    + intros key. case_bool_decide as Hin; [|done]. by apply elem_of_nil in Hin.
  - simpl. unfold bind, Todonna.attempt.
    rewrite remove_run. cbv zeta. rewrite (Hfaults id) by by left.
    simpl.
    destruct (IH (S i)
                {| succeeded := S (succeeded result); failed := failed result;
                   errors := errors result |}
                {| objects := delete id (objects w); clock := clock w;
                   calls := Remove id :: calls w |})
      as (w' & Hrun & Hclock & Hobjects).
    { intros id' Hin. apply Hfaults. by right. }
    exists w'. split.
    + rewrite Hrun. simpl. repeat f_equal. lia.
    + split; [exact Hclock|]. intros key. rewrite Hobjects.
      cbn [objects].
      destruct (decide (key = id)) as [->|Hne].
      * rewrite lookup_delete_eq.
        rewrite (bool_decide_eq_true_2 (id ∈ id :: rest)) by by left.
        by case_bool_decide.
      * rewrite lookup_delete_ne by done.
        repeat case_bool_decide; try done.
        -- exfalso. by apply H1; right.
        -- by apply elem_of_cons in H1 as [?|?].
Qed.

(** The three [clear...ByDate] functions: remove the ids of a selection of
    the day's todos. *)
Lemma clear_run (select : TodoItem.t → Prop) `{!∀ t, Decision (select t)}
    (clear : M nat) d w :
  (∀ w0, clear w0 =
         (await todos := Todonna.getByDate bk d None in
          await result :=
            Todonna.batchRemove bk (TodoItem.id <$> filter select todos) None in
          ret (succeeded result)) w0) →
  listing_fault bk = None →
  (∀ id, remove_fault bk id = None) →
  ∃ todos w1 w',
    Todonna.getByDate bk d None w = (Ok todos, w1) ∧
    clear w = (Ok (length (filter select todos)), w') ∧
    ∀ key, objects w' !! key
           = if bool_decide (key ∈ TodoItem.id <$> filter select todos)
             then None else objects w !! key.
Proof.
  intros Hclear Hlisting Hfaults.
  destruct (getAll_run bk None w Hlisting) as (w1 & Hall & Hobj1 & _).
  pose proof (getByDate_run bk d None w) as Hday. rewrite Hall in Hday.
  eexists _, w1. rewrite Hclear. unfold bind at 1. rewrite Hday.
  set (todos := filter _ _).
  destruct (batchRemove_all (TodoItem.id <$> filter select todos) 0
              Todonna.empty_result w1) as (w' & Hrun & _ & Hobjects).
  { intros id _. apply Hfaults. }
  exists w'. split; [reflexivity|].
  unfold bind, Todonna.batchRemove. rewrite Hrun. simpl.
  rewrite length_fmap. split; [reflexivity|].
  intros key. rewrite Hobjects, Hobj1. reflexivity.
Qed.
End Clearing.

(** X7. On a store that delivers the listing and refuses no removal,
    [clearByDate(d)] returns the number of todos that [getByDate(d)] lists,
    [clearCompletedByDate(d)] the number of those that are done and
    [clearIncompleteByDate(d)] the number of those that are pending: from
    the same scope the last two add up to the first. *)
Theorem clearing_counts_the_day `{JsRuntime} (bk : Backend)
    (d : option Z) (w : World) :
  listing_fault bk = None →
  (∀ id, remove_fault bk id = None) →
  ∃ todos w1 n_done n_pending,
    Todonna.getByDate bk d None w = (Ok todos, w1) ∧
    (Todonna.clearByDate bk d w).1 = Ok (length todos) ∧
    (Todonna.clearCompletedByDate bk d w).1 = Ok n_done ∧
    (Todonna.clearIncompleteByDate bk d w).1 = Ok n_pending ∧
    n_done
      = length (filter (fun t => TodoItem.todo_item_status t = Some "done")
                       todos) ∧
    (n_done + n_pending = length todos)%nat.
Proof.
  intros Hlisting Hfaults.
  assert (∀ ts : list TodoItem.t, filter (fun _ => True) ts = ts) as Hid.
  { induction ts as [|t ts IH]; [reflexivity|].
    rewrite filter_cons_True by done. by rewrite IH. }
  destruct (clear_run bk (fun _ => True) (Todonna.clearByDate bk d) d w)
    as (todos & w1 & wa & Hday & Hall & _); [|done|done|].
  { intros w0. unfold Todonna.clearByDate, bind.
    destruct (Todonna.getByDate bk d None w0) as [[ts|e] w2]; [|reflexivity].
    by rewrite Hid. }
  destruct (clear_run bk (fun t => TodoItem.todo_item_status t = Some "done")
              (Todonna.clearCompletedByDate bk d) d w)
    as (todos' & w1' & wb & Hday' & Hdone & _); [done|done|done|].
  destruct (clear_run bk
              (fun t => TodoItem.todo_item_status t = Some "pending")
              (Todonna.clearIncompleteByDate bk d) d w)
    as (todos'' & w1'' & wc & Hday'' & Hpending & _); [done|done|done|].
  rewrite Hday in Hday', Hday''.
  injection Hday' as <- <-. injection Hday'' as <- _.
  exists todos, w1. eexists _, _.
  split; [exact Hday|].
  rewrite Hall, Hdone, Hpending. simpl.
  rewrite Hid. split; [reflexivity|]. split; [reflexivity|].
  split; [reflexivity|]. split; [reflexivity|].
  assert (∀ r, r ∈ todos →
               TodoItem.todo_item_status r = Some "done" ∨
               TodoItem.todo_item_status r = Some "pending") as Hstatus.
  { intros r Hr. rewrite getByDate_run in Hday.
    destruct (Todonna.getAll bk None w) as [[allTodos|e] w2] eqn:Hrun;
      [|discriminate].
    injection Hday as <- <-. apply list_elem_of_filter in Hr as [_ Hr].
    destruct (getAll_decoded bk None w allTodos w2 r Hrun Hr) as (key & o & ->).
    apply fromTodonnaItem_status. }
  clear - Hstatus. induction todos as [|t ts IH]; [reflexivity|].
  assert (∀ r, r ∈ ts →
               TodoItem.todo_item_status r = Some "done" ∨
               TodoItem.todo_item_status r = Some "pending") as Hrest.
  { intros r Hr. apply Hstatus. by right. }
  specialize (IH Hrest).
  destruct (Hstatus t) as [Ht|Ht]; [by left| |].
  - rewrite filter_cons_True by done.
    rewrite (filter_cons_False (fun t => TodoItem.todo_item_status t = Some "pending"))
      by (rewrite Ht; discriminate).
    simpl. lia.
  - rewrite (filter_cons_False (fun t => TodoItem.todo_item_status t = Some "done"))
      by (rewrite Ht; discriminate).
    rewrite filter_cons_True by done. simpl. lia.
Qed.

Lemma clearing_counts_the_day_witness :
  let done_wire :=
    {| TodonnaItem.todo_item_id := Some "b";
       TodonnaItem.todo_item_text := Some "Call mum";
       TodonnaItem.todo_item_status := Some "done";
       TodonnaItem.emoji := None;
       TodonnaItem.date := Some "2024-05-01T23:00:00.000Z";
       TodonnaItem.time := None; TodonnaItem.completed := None;
       TodonnaItem.removed := None |} in
  let w := Sample.scope [("a", Object Sample.milk_wire);
                          ("b", Object done_wire)] in
  let d := Some Sample.may_first in
  (@Todonna.clearByDate Sample.utc2 Sample.reliable d w).1 = Ok 2%nat ∧
  (@Todonna.clearCompletedByDate Sample.utc2 Sample.reliable d w).1
    = Ok 1%nat ∧
  (@Todonna.clearIncompleteByDate Sample.utc2 Sample.reliable d w).1
    = Ok 1%nat.
Proof.
  intros done_wire w d.
  destruct (@clearing_counts_the_day Sample.utc2 Sample.reliable d w
              eq_refl (fun _ => eq_refl))
    as (todos & w1 & n_done & n_pending & Hday & Hall & Hdone & Hpending
        & Hn & Hsum).
  rewrite Hall, Hdone, Hpending.
  vm_compute in Hday. injection Hday as <- _.
  vm_compute in Hn. subst n_done. simpl in Hsum.
  assert (n_pending = 1%nat) as -> by lia.
  repeat split; reflexivity.
Defined.

(** X8. On a store that delivers the listing and refuses no removal, the
    three [clear...ByDate] functions remove exactly the documents stored
    under the ids of the todos they select (all of the day, the done ones,
    the pending ones) and leave every other document as it was. Removal
    goes by the decoded id, not by the key the todo was read from. *)
Theorem clearing_removes_by_id `{JsRuntime} (bk : Backend)
    (d : option Z) (w : World) :
  listing_fault bk = None →
  (∀ id, remove_fault bk id = None) →
  ∃ todos w1,
    Todonna.getByDate bk d None w = (Ok todos, w1) ∧
    (∀ key,
       objects (Todonna.clearByDate bk d w).2 !! key
       = if bool_decide (key ∈ TodoItem.id <$> todos)
         then None else objects w !! key) ∧
    (∀ key,
       objects (Todonna.clearCompletedByDate bk d w).2 !! key
       = if bool_decide
              (key ∈ TodoItem.id <$>
                 filter (fun t => TodoItem.todo_item_status t = Some "done")
                        todos)
         then None else objects w !! key) ∧
    (∀ key,
       objects (Todonna.clearIncompleteByDate bk d w).2 !! key
       = if bool_decide
              (key ∈ TodoItem.id <$>
                 filter (fun t => TodoItem.todo_item_status t = Some "pending")
                        todos)
         then None else objects w !! key).
Proof.
  intros Hlisting Hfaults.
  assert (∀ ts : list TodoItem.t, filter (fun _ => True) ts = ts) as Hid.
  { induction ts as [|t ts IH]; [reflexivity|].
    rewrite filter_cons_True by done. by rewrite IH. }
  destruct (clear_run bk (fun _ => True) (Todonna.clearByDate bk d) d w)
    as (todos & w1 & wa & Hday & Hall & Hobja); [|done|done|].
  { intros w0. unfold Todonna.clearByDate, bind.
    destruct (Todonna.getByDate bk d None w0) as [[ts|e] w2]; [|reflexivity].
    by rewrite Hid. }
  destruct (clear_run bk (fun t => TodoItem.todo_item_status t = Some "done")
              (Todonna.clearCompletedByDate bk d) d w)
    as (todos' & w1' & wb & Hday' & Hdone & Hobjb); [done|done|done|].
  destruct (clear_run bk
              (fun t => TodoItem.todo_item_status t = Some "pending")
              (Todonna.clearIncompleteByDate bk d) d w)
    as (todos'' & w1'' & wc & Hday'' & Hpending & Hobjc); [done|done|done|].
  rewrite Hday in Hday', Hday''.
  injection Hday' as <- <-. injection Hday'' as <- _.
  exists todos, w1. split; [exact Hday|].
  rewrite Hall, Hdone, Hpending. simpl. rewrite Hid in Hobja. auto.
Qed.

Lemma clearing_removes_by_id_witness :
  let w := Sample.scope [("k", Object Sample.milk_wire);
                          ("a", Object Sample.undated_wire)] in
  let w' := (@Todonna.clearByDate Sample.utc2 Sample.reliable
               (Some Sample.may_first) w).2 in
  objects w' !! "k" = Some (Object Sample.milk_wire) ∧
  objects w' !! "a" = None.
Proof.
  intros w w'.
  destruct (@clearing_removes_by_id Sample.utc2 Sample.reliable
              (Some Sample.may_first) w eq_refl (fun _ => eq_refl))
    as (todos & w1 & Hday & Hall & _).
  vm_compute in Hday. injection Hday as <- _.
  split; unfold w'; rewrite Hall; vm_compute; reflexivity.
Defined.

(** ** More on the batches *)

Section BatchInvariants.
Context {A : Type} (op : A → M unit) (id_of : A → string)
        (options : option BatchOperationOptions) (total : nat).

Lemma as_Error_is_Error e : is_Error (Todonna.as_Error e) = true.
Proof. unfold Todonna.as_Error. by destruct (is_Error e) eqn:He. Qed.

(** Whatever the callback does, an item is counted at most once as a
    success and at most once as a failure, and every failure leaves one
    error, an [Error] carrying the id of its item. *)
Lemma loop_errors items i result w res w' :
  Todonna.loop op id_of options total i items result w = (Ok res, w') →
  ∃ new,
    errors res = (errors result ++ new)%list ∧
    (failed res = failed result + length new)%nat ∧
    (length new ≤ length items)%nat ∧
    (succeeded result ≤ succeeded res ≤ succeeded result + length items)%nat ∧
    Forall (fun p => p.1 ∈ id_of <$> items ∧ is_Error p.2 = true) new.
Proof.
  revert i result w. induction items as [|item rest IH]; intros i result w.
  - intros [= <- <-]. exists []. rewrite app_nil_r. simpl.
    repeat split; try lia. constructor.
  - simpl. unfold bind, Todonna.attempt.
    assert (∀ result1 error w1,
      (succeeded result ≤ succeeded result1 ≤ S (succeeded result))%nat →
      errors result1 = errors result → failed result1 = failed result →
      (if default false (options ≫= stopOnError)
       then ret {| succeeded := succeeded result1;
                   failed := S (failed result1);
                   errors := errors result1
                             ++ [(id_of item, Todonna.as_Error error)] |}
       else Todonna.loop op id_of options total (S i) rest
              {| succeeded := succeeded result1;
                 failed := S (failed result1);
                 errors := errors result1
                           ++ [(id_of item, Todonna.as_Error error)] |}) w1
      = (Ok res, w') →
      ∃ new,
        errors res = (errors result ++ new)%list ∧
        (failed res = failed result + length new)%nat ∧
        (length new ≤ S (length rest))%nat ∧
        (succeeded result ≤ succeeded res
         ≤ succeeded result + S (length rest))%nat ∧
        Forall (fun p => p.1 ∈ id_of item :: (id_of <$> rest)
                         ∧ is_Error p.2 = true) new) as Hfail.
    { intros result1 error w1 Hs1 He1 Hf1.
      destruct (default false (options ≫= stopOnError)).
      - intros [= <- <-]. simpl. exists [(id_of item, Todonna.as_Error error)].
        rewrite He1, Hf1. simpl. repeat split; try lia.
        constructor; [|constructor]. split; [by left|apply as_Error_is_Error].
      - intros Hrun.
        apply IH in Hrun as (new & Herrors & Hfailed & Hlen & Hs & Hall).
        simpl in *. exists ((id_of item, Todonna.as_Error error) :: new).
        rewrite Herrors, He1, <- app_assoc. simpl.
        repeat split; try lia.
        constructor; [split; [by left|apply as_Error_is_Error]|].
        eapply Forall_impl; [exact Hall|].
        intros p [? ?]. split; [by right|done]. }
    destruct (op item w) as [[[]|e] w1].
    + destruct (Todonna.report options (i + 1) total w1) as [[[]|e] w2].
      * intros Hrun.
        apply IH in Hrun as (new & Herrors & Hfailed & Hlen & Hs & Hall).
        simpl in *. exists new. repeat split; try assumption; try lia.
        eapply Forall_impl; [exact Hall|].
        intros p [? ?]. split; [by right|done].
      * apply (Hfail {| succeeded := S (succeeded result);
                        failed := failed result; errors := errors result |});
          simpl; try reflexivity; lia.
    + apply (Hfail result); try reflexivity; lia.
Qed.

(** With a callback that returns normally, a batch that does not stop
    counts every item exactly once. *)
Lemma loop_counts_all items i result w res w' :
  quiet options →
  (default false (options ≫= stopOnError) = false ∨ failed res = failed result) →
  Todonna.loop op id_of options total i items result w = (Ok res, w') →
  (succeeded res + failed res
   = succeeded result + failed result + length items)%nat.
Proof.
  intros Hquiet. revert i result w.
  induction items as [|item rest IH]; intros i result w Hgoes.
  - intros [= <- <-]. simpl. lia.
  - simpl. unfold bind, Todonna.attempt.
    destruct (op item w) as [[[]|e] w1].
    + destruct (report_quiet options total (i + 1) w1 Hquiet) as (w2 & -> & _).
      intros Hrun. apply IH in Hrun; [simpl in Hrun; lia|].
      destruct Hgoes; auto.
    + destruct (default false (options ≫= stopOnError)) eqn:Hstop.
      * intros [= <- <-]. simpl in *. destruct Hgoes; [discriminate|lia].
      * intros Hrun. pose proof Hrun as Hrun'.
        apply IH in Hrun; [simpl in Hrun; lia|]. by left.
Qed.
End BatchInvariants.

(** X9. In the result of every batch - whatever the options, also with a
    progress callback that throws - [errors] holds exactly [failed]
    entries, each of them an [Error] under the id of one of the items, and
    neither [succeeded] nor [failed] exceeds the number of items. *)
Theorem batch_errors_match_failures `{JsRuntime} (bk : Backend)
    (options : option BatchOperationOptions) (w : World) :
  (∀ todos res w',
     Todonna.batchAdd bk todos options w = (Ok res, w') →
     length (errors res) = failed res ∧
     (succeeded res ≤ length todos)%nat ∧ (failed res ≤ length todos)%nat ∧
     Forall (fun p => p.1 ∈ TodoItem.id <$> todos ∧ is_Error p.2 = true)
            (errors res)) ∧
  (∀ updates res w',
     Todonna.batchUpdate bk updates options w = (Ok res, w') →
     length (errors res) = failed res ∧
     (succeeded res ≤ length updates)%nat ∧
     (failed res ≤ length updates)%nat ∧
     Forall (fun p => p.1 ∈ updates.*1 ∧ is_Error p.2 = true) (errors res)) ∧
  (∀ ids res w',
     Todonna.batchRemove bk ids options w = (Ok res, w') →
     length (errors res) = failed res ∧
     (succeeded res ≤ length ids)%nat ∧ (failed res ≤ length ids)%nat ∧
     Forall (fun p => p.1 ∈ ids ∧ is_Error p.2 = true) (errors res)).
Proof.
  split; [|split].
  - intros todos res w' Hrun.
    apply loop_errors in Hrun as (new & Herrors & Hfailed & Hlen & Hs & Hall).
    simpl in *. subst new. repeat split; try lia; assumption.
  - intros updates res w' Hrun.
    apply loop_errors in Hrun as (new & Herrors & Hfailed & Hlen & Hs & Hall).
    simpl in *. subst new. repeat split; try lia; assumption.
  - intros ids res w' Hrun.
    apply loop_errors in Hrun as (new & Herrors & Hfailed & Hlen & Hs & Hall).
    simpl in *. subst new. rewrite list_fmap_id in Hall.
    repeat split; try lia; assumption.
Qed.



Lemma batch_errors_match_failures_witness :
  let options :=
    Some {| stopOnError := None;
            onProgress := Some (fun _ _ => Some Sample.server_error) |} in
  ∃ res w',
    Todonna.batchRemove Sample.stubborn ["a"; "x"] options
      (Sample.scope [("a", Object Sample.milk_wire)]) = (Ok res, w') ∧
    succeeded res = 1%nat ∧ failed res = 2%nat ∧ length (errors res) = 2%nat.
Proof.
  intros options.
  destruct (Todonna.batchRemove Sample.stubborn ["a"; "x"] options
              (Sample.scope [("a", Object Sample.milk_wire)]))
    as [[res|e] w'] eqn:Hrun; [|vm_compute in Hrun; discriminate].
  destruct (@batch_errors_match_failures Sample.utc2 Sample.stubborn options
              (Sample.scope [("a", Object Sample.milk_wire)]))
    as (_ & _ & Hremove).
  destruct (Hremove _ _ _ Hrun) as (Hlen & _).
  exists res, w'. split; [reflexivity|]. rewrite Hlen.
  vm_compute in Hrun. injection Hrun as <- _. repeat split; reflexivity.
Defined.

(** ** Dates that cannot be read *)

(** X11. A stored todo whose date is a non-empty string that the runtime
    cannot parse cannot be updated, in neither module, unless the update
    brings a date of its own: re-encoding the record calls [toISOString] on
    an invalid [Date], so [update] fails with a [RangeError] right after
    its read, and nothing is written. *)
Theorem unreadable_date_blocks_update `{JsRuntime} (bk : Backend)
    (id : string) (updates : Partial.t) (w : World) (o : TodonnaItem.t) :
  get_fault bk id = None →
  objects w !! id = Some (Object o) →
  truthy (TodonnaItem.date o) = true →
  Date_parse (default "" (TodonnaItem.date o)) = None →
  Partial.date updates = None →
  Todonna.update bk id updates w
    = (Throw RangeError_invalid_time, logged (GetObject id (Some 0)) w) ∧
  TodonnaModule.update bk id updates w
    = (Throw RangeError_invalid_time, logged (GetObject id None) w).
Proof.
  intros Hfault Hobj Htruthy Hparse Hdate. split.
  - rewrite update_run, Hfault, Hobj. simpl.
    unfold Todonna.toTodonnaItem. simpl. rewrite Hdate. simpl.
    rewrite Htruthy, Hparse. reflexivity.
  - rewrite light_update_run, Hfault, Hobj. simpl.
    unfold TodonnaModule.toStorage. simpl. rewrite Hdate. simpl.
    destruct (TodonnaItem.date o) as [s|]; [|discriminate]. simpl in *.
    rewrite Htruthy, Hparse. reflexivity.
Qed.

Lemma unreadable_date_blocks_update_witness :
  let garbled :=
    {| TodonnaItem.todo_item_id := Some "g";
       TodonnaItem.todo_item_text := Some "Garbled";
       TodonnaItem.todo_item_status := Some "pending";
       TodonnaItem.emoji := None; TodonnaItem.date := Some "tomorrow";
       TodonnaItem.time := None; TodonnaItem.completed := None;
       TodonnaItem.removed := None |} in
  let finish :=
    {| Partial.id := None; Partial.text := None;
       Partial.completed := Some (Some true);
       Partial.todo_item_status := None; Partial.emoji := None;
       Partial.date := None; Partial.time := None; Partial.removed := None |} in
  let w := Sample.scope [("g", Object garbled)] in
  (@Todonna.update Sample.utc2 Sample.reliable "g" finish w).1
    = Throw RangeError_invalid_time ∧
  (@TodonnaModule.update Sample.utc2 Sample.reliable "g" finish w).1
    = Throw RangeError_invalid_time.
Proof.
  intros garbled finish w.
  destruct (@unreadable_date_blocks_update Sample.utc2 Sample.reliable "g"
              finish w garbled) as [-> ->];
    try reflexivity.
  split; reflexivity.
Defined.

(** ** The lightweight module: codec and soft deletion *)

Section LightCodec.
Context `{JsRuntime}.

Lemma toStorage_fields r item :
  TodonnaModule.toStorage r = Ok item →
  TodonnaItem.todo_item_id item = Some (TodoItem.id r) ∧
  TodonnaItem.todo_item_text item = TodoItem.text r ∧
  TodonnaItem.todo_item_status item
    = (if truthy (TodoItem.todo_item_status r) then TodoItem.todo_item_status r
       else Some (if or_false (TodoItem.completed r)
                  then "done" else "pending")) ∧
  TodonnaItem.emoji item = TodoItem.emoji r ∧
  TodonnaItem.time item = TodoItem.time r ∧
  TodonnaItem.removed item = Some (or_false (TodoItem.removed r)) ∧
  TodonnaItem.date item
    = (if TodonnaModule.date_truthy (TodoItem.date r)
       then toISOString <$> new_Date (TodoItem.date r) else None).
Proof.
  unfold TodonnaModule.toStorage.
  destruct (TodonnaModule.date_truthy (TodoItem.date r));
    [destruct (new_Date (TodoItem.date r)); [|discriminate]|];
    intros [= <-]; simpl; auto 10.
Qed.

Lemma toStorage_status_truthy r item :
  TodonnaModule.toStorage r = Ok item →
  truthy (TodonnaItem.todo_item_status item) = true.
Proof.
  intros Hitem. apply toStorage_fields in Hitem as (_ & _ & -> & _).
  destruct (truthy (TodoItem.todo_item_status r)) eqn:Hs; [exact Hs|].
  by destruct (or_false (TodoItem.completed r)).
Qed.

Lemma fromStorage_id_own id item :
  TodonnaItem.todo_item_id item = Some id →
  TodoItem.id (TodonnaModule.fromStorage id item) = id.
Proof.
  intros Hid. simpl. rewrite Hid. by destruct (truthy (Some id)).
Qed.
End LightCodec.

(** X12. The codec of the lightweight module: [toStorage] fails exactly
    when the todo has a truthy date that is not a valid date; otherwise
    decoding its result under the todo's id gives back the id, the text,
    the emoji and the time as they are, the [removed] flag (false when
    absent), the status when it is a non-empty string (also archived) and
    else done or pending after the [completed] flag, and as date the ISO
    string of the instant, or nothing when the todo had no truthy date. *)
Theorem light_codec_round_trip `{JsRuntime} (r : TodoItem.t) :
  ((∃ e, TodonnaModule.toStorage r = Throw e) ↔
   TodonnaModule.date_truthy (TodoItem.date r) = true ∧
   new_Date (TodoItem.date r) = None) ∧
  ∀ item,
    TodonnaModule.toStorage r = Ok item →
    let r' := TodonnaModule.fromStorage (TodoItem.id r) item in
    TodoItem.id r' = TodoItem.id r ∧
    TodoItem.text r' = TodoItem.text r ∧
    TodoItem.emoji r' = TodoItem.emoji r ∧
    TodoItem.time r' = TodoItem.time r ∧
    TodoItem.removed r' = Some (or_false (TodoItem.removed r)) ∧
    TodoItem.todo_item_status r'
      = (if truthy (TodoItem.todo_item_status r)
         then TodoItem.todo_item_status r
         else Some (if or_false (TodoItem.completed r)
                    then "done" else "pending")) ∧
    TodoItem.date r'
      = (if TodonnaModule.date_truthy (TodoItem.date r)
         then DateStr <$> (toISOString <$> new_Date (TodoItem.date r))
         else None).
Proof.
  split.
  - unfold TodonnaModule.toStorage.
    destruct (TodonnaModule.date_truthy (TodoItem.date r));
      [destruct (new_Date (TodoItem.date r))|].
    + split; [intros [e [=]]|intros [_ [=]]].
    + split; [auto|eauto].
    + split; [intros [e [=]]|intros [[=] _]].
  - intros item Hitem r'.
    pose proof (toStorage_status_truthy _ _ Hitem) as Htruthy.
    pose proof (fromStorage_id_own (TodoItem.id r) item) as Hid.
    apply toStorage_fields in Hitem
      as (Hid' & Htext & Hstatus & Hemoji & Htime & Hremoved & Hdate).
    split; [by apply Hid|]. unfold r'. simpl.
    rewrite Htruthy, Htext, Hemoji, Htime, Hremoved, Hstatus, Hdate.
    repeat split; try reflexivity.
    by destruct (TodonnaModule.date_truthy (TodoItem.date r)).
Qed.

Lemma light_codec_round_trip_witness :
  ∃ item,
    @TodonnaModule.toStorage Sample.utc2 Sample.archived = Ok item ∧
    TodonnaModule.fromStorage "b" item =
      {| TodoItem.id := "b"; TodoItem.text := Some "Old";
         TodoItem.completed := None;
         TodoItem.todo_item_status := Some "archived";
         TodoItem.emoji := None;
         TodoItem.date := Some (DateStr "2024-05-01T23:00:00.000Z");
         TodoItem.time := None; TodoItem.removed := Some false |}.
Proof.
  destruct (@TodonnaModule.toStorage Sample.utc2 Sample.archived)
    as [item|e] eqn:Hitem; [|vm_compute in Hitem; discriminate].
  destruct (@light_codec_round_trip Sample.utc2 Sample.archived) as [_ Hback].
  destruct (Hback item Hitem) as (_ & _ & _ & _ & _ & Hstatus & _).
  exists item. split; [reflexivity|].
  vm_compute in Hitem. injection Hitem as <-. vm_compute. reflexivity.
Defined.

Section LightListing.
Context `{JsRuntime} (bk : Backend).

Lemma elem_of_values {A} (rs : list (Settled A)) a :
  a ∈ values rs ↔ fulfilled a ∈ rs.
Proof.
  induction rs as [|[b|e] rs IH]; simpl.
  - split; intros Hin; inversion Hin.
  - rewrite !elem_of_cons, IH. split; intros [?|?]; auto; left; congruence.
  - rewrite elem_of_cons, IH. split; [auto|]. by intros [[=]|?].
Qed.

(** What the lightweight [getAll] lists when no fetch fails with more than
    a not-found error. *)
Lemma light_getAll_spec options w :
  listing_fault bk = None →
  (∀ key e, get_fault bk key = Some e → TodonnaModule.isNotFoundError e = true) →
  ∃ todos w1,
    TodonnaModule.getAll bk options w = (Ok todos, w1) ∧
    ∀ r, r ∈ todos ↔
         (∃ key o, objects w !! key = Some (Object o) ∧
                   get_fault bk key = None ∧
                   r = TodonnaModule.fromStorage key o) ∧
         (default false (options ≫= includeRemoved) = true ∨
          or_false (TodoItem.removed r) = false).
Proof.
  intros Hlisting Hfaults.
  destruct (light_getAll_run bk options w Hlisting) as (w1 & Hrun & _).
  rewrite first_rejection_None in Hrun; cycle 1.
  { intros e Hin. apply list_elem_of_fmap in Hin as (key & Hentry & _).
    unfold light_entry in Hentry.
    destruct (get_fault bk key) as [e0|] eqn:Hfault; [|discriminate].
    rewrite (Hfaults key e0 Hfault) in Hentry. discriminate. }
  eexists _, w1. split; [exact Hrun|]. intros r.
  rewrite list_elem_of_In, filter_In, <- list_elem_of_In.
  rewrite list_elem_of_omap.
  assert ((∃ x : option TodoItem.t,
             x ∈ values (light_entry bk w <$> (map_to_list (objects w)).*1)
             ∧ x = Some r)
          ↔ ∃ key o, objects w !! key = Some (Object o) ∧
                     get_fault bk key = None ∧
                     r = TodonnaModule.fromStorage key o) as ->.
  { split.
    - intros (x & Hx & ->). apply elem_of_values in Hx.
      apply list_elem_of_fmap in Hx as (key & Hentry & Hkey).
      apply list_elem_of_fmap in Hkey as ([key' v] & -> & Hkv).
      apply elem_of_map_to_list in Hkv. simpl in *.
      unfold light_entry in Hentry. rewrite Hkv in Hentry. simpl in Hentry.
      destruct (get_fault bk key') as [e|] eqn:Hfault.
      + destruct (TodonnaModule.isNotFoundError e); discriminate.
      + destruct v as [|b|o]; try discriminate.
        injection Hentry as ->. eauto.
    - intros (key & o & Hobj & Hfault & ->). eexists. split; [|reflexivity].
      apply elem_of_values, list_elem_of_fmap. exists key. split.
      + unfold light_entry. by rewrite Hfault, Hobj.
      + apply list_elem_of_fmap. exists (key, Object o).
        split; [reflexivity|]. by apply elem_of_map_to_list. }
  rewrite orb_true_iff, negb_true_iff. tauto.
Qed.
End LightListing.

(** X13. In the lightweight module soft deletion works: after a successful
    [update(id, {removed: true})] the document under [id] carries
    [removed: true]; on a store whose only fetch failures are not-found
    errors, the default [getAll()] then lists no removed todo - not this
    one either - while [getAll({includeRemoved: true})] lists it. *)
Theorem light_soft_delete_hides `{JsRuntime} (bk : Backend)
    (id : string) (updates : Partial.t) (w w' : World) :
  Partial.removed updates = Some (Some true) →
  TodonnaModule.update bk id updates w = (Ok tt, w') →
  listing_fault bk = None →
  (∀ key e, get_fault bk key = Some e → TodonnaModule.isNotFoundError e = true) →
  ∃ payload listed w1 all w2,
    objects w' !! id = Some (Object payload) ∧
    TodonnaItem.removed payload = Some true ∧
    TodoItem.id (TodonnaModule.fromStorage id payload) = id ∧
    TodonnaModule.getAll bk None w' = (Ok listed, w1) ∧
    TodonnaModule.getAll bk
      (Some {| maxAge := None; includeRemoved := Some true |}) w'
      = (Ok all, w2) ∧
    TodonnaModule.fromStorage id payload ∈ all ∧
    (TodonnaModule.fromStorage id payload ∉ listed) ∧
    ∀ t, t ∈ listed → TodoItem.removed t = Some false.
Proof.
  intros Hremoved Hupdate Hlisting Hfaults.
  assert (get_fault bk id = None) as Hfault.
  { rewrite light_update_run in Hupdate. cbv zeta in Hupdate.
    destruct (get_fault bk id) as [e|]; [|reflexivity].
    destruct (TodonnaModule.isNotFoundError e); discriminate. }
  apply light_update_ok in Hupdate as (v & payload & Hv & Hpayload & Hid & Hobjects).
  pose proof (toStorage_fields _ _ Hpayload) as (_ & _ & _ & _ & _ & Hflag & _).
  simpl in Hflag. rewrite Hremoved in Hflag. simpl in Hflag.
  destruct (light_getAll_spec bk None w' Hlisting Hfaults)
    as (listed & w1 & Hrun & Hlisted).
  destruct (light_getAll_spec bk
              (Some {| maxAge := None; includeRemoved := Some true |})
              w' Hlisting Hfaults) as (all & w2 & Hrun' & Hall).
  exists payload, listed, w1, all, w2.
  split; [by rewrite Hobjects, lookup_insert_eq|].
  split; [exact Hflag|].
  split; [by apply fromStorage_id_own|].
  split; [exact Hrun|]. split; [exact Hrun'|].
  split; [|split].
  - apply Hall. split; [|by left]. exists id, payload.
    by rewrite Hobjects, lookup_insert_eq.
  - intros Hin. apply Hlisted in Hin as [_ [[=]|Hkept]].
    simpl in Hkept. rewrite Hflag in Hkept. discriminate.
  - intros t Ht. apply Hlisted in Ht as [(key & o & _ & _ & ->) [[=]|Hkept]].
    simpl in *. by rewrite Hkept.
Qed.

Lemma light_soft_delete_hides_witness :
  let w := Sample.scope [("a", Object Sample.milk_wire);
                          ("c", Object Sample.undated_wire)] in
  let soft_delete :=
    {| Partial.id := None; Partial.text := None; Partial.completed := None;
       Partial.todo_item_status := None; Partial.emoji := None;
       Partial.date := None; Partial.time := None;
       Partial.removed := Some (Some true) |} in
  ∃ w' listed w1,
    @TodonnaModule.update Sample.utc2 Sample.reliable "a" soft_delete w
      = (Ok tt, w') ∧
    TodonnaModule.getAll Sample.reliable None w' = (Ok listed, w1) ∧
    TodoItem.id <$> listed = ["c"].
Proof.
  intros w soft_delete.
  destruct (@TodonnaModule.update Sample.utc2 Sample.reliable "a" soft_delete w)
    as [[[]|e] w'] eqn:Hupdate; [|vm_compute in Hupdate; discriminate].
  destruct (@light_soft_delete_hides Sample.utc2 Sample.reliable "a"
              soft_delete w w' eq_refl Hupdate eq_refl)
    as (payload & listed & w1 & all & w2 & _ & _ & _ & Hrun & _).
  { intros key e [=]. }
  exists w', listed, w1. split; [reflexivity|]. split; [exact Hrun|].
  vm_compute in Hupdate. injection Hupdate as <-.
  vm_compute in Hrun. injection Hrun as <- _. reflexivity.
Defined.

(** X14. After a successful [add(todo)] of the lightweight module, its
    [get(todo.id)] returns the decoding of what was stored: a record with
    the todo's id, text, emoji, time and [removed] flag (false when
    absent). *)
Theorem light_added_is_found `{JsRuntime} (bk : Backend)
    (todo : TodoItem.t) (max_age : option Z) (w w' : World) :
  TodonnaModule.add bk todo w = (Ok tt, w') →
  get_fault bk (TodoItem.id todo) = None →
  ∃ payload r w'',
    TodonnaModule.toStorage todo = Ok payload ∧
    objects w' = <[TodoItem.id todo := Object payload]> (objects w) ∧
    TodonnaModule.get bk (TodoItem.id todo) max_age w' = (Ok (Some r), w'') ∧
    r = TodonnaModule.fromStorage (TodoItem.id todo) payload ∧
    TodoItem.id r = TodoItem.id todo ∧ TodoItem.text r = TodoItem.text todo ∧
    TodoItem.emoji r = TodoItem.emoji todo ∧
    TodoItem.time r = TodoItem.time todo ∧
    TodoItem.removed r = Some (or_false (TodoItem.removed todo)).
Proof.
  intros Hadd Hfault. unfold TodonnaModule.add, bind, lift in Hadd.
  destruct (TodonnaModule.toStorage todo) as [payload|e] eqn:Hpayload;
    [|discriminate].
  rewrite storeObject_run in Hadd. cbv zeta in Hadd.
  destruct (validates payload); [|discriminate].
  destruct (store_fault bk (TodoItem.id todo) payload); [discriminate|].
  injection Hadd as <-.
  exists payload, (TodonnaModule.fromStorage (TodoItem.id todo) payload).
  eexists. split; [reflexivity|]. split; [reflexivity|].
  split.
  { rewrite light_get_run, Hfault. simpl. rewrite lookup_insert_eq.
    reflexivity. }
  split; [reflexivity|].
  pose proof (fromStorage_id_own (TodoItem.id todo) payload) as Hid.
  apply toStorage_fields in Hpayload
    as (Hid' & Htext & _ & Hemoji & Htime & Hremoved & _).
  split; [by apply Hid|]. simpl.
  by rewrite Htext, Hemoji, Htime, Hremoved.
Qed.

Lemma light_added_is_found_witness :
  ∃ w' r w'',
    @TodonnaModule.add Sample.utc2 Sample.reliable Sample.milk
      (Sample.scope []) = (Ok tt, w') ∧
    TodonnaModule.get Sample.reliable "a" None w' = (Ok (Some r), w'') ∧
    TodoItem.text r = Some "Buy milk" ∧ TodoItem.removed r = Some false.
Proof.
  destruct (@TodonnaModule.add Sample.utc2 Sample.reliable Sample.milk
              (Sample.scope []))
    as [[[]|e] w'] eqn:Hadd; [|vm_compute in Hadd; discriminate].
  destruct (@light_added_is_found Sample.utc2 Sample.reliable Sample.milk None
              _ w' Hadd eq_refl)
    as (payload & r & w'' & _ & _ & Hget & _ & _ & Htext & _ & _ & Hremoved).
  exists w', r, w''. split; [reflexivity|]. split; [exact Hget|].
  split; [exact Htext|exact Hremoved].
Defined.

(** ** Errors that count as not found *)

Lemma prefix_spec (needle haystack : string) :
  String.prefix needle haystack = true ↔ ∃ post, haystack = needle +:+ post.
Proof.
  revert haystack. induction needle as [|c needle IH]; intros haystack.
  - split; [by exists haystack|by destruct haystack].
  - destruct haystack as [|c' haystack]; simpl.
    + split; [discriminate|intros [post [=]]].
    + destruct (Ascii.ascii_dec c c') as [->|Hne].
      * rewrite IH. split.
        -- intros [post ->]. by exists post.
        -- intros [post Hpost]. exists post.
           change (String c' haystack = String c' (needle +:+ post)) in Hpost.
           congruence.
      * split; [discriminate|]. intros [post Hpost].
        change (String c' haystack = String c (needle +:+ post)) in Hpost.
        congruence.
Qed.

Lemma includes_spec (needle haystack : string) :
  includes needle haystack = true ↔
  ∃ pre post, haystack = pre +:+ needle +:+ post.
Proof.
  induction haystack as [|c haystack IH].
  - cbn [includes]. rewrite orb_false_r, prefix_spec. split.
    + intros [post Hpost]. by exists "", post.
    + intros ([|c pre] & post & Hpost); [by exists post|discriminate].
  - cbn [includes]. rewrite orb_true_iff, prefix_spec, IH. split.
    + intros [[post Hpost]|(pre & post & ->)].
      * by exists "", post.
      * by exists (String c pre), post.
    + intros ([|c' pre] & post & Hpost).
      * left. by exists post.
      * right.
        change (String c haystack = String c' (pre +:+ needle +:+ post))
          in Hpost.
        injection Hpost as -> ->. by exists pre, post.
Qed.

(** X15. The lightweight [get] turns a failed fetch into null exactly when
    the error has status 404 or code 404, is named NotFoundError, or has a
    message that contains "Not Found" somewhere; every other error is
    rethrown as it is. *)
Theorem light_get_swallows_not_found `{JsRuntime} (bk : Backend)
    (id : string) (max_age : option Z) (w : World) (e : JsError) :
  get_fault bk id = Some e →
  let not_found :=
    e_status e = Some 404 ∨ e_code e = Some 404 ∨
    e_name e = Some "NotFoundError" ∨
    ∃ pre post, e_message e = Some (pre +:+ "Not Found" +:+ post) in
  (not_found → (TodonnaModule.get bk id max_age w).1 = Ok None) ∧
  (¬ not_found → (TodonnaModule.get bk id max_age w).1 = Throw e).
Proof.
  intros Hfault not_found. rewrite light_get_run, Hfault.
  assert (TodonnaModule.isNotFoundError e = true ↔ not_found) as Hiff.
  { unfold TodonnaModule.isNotFoundError, not_found.
    rewrite !orb_true_iff, !bool_decide_eq_true.
    destruct (e_message e) as [message|].
    - rewrite includes_spec. split.
      + intros [[[?|?]|?]|(pre & post & ->)]; eauto 10.
      + intros [?|[?|[?|(pre & post & [= ->])]]]; eauto 10.
    - split.
      + intros [[[?|?]|?]|[=]]; auto.
      + intros [?|[?|[?|(pre & post & [=])]]]; auto. }
  destruct (TodonnaModule.isNotFoundError e); simpl.
  - split; [reflexivity|]. intros Hnot. destruct Hnot. by apply Hiff.
  - split; [|reflexivity]. intros Hnf. apply Hiff in Hnf. discriminate.
Qed.

Lemma light_get_swallows_not_found_witness :
  let gone :=
    {| is_Error := true; e_name := Some "Error";
       e_message := Some "404 Not Found (cached)"; e_status := None;
       e_code := None; e_string := "Error: 404 Not Found (cached)" |} in
  let bk :=
    {| get_fault := fun _ => Some gone; listing_fault := None;
       store_fault := fun _ _ => None; remove_fault := fun _ => None |} in
  (TodonnaModule.get bk "a" None (Sample.scope [])).1 = Ok None.
Proof.
  intros gone bk.
  destruct (@light_get_swallows_not_found Sample.utc2 bk "a" None
              (Sample.scope []) gone eq_refl) as [Hnull _].
  apply Hnull. right. right. right. by exists "404 ", " (cached)".
Defined.

(** ** The hook: more on loading and saving *)

Section LoadAll.
Import UseData.

(** [loadAllData] never rejects, and leaves [isLoading] false. *)
Lemma loadAllData_settles remoteStorage s :
  (loadAllData remoteStorage s).1 = Ok tt ∧
  isLoading (loadAllData remoteStorage s).2 = false.
Proof.
  unfold loadAllData, bind, modify, try_catch, load_scope, lift. simpl.
  destruct remoteStorage as [rs|]; [|split; reflexivity]. simpl.
  destruct (isConnected s); [|split; reflexivity]. simpl.
  destruct (mymodule_getItemsList rs) as [[?|?]|]; simpl;
    try (split; reflexivity);
    (destruct (mymodule_loadSettings rs) as [[?|?]|]; simpl;
     try (split; reflexivity));
    (destruct (todonna_getAll rs) as [[?|?]|]; simpl;
     try (split; reflexivity));
    (destruct (einkauf_getItemsList rs) as [[?|?]|]; simpl;
     try (split; reflexivity));
    (destruct (ai_wallet_getConfig rs) as [[?|?]|]; split; reflexivity).
Qed.

Lemma loadAllData_offline remoteStorage s :
  remoteStorage = None ∨ isConnected s = false →
  (loadAllData remoteStorage s).2 = setIsLoading false (count_reload s).
Proof.
  unfold loadAllData, bind, modify. simpl.
  intros [-> | Hdown]; [reflexivity|].
  rewrite Hdown, orb_true_r. reflexivity.
Qed.
End LoadAll.

(** X16. [loadAllData] (also exported as [reload]) never rejects and
    always leaves [isLoading] false, whatever the loaders do. Called while
    the hook is not connected, or without a RemoteStorage instance, it
    consults no loader: every piece of data stays as it was and the console
    gets no message. *)
Theorem reload_always_settles (remoteStorage : option UseData.Remote)
    (s : UseData.State) :
  let s' := (UseData.loadAllData remoteStorage s).2 in
  (UseData.loadAllData remoteStorage s).1 = Ok tt ∧
  UseData.isLoading s' = false ∧
  UseData.reloads s' = S (UseData.reloads s) ∧
  (remoteStorage = None ∨ UseData.isConnected s = false →
   (∀ sc, loaded sc s' = loaded sc s) ∧
   UseData.console s' = UseData.console s).
Proof.
  intros s'. destruct (loadAllData_settles remoteStorage s) as [Hok Hloading].
  split; [exact Hok|]. split; [exact Hloading|].
  split; [apply loadAllData_counts|].
  intros Hoffline. unfold s'. rewrite loadAllData_offline by exact Hoffline.
  split; [intros []; reflexivity|reflexivity].
Qed.

Lemma reload_always_settles_witness :
  let s := UseData.handle (Some Home.healthy) UseData.ConnectionEvent
             UseData.initial in
  let off := UseData.setIsConnected false s in
  let s' := (UseData.loadAllData (Some Home.healthy) off).2 in
  UseData.todos s' = UseData.DArray ["Buy milk"] ∧
  UseData.isLoading s' = false.
Proof.
  intros s off s'.
  destruct (reload_always_settles (Some Home.healthy) off)
    as (_ & Hloading & _ & Hkept).
  destruct (Hkept (or_intror eq_refl)) as [Hdata _].
  split; [exact (Hdata Todos)|exact Hloading].
Defined.

Section Arrays.
Import UseData.
Context (remoteStorage : option Remote).

Lemma preserves_ret P {A} (a : A) : preserves P (ret a).
Proof. intros s Hs. exact Hs. Qed.

Lemma preserves_throw P {A} e : preserves P (@throw State A e).
Proof. intros s Hs. exact Hs. Qed.

Lemma preserves_lift P {A} (o : Outcome A) : preserves P (lift o).
Proof. intros s Hs. exact Hs. Qed.

Lemma preserves_bind P {A B} (m : Async State A) (k : A → Async State B) :
  preserves P m → (∀ a, preserves P (k a)) → preserves P (bind m k).
Proof.
  intros Hm Hk s Hs. unfold bind. specialize (Hm s Hs).
  destruct (m s) as [[a|e] s1]; [|exact Hm]. by apply Hk.
Qed.

Lemma preserves_try_catch P {A} (m : Async State A) h :
  preserves P m → (∀ e, preserves P (h e)) → preserves P (try_catch m h).
Proof.
  intros Hm Hh s Hs. unfold try_catch. specialize (Hm s Hs).
  destruct (m s) as [[a|e] s1]; [exact Hm|]. by apply Hh.
Qed.

Lemma preserves_modify P f : (∀ s, P s → P (f s)) → preserves P (modify f).
Proof. intros Hf s Hs. by apply Hf. Qed.

Lemma preserves_load_scope P method set :
  (∀ v s, P s → P (set v s)) →
  preserves P (load_scope remoteStorage method set).
Proof.
  intros Hset. unfold load_scope.
  destruct (remoteStorage ≫= method) as [settled|]; [|apply preserves_ret].
  apply preserves_bind; [apply preserves_lift|].
  intros v. apply preserves_modify, Hset.
Qed.

Lemma arrays_loadAllData : preserves arrays (loadAllData remoteStorage).
Proof.
  unfold loadAllData.
  apply preserves_bind; [apply preserves_modify; by intros s []|].
  intros _ s.
  destruct (bool_decide (remoteStorage = None) || negb (isConnected s)).
  { revert s. apply preserves_modify. by intros s []. }
  revert s. apply preserves_bind; [apply preserves_modify; by intros s []|].
  intros _.
  apply preserves_bind; [|intros _; apply preserves_modify; by intros s []].
  apply preserves_try_catch;
    [|intros e; apply preserves_modify; by intros s []].
  repeat (apply preserves_bind; [|intros _]);
    apply preserves_load_scope; intros v s [Ht Hs]; split; simpl;
    try assumption; by destruct (isArray v) eqn:Hv.
Qed.

Lemma arrays_finish m : preserves arrays (finish remoteStorage m).
Proof.
  unfold finish. destruct remoteStorage as [rs|] eqn:Hrs;
    [|apply preserves_ret].
  intros s Hs. unfold try_finally.
  match goal with
  | |- context [let (o, s') := ?body s in _] =>
      assert (preserves arrays body) as Hbody
  end.
  { assert (preserves arrays (call_getItemsList rs)) as Hcall.
    { unfold call_getItemsList.
      destruct (mymodule_getItemsList rs);
        [apply preserves_lift|apply preserves_throw]. }
    rewrite <- Hrs.
    destruct m; apply preserves_try_catch;
      repeat first
        [ apply arrays_loadAllData | exact Hcall
        | apply preserves_lift | apply preserves_throw
        | apply preserves_modify; by intros ? []
        | apply preserves_bind | intros ? ]. }
  specialize (Hbody s Hs).
  match goal with
  | |- context [let (o, s') := ?body s in _] =>
      destruct (body s) as [o sb]
  end.
  exact Hbody.
Qed.

Lemma arrays_handle e s : arrays s → arrays (handle remoteStorage e s).
Proof.
  intros Hs. destruct e; simpl.
  - unfold connection_effects.
    destruct (bool_decide (remoteStorage = None) || negb _); [exact Hs|].
    by apply (arrays_loadAllData (setIsConnected _ s)).
  - destruct (bool_decide _); [exact Hs|]. unfold connection_effects.
    destruct (bool_decide (remoteStorage = None) || negb _); [exact Hs|].
    by apply (arrays_loadAllData (setIsConnected _ s)).
  - destruct (listening s); [|exact Hs]. unfold changeHandler.
    destruct (isSaving s); [exact Hs|]. by apply arrays_loadAllData.
  - unfold begin.
    destruct (negb (module_present remoteStorage m) || negb (isConnected s));
      [exact Hs|].
    destruct m; exact Hs.
  - by apply arrays_finish.
  - unfold fire_timers. destruct (filter _ _); exact Hs.
Qed.
End Arrays.

(** X17. Whatever happens to the hook - connections, change
    notifications, mutations that succeed or fail, loaders that resolve to
    anything or reject - [todos] and [stockItems] are arrays at every
    moment: they are at the first render, and every turn of the event loop
    keeps them so, whatever the RemoteStorage instance does in that turn. *)
Theorem todos_and_stock_stay_arrays :
  arrays UseData.initial ∧
  (∀ remoteStorage e s,
     arrays s → arrays (UseData.handle remoteStorage e s)) ∧
  (∀ remoteStorage es,
     arrays (UseData.run remoteStorage es UseData.initial)).
Proof.
  assert (arrays UseData.initial) as Hinitial by (split; reflexivity).
  split; [exact Hinitial|]. split; [intros rs e s; apply arrays_handle|].
  intros remoteStorage es.
  assert (∀ s, arrays s → arrays (UseData.run remoteStorage es s)) as Hrun.
  { induction es as [|e es IH]; intros s Hs; [exact Hs|].
    rewrite run_cons. by apply IH, arrays_handle. }
  by apply Hrun.
Qed.

Lemma todos_and_stock_stay_arrays_witness :
  let odd :=
    {| UseData.connected := true; UseData.has_mymodule := true;
       UseData.has_ai_wallet := true;
       UseData.mymodule_getItemsList := Some (Ok UseData.DNull);
       UseData.mymodule_loadSettings := None;
       UseData.todonna_getAll := Some (Ok (UseData.DObject "{}"));
       UseData.einkauf_getItemsList := Some (Ok UseData.DUndefined);
       UseData.ai_wallet_getConfig := None;
       UseData.mymodule_saveItem := Throw Sample.server_error;
       UseData.mymodule_deleteItem := Ok tt;
       UseData.mymodule_saveSettings := Ok tt;
       UseData.ai_wallet_setConfig := Ok tt |} in
  let s := UseData.run (Some odd)
             [UseData.Mount; UseData.Begin UseData.SaveItem;
              UseData.Settle UseData.SaveItem] UseData.initial in
  UseData.todos s = UseData.DArray [] ∧
  UseData.stockItems s = UseData.DArray [] ∧
  UseData.itemsList s = UseData.DNull.
Proof.
  intros odd s.
  destruct todos_and_stock_stay_arrays as (_ & _ & Hrun).
  destruct (Hrun (Some odd)
              [UseData.Mount; UseData.Begin UseData.SaveItem;
               UseData.Settle UseData.SaveItem]) as [Htodos Hstock].
  repeat split; reflexivity.
Defined.

Section Mutations.
Import UseData.
Context (rs : Remote).

Lemma reload_console s :
  console (loadAllData (Some rs) s).2 = console s ∨
  console (loadAllData (Some rs) s).2 = "Error loading data:" :: console s.
Proof.
  unfold loadAllData, bind, modify, try_catch, load_scope, lift. simpl.
  destruct (isConnected s); [|by left]. simpl.
  destruct (mymodule_getItemsList rs) as [[?|?]|]; simpl; auto;
    (destruct (mymodule_loadSettings rs) as [[?|?]|]; simpl; auto);
    (destruct (todonna_getAll rs) as [[?|?]|]; simpl; auto);
    (destruct (einkauf_getItemsList rs) as [[?|?]|]; simpl; auto);
    (destruct (ai_wallet_getConfig rs) as [[?|?]|]; auto).
Qed.

Lemma failure_handler m e s :
  let handler := on_failure rs m e in
  (handler s).1 = Throw e ∧
  message_of m ∈ console (handler s).2 ∧
  reloads (handler s).2
    = (reloads s + (if reloads_on_failure m then 1 else 0))%nat ∧
  guard_kept s (handler s).2 ∧
  (reloads_on_failure m = false → ∀ sc, loaded sc (handler s).2 = loaded sc s).
Proof.
  intros handler. unfold handler, on_failure, bind, modify, throw.
  destruct (reloads_on_failure m).
  - pose proof (loadAllData_settles (Some rs)
                  (console_error (message_of m) s)) as [Hok _].
    pose proof (loadAllData_counts (Some rs)
                  (console_error (message_of m) s)) as Hcount.
    pose proof (keeps_loadAllData (Some rs)
                  (console_error (message_of m) s)) as Hkept.
    pose proof (reload_console (console_error (message_of m) s)) as Hconsole.
    destruct (loadAllData (Some rs) (console_error (message_of m) s))
      as [[[]|e'] s1]; [|discriminate]. simpl in *.
    split; [reflexivity|]. split; [|split; [lia|split; [exact Hkept|done]]].
    destruct Hconsole as [-> | ->]; [by left|right; by left].
  - simpl. split; [reflexivity|]. split; [by left|].
    split; [lia|]. split; [repeat split; reflexivity|].
    intros _ []; reflexivity.
Qed.

Lemma finish_failed m e s sb :
  (∃ s0, guard_kept s s0 ∧ reloads s0 = reloads s ∧ console s0 = console s ∧
         (∀ sc, loaded sc s0 = loaded sc s) ∧
         sb = on_failure rs m e s0) →
  let s' := release_guard_later sb.2 in
  sb.1 = Throw e ∧
  message_of m ∈ console s' ∧
  reloads s' = (reloads s + (if reloads_on_failure m then 1 else 0))%nat ∧
  (now s + 100)%nat ∈ timers s' ∧
  isSaving s' = isSaving s ∧
  (reloads_on_failure m = false → ∀ sc, loaded sc s' = loaded sc s).
Proof.
  intros (s0 & Hkept0 & Hreloads0 & Hconsole0 & Hloaded0 & ->) s'.
  destruct (failure_handler m e s0) as (Hthrow & Hlogged & Hcount & Hkept & Hdata).
  cbv zeta in *.
  set (sb := on_failure rs m e s0) in *.
  pose proof (guard_kept_trans _ _ _ Hkept0 Hkept)
    as (Hsaving & Hnow & _ & _ & _).
  split; [exact Hthrow|]. split; [exact Hlogged|].
  split; [unfold s'; simpl; lia|].
  split; [unfold s', release_guard_later; simpl; rewrite Hnow; by left|].
  split; [exact Hsaving|].
  intros Hno sc. specialize (Hdata Hno sc). rewrite <- Hloaded0, <- Hdata.
  by destruct sc.
Qed.
End Mutations.

(** X18. When the write of a mutation fails, the promise of [saveItem],
    [deleteItem], [saveSettings] or [saveAiConfig] rejects with the error
    of the write; the error is logged under the mutation's own message;
    [saveItem] and [saveSettings] then run one full reload, [deleteItem] and
    [saveAiConfig] run none and leave all data as it is; and in every case
    the guard is not released at once but by a timer 100 ms later. *)
Theorem failed_write_is_reported (rs : UseData.Remote)
    (m : UseData.Mutation) (s : UseData.State) (e : JsError) :
  write_of m rs = Throw e →
  let s' := (UseData.finish (Some rs) m s).2 in
  (UseData.finish (Some rs) m s).1 = Throw e ∧
  message_of m ∈ UseData.console s' ∧
  UseData.reloads s'
    = (UseData.reloads s + (if reloads_on_failure m then 1 else 0))%nat ∧
  (UseData.now s + 100)%nat ∈ UseData.timers s' ∧
  UseData.isSaving s' = UseData.isSaving s ∧
  (reloads_on_failure m = false → ∀ sc, loaded sc s' = loaded sc s).
Proof.
  intros Hwrite s'.
  assert (∃ sb, UseData.finish (Some rs) m s
                = (sb.1, UseData.release_guard_later sb.2) ∧
                ∃ s0, guard_kept s s0 ∧
                      UseData.reloads s0 = UseData.reloads s ∧
                      UseData.console s0 = UseData.console s ∧
                      (∀ sc, loaded sc s0 = loaded sc s) ∧
                      sb = on_failure rs m e s0) as (sb & Hrun & Hsb).
  { exists (on_failure rs m e s). split.
    - unfold UseData.finish, UseData.try_finally, try_catch.
      destruct m as [| |newSettings|config]; simpl in Hwrite;
        unfold bind at 1, lift; rewrite Hwrite.
      all: match goal with
           | |- (let (o, s') := ?body in _) = (?failure.1, _) =>
               change body with failure; by destruct failure
           end.
    - exists s. split; [apply guard_kept_refl|].
      repeat (split; [reflexivity|]). reflexivity. }
  unfold s'. rewrite Hrun. simpl. exact (finish_failed rs m e s sb Hsb).
Qed.

Lemma failed_write_is_reported_witness :
  let rs :=
    {| UseData.connected := true; UseData.has_mymodule := true;
       UseData.has_ai_wallet := true;
       UseData.mymodule_getItemsList := Some (Ok (UseData.DArray ["note"]));
       UseData.mymodule_loadSettings :=
         Some (Ok (UseData.DObject "{theme:dark}"));
       UseData.todonna_getAll := None;
       UseData.einkauf_getItemsList := None;
       UseData.ai_wallet_getConfig := None;
       UseData.mymodule_saveItem := Ok tt;
       UseData.mymodule_deleteItem := Ok tt;
       UseData.mymodule_saveSettings := Throw Sample.server_error;
       UseData.ai_wallet_setConfig := Ok tt |} in
  let save := UseData.SaveSettings (UseData.DObject "{theme:light}") in
  let s := UseData.run (Some rs) [UseData.Mount; UseData.Begin save]
             UseData.initial in
  UseData.settings s = UseData.DObject "{theme:light}" ∧
  (UseData.finish (Some rs) save s).1 = Throw Sample.server_error ∧
  UseData.settings (UseData.finish (Some rs) save s).2
    = UseData.DObject "{theme:dark}" ∧
  UseData.isSaving (UseData.finish (Some rs) save s).2 = true.
Proof.
  intros rs save s.
  destruct (failed_write_is_reported rs save s Sample.server_error eq_refl)
    as (Hthrow & _ & _ & _ & Hsaving & _).
  split; [reflexivity|]. split; [exact Hthrow|].
  split; [reflexivity|]. rewrite Hsaving. reflexivity.
Defined.

(** X19. [saveItem] and [deleteItem] refresh the list of items after their
    write. When the write succeeds but the refresh fails - [getItemsList]
    rejects, or is missing, which is a [TypeError] since the call is not
    guarded - the mutation is reported as failed all the same: its promise
    rejects with the error of the refresh, logged under the mutation's
    message, and [saveItem] runs a full reload. *)
Theorem failed_refresh_fails_the_save (rs : UseData.Remote)
    (m : UseData.Mutation) (s : UseData.State) (e : JsError) :
  m = UseData.SaveItem ∨ m = UseData.DeleteItem →
  write_of m rs = Ok tt →
  UseData.mymodule_getItemsList rs = Some (Throw e) ∨
  (UseData.mymodule_getItemsList rs = None ∧
   e = UseData.TypeError_not_a_function) →
  let s' := (UseData.finish (Some rs) m s).2 in
  (UseData.finish (Some rs) m s).1 = Throw e ∧
  message_of m ∈ UseData.console s' ∧
  UseData.reloads s'
    = (UseData.reloads s + (if reloads_on_failure m then 1 else 0))%nat ∧
  (UseData.now s + 100)%nat ∈ UseData.timers s' ∧
  UseData.isSaving s' = UseData.isSaving s.
Proof.
  intros Hm Hwrite Hlist s'.
  assert (UseData.call_getItemsList rs s = (Throw e, s)) as Hcall.
  { unfold UseData.call_getItemsList.
    destruct Hlist as [-> | [-> ->]]; reflexivity. }
  assert (UseData.finish (Some rs) m s
          = ((on_failure rs m e s).1,
             UseData.release_guard_later (on_failure rs m e s).2)) as Hrun.
  { unfold UseData.finish, UseData.try_finally, try_catch.
    destruct Hm as [-> | ->]; simpl in Hwrite;
      unfold bind at 1, lift; rewrite Hwrite; unfold bind at 1;
      rewrite Hcall;
      match goal with
      | |- (let (o, s') := ?body in _) = (?failure.1, _) =>
          change body with failure; by destruct failure
      end. }
  unfold s'. rewrite Hrun. simpl.
  destruct (finish_failed rs m e s (on_failure rs m e s))
    as (? & ? & ? & ? & ? & _); [|auto].
  exists s. split; [apply guard_kept_refl|].
  repeat (split; [reflexivity|]). reflexivity.
Qed.

Lemma failed_refresh_fails_the_save_witness :
  let rs :=
    {| UseData.connected := true; UseData.has_mymodule := true;
       UseData.has_ai_wallet := true;
       UseData.mymodule_getItemsList := None;
       UseData.mymodule_loadSettings := None;
       UseData.todonna_getAll := Some (Ok (UseData.DArray ["Buy milk"]));
       UseData.einkauf_getItemsList := None;
       UseData.ai_wallet_getConfig := None;
       UseData.mymodule_saveItem := Ok tt;
       UseData.mymodule_deleteItem := Ok tt;
       UseData.mymodule_saveSettings := Ok tt;
       UseData.ai_wallet_setConfig := Ok tt |} in
  let s := UseData.run (Some rs) [UseData.Mount; UseData.Begin UseData.SaveItem]
             UseData.initial in
  (UseData.finish (Some rs) UseData.SaveItem s).1
    = Throw UseData.TypeError_not_a_function ∧
  UseData.reloads (UseData.finish (Some rs) UseData.SaveItem s).2 = 2%nat.
Proof.
  intros rs s.
  destruct (failed_refresh_fails_the_save rs UseData.SaveItem s
              UseData.TypeError_not_a_function (or_introl eq_refl) eq_refl
              (or_intror (conj eq_refl eq_refl)))
    as (Hthrow & _ & Hreloads & _).
  split; [exact Hthrow|]. rewrite Hreloads. reflexivity.
Defined.

Section Timers.
Import UseData.

Lemma fire_timers_later t s :
  t ∈ timers s → (now s < t)%nat →
  t ∈ timers (fire_timers s) ∧ now (fire_timers s) = now s ∧
  isConnected (fire_timers s) = isConnected s.
Proof.
  intros Ht Hlater. unfold fire_timers.
  destruct (filter (fun t => t ≤ now s)%nat (timers s)); [auto|].
  simpl. split; [|auto]. apply list_elem_of_filter. split; [lia|exact Ht].
Qed.

Lemma fire_timers_due t s :
  t ∈ timers s → (t ≤ now s)%nat → isSaving (fire_timers s) = false.
Proof.
  intros Ht Hdue. unfold fire_timers.
  destruct (filter (fun t => t ≤ now s)%nat (timers s)) as [|t0 due] eqn:Hfired;
    [|reflexivity].
  assert (t ∈ filter (fun t => t ≤ now s)%nat (timers s)) as Hin.
  { by apply list_elem_of_filter. }
  rewrite Hfired in Hin. inversion Hin.
Qed.
End Timers.

(** X20. The guard does not count the writes in flight. When a second
    mutation begins less than 100 ms after an earlier one has settled, it
    sets the guard again, but the timer of the earlier one releases it
    100 ms after that one settled - while the write of the second is still
    in flight - so that change notifications reload again. *)
Theorem earlier_timer_releases_the_guard (rs : UseData.Remote)
    (s : UseData.State) (m1 m2 : UseData.Mutation) (a b : nat) :
  UseData.isConnected s = true →
  UseData.module_present (Some rs) m2 = true →
  (a < 100 ≤ a + b)%nat →
  let s1 := UseData.run (Some rs)
              [UseData.Settle m1; UseData.Elapse a; UseData.Begin m2] s in
  let s2 := UseData.handle (Some rs) (UseData.Elapse b) s1 in
  UseData.isSaving s1 = true ∧
  UseData.isSaving s2 = false ∧
  (UseData.listening s2 = true →
   UseData.reloads (UseData.handle (Some rs) UseData.Change s2)
   = S (UseData.reloads s2)).
Proof.
  intros Hconnected Hpresent Hab s1 s2.
  destruct (finish_guard (Some rs) m1 s) as [Hkept Htimer].
  specialize (Htimer ltac:(by eexists)).
  destruct Hkept as (_ & Hnow & _ & Hconn & _).
  set (sa := (UseData.finish (Some rs) m1 s).2) in *.
  set (sb := UseData.handle (Some rs) (UseData.Elapse a) sa).
  destruct (fire_timers_later (UseData.now s + 100)
              (UseData.setNow (UseData.now sa + a) sa))
    as (Htimer_b & Hnow_b & Hconn_b); [exact Htimer|simpl; lia|].
  fold (UseData.handle (Some rs) (UseData.Elapse a) sa) in Htimer_b, Hnow_b, Hconn_b.
  fold sb in Htimer_b, Hnow_b, Hconn_b. simpl in Hnow_b, Hconn_b.
  assert (s1 = UseData.handle (Some rs) (UseData.Begin m2) sb) as Hs1
    by reflexivity.
  assert (UseData.isSaving s1 = true ∧
          UseData.timers s1 = UseData.timers sb ∧
          UseData.now s1 = UseData.now sb) as (Hsaving1 & Htimers1 & Hnow1).
  { rewrite Hs1. simpl. unfold UseData.begin.
    rewrite Hpresent, Hconn_b, Hconn, Hconnected. simpl.
    destruct m2; repeat split; reflexivity. }
  split; [exact Hsaving1|].
  assert (UseData.isSaving s2 = false) as Hfree.
  { unfold s2. simpl.
    apply (fire_timers_due (UseData.now s + 100)); simpl.
    - rewrite Htimers1. exact Htimer_b.
    - rewrite Hnow1, Hnow_b, Hnow. lia. }
  split; [exact Hfree|].
  intros Hlistening. simpl. rewrite Hlistening. unfold UseData.changeHandler.
  rewrite Hfree. apply loadAllData_counts.
Qed.

Lemma earlier_timer_releases_the_guard_witness :
  let rs := Some Home.healthy in
  let s := UseData.run rs [UseData.Mount; UseData.Begin UseData.SaveItem]
             UseData.initial in
  let s2 := UseData.run rs
              [UseData.Settle UseData.SaveItem; UseData.Elapse 60;
               UseData.Begin UseData.DeleteItem; UseData.Elapse 40] s in
  UseData.isSaving s2 = false ∧
  UseData.reloads (UseData.handle rs UseData.Change s2) = 2%nat.
Proof.
  intros rs s s2.
  destruct (earlier_timer_releases_the_guard Home.healthy s UseData.SaveItem
              UseData.DeleteItem 60 40 eq_refl eq_refl ltac:(lia))
    as (_ & Hfree & Hreload).
  split; [exact Hfree|]. exact (Hreload eq_refl).
Defined.

(** ** More on reconciliation *)

Section Accounting.
Context `{JsRuntime} (bk : Backend).

(** Without options a batch counts every item once. *)
Lemma loop_accounts {A} (op : A → M unit) id_of total items i result w res w' :
  Todonna.loop op id_of None total i items result w = (Ok res, w') →
  (succeeded res + failed res
   = succeeded result + failed result + length items)%nat ∧
  (length (errors res) + failed result
   = length (errors result) + failed res)%nat.
Proof.
  intros Hrun. split.
  - eapply loop_counts_all; [apply quiet_None|by left|exact Hrun].
  - apply loop_counts in Hrun; [lia|apply quiet_None].
Qed.

Lemma interleave_accounts turns adds updates removes w a u r w' :
  Todonna.interleave bk turns adds updates removes w = (Ok (a, u, r), w') →
  accounted adds a ∧ accounted updates u ∧ accounted removes r.
Proof.
  revert adds updates removes w.
  induction turns as [|turn turns IH]; intros adds updates removes w.
  - simpl. unfold bind.
    destruct (Todonna.loop (Todonna.add bk) _ _ _ _ _ _ w)
      as [[a0|e] wa] eqn:Ha; [|discriminate].
    destruct (Todonna.loop (fun u => Todonna.update bk u.1 u.2) _ _ _ _ _ _ wa)
      as [[u0|e] wu] eqn:Hu; [|discriminate].
    destruct (Todonna.loop (Todonna.remove bk) _ _ _ _ _ _ wu)
      as [[r0|e] wr] eqn:Hr; [|discriminate].
    intros [= <- <- <- <-].
    apply loop_accounts in Ha, Hu, Hr. auto.
  - destruct turn; simpl.
    + destruct (Todonna.pending adds) as [|todo rest] eqn:Hpending.
      { intros Hrun. by apply IH in Hrun. }
      unfold bind. rewrite iterate_run.
      destruct (Todonna.add bk todo w) as [[[]|e] w1]; intros Hrun;
        apply IH in Hrun as (Ha & Hu & Hr);
        (split; [|split; assumption]);
        unfold accounted in *; rewrite Hpending; simpl in *;
        rewrite ?length_app in *; simpl in *; lia.
    + destruct (Todonna.pending updates) as [|up rest] eqn:Hpending.
      { intros Hrun. by apply IH in Hrun. }
      unfold bind. rewrite iterate_run.
      destruct (Todonna.update bk up.1 up.2 w) as [[[]|e] w1]; intros Hrun;
        apply IH in Hrun as (Ha & Hu & Hr);
        (split; [assumption|split; [|assumption]]);
        unfold accounted in *; rewrite Hpending; simpl in *;
        rewrite ?length_app in *; simpl in *; lia.
    + destruct (Todonna.pending removes) as [|id rest] eqn:Hpending.
      { intros Hrun. by apply IH in Hrun. }
      unfold bind. rewrite iterate_run.
      destruct (Todonna.remove bk id w) as [[[]|e] w1]; intros Hrun;
        apply IH in Hrun as (Ha & Hu & Hr);
        (split; [assumption|split; [assumption|]]);
        unfold accounted in *; rewrite Hpending; simpl in *;
        rewrite ?length_app in *; simpl in *; lia.
Qed.

Lemma diff_splits existing todos :
  (length (Todonna.toAdd (Todonna.diff existing todos))
   + length (Todonna.toUpdate (Todonna.diff existing todos))
   = length todos)%nat.
Proof.
  simpl. induction todos as [|t todos IH]; [reflexivity|].
  destruct (decide (TodoItem.id t ∈ Todonna.ids_of existing)).
  - rewrite filter_cons_False by (intros ?; contradiction).
    rewrite filter_cons_True by done. simpl. lia.
  - rewrite filter_cons_True by done.
    rewrite filter_cons_False by done. simpl. lia.
Qed.
End Accounting.

(** X21. [replaceAll] accounts for every operation it plans, in whatever
    order its three batches take their turns: once the snapshot is read,
    [succeeded + failed] is the number of new todos plus the number of
    todos of the snapshot that are to be removed, and [errors] holds
    [failed] entries. When the listing is rejected, [replaceAll] rejects
    with the same error and writes nothing. *)
Theorem replaceAll_accounts_for_everything `{JsRuntime} (bk : Backend)
    (turns : list Todonna.Turn) (todos : list TodoItem.t) (w : World) :
  (∀ existing w0,
     Todonna.getAll bk
       (Some {| maxAge := None; includeRemoved := Some true |}) w
       = (Ok existing, w0) →
     ∃ res w',
       Todonna.replaceAll bk turns todos w = (Ok res, w') ∧
       (succeeded res + failed res
        = length todos
          + length (Todonna.toRemove (Todonna.diff existing todos)))%nat ∧
       length (errors res) = failed res) ∧
  (∀ e, listing_fault bk = Some (ListingRejects e) →
        ∃ w', Todonna.replaceAll bk turns todos w = (Throw e, w') ∧
              objects w' = objects w).
Proof.
  split.
  - intros existing w0 Hsnapshot.
    destruct (replaceAll_run bk turns todos w existing w0 Hsnapshot)
      as (a & u & r & w' & Hbatches & Hrun).
    exists (Todonna.merge_results a u r), w'. split; [exact Hrun|].
    apply interleave_accounts in Hbatches as ([Ha Ha'] & [Hu Hu'] & [Hr Hr']).
    pose proof (diff_splits existing todos) as Hsplit.
    simpl in *. rewrite !length_app. rewrite length_fmap in Hu. lia.
  - intros e Hlisting. unfold Todonna.replaceAll, bind.
    rewrite (getAll_rejected bk _ w e Hlisting). eexists. split; reflexivity.
Qed.

Lemma replaceAll_accounts_for_everything_witness :
  ∃ res w',
    @Todonna.replaceAll Sample.utc2 Sample.stubborn [Todonna.TurnRemove]
      [Scenario.two_pending]
      (Sample.scope [("x", Object Sample.textless_wire);
                     ("1", Object Scenario.one_pending)]) = (Ok res, w') ∧
    succeeded res = 2%nat ∧ failed res = 0%nat.
Proof.
  destruct (@replaceAll_accounts_for_everything Sample.utc2 Sample.stubborn
              [Todonna.TurnRemove] [Scenario.two_pending]
              (Sample.scope [("x", Object Sample.textless_wire);
                             ("1", Object Scenario.one_pending)]))
    as [Haccounts _].
  destruct (Todonna.getAll Sample.stubborn
              (Some {| maxAge := None; includeRemoved := Some true |})
              (Sample.scope [("x", Object Sample.textless_wire);
                             ("1", Object Scenario.one_pending)]))
    as [[existing|e] w0] eqn:Hsnapshot;
    [|vm_compute in Hsnapshot; discriminate].
  destruct (Haccounts existing w0 eq_refl) as (res & w' & Hrun & _).
  exists res, w'. split; [exact Hrun|].
  vm_compute in Hrun. injection Hrun as <- _. split; reflexivity.
Defined.

(** ** The AI proxy *)

Section Proxy.
Import AiProxy.
Context (generateText : GenerateRequest → Outcome (option Json)).

Lemma property_source name body :
  property name (if json_truthy body then body else JObject [])
  = property name body.
Proof. by destruct body as [|[]| | | |]; simpl; try destruct (negb _). Qed.

Lemma POST_unreadable e log :
  POST generateText (Throw e) log = (Ok (proxy_failed e), log).
Proof. reflexivity. Qed.

Lemma POST_accepted body request log :
  accepted body request →
  POST generateText (Ok body) log =
    (Ok match generateText request with
        | Ok text =>
            json_response
              (JObject match text with
                       | Some t => [("text", t)]
                       | None => []
                       end) 200
        | Throw e => proxy_failed e
        end, request :: log).
Proof.
  intros (He & Het & Hk & Hkt & Hm & Hmt & Hs & [items Hitems] & Ht).
  unfold POST, try_catch, bind at 1, lift. cbv zeta.
  rewrite !property_source, He, Hk, Hm, Hs. simpl.
  rewrite Het, Hkt, Hmt, Hitems. simpl.
  unfold bind, call_provider. rewrite <- Hitems, <- Ht.
  destruct request as [k u m ms t]. simpl.
  destruct (generateText _) as [text|e]; reflexivity.
Qed.

Lemma POST_refused body log :
  (¬ ∃ request, accepted body request) →
  POST generateText (Ok body) log = (Ok bad_request, log).
Proof.
  intros Hrefused.
  unfold POST, try_catch, bind at 1, lift. cbv zeta.
  rewrite !property_source.
  destruct (negb (defined_truthy (property "endpoint" body))
            || negb (defined_truthy (property "apiKey" body))
            || negb (defined_truthy (property "model" body))
            || negb (isArray (property "messages" body))) eqn:Hcheck;
    [reflexivity|].
  exfalso. apply Hrefused.
  apply orb_false_iff in Hcheck as [Hcheck Hs].
  apply orb_false_iff in Hcheck as [Hcheck Hm].
  apply orb_false_iff in Hcheck as [He Hk].
  apply negb_false_iff in He, Hk, Hm, Hs.
  destruct (property "endpoint" body) as [endpoint|] eqn:Ee; [|discriminate].
  destruct (property "apiKey" body) as [apiKey|] eqn:Ek; [|discriminate].
  destruct (property "model" body) as [model|] eqn:Em; [|discriminate].
  destruct (property "messages" body) as [[| | | |items|]|] eqn:Es;
    try discriminate.
  exists {| apiKey := apiKey; baseURL := endpoint; model := model;
            messages := JArray items;
            temperature := default (JNumber (QArith_base.Qmake 1 2))
                                   (property "temperature" body) |}.
  unfold accepted. simpl. rewrite Ee, Ek, Em, Es. eauto 12.
Qed.

Lemma accepted_dec body :
  (∃ request, accepted body request) ∨ ¬ ∃ request, accepted body request.
Proof.
  destruct (property "endpoint" body) as [endpoint|] eqn:Ee;
    [|right; intros [r (He & _)]; congruence].
  destruct (json_truthy endpoint) eqn:Het;
    [|right; intros [r (He & Hr & _)]; congruence].
  destruct (property "apiKey" body) as [apiKey|] eqn:Ek;
    [|right; intros [r (_ & _ & Hk & _)]; congruence].
  destruct (json_truthy apiKey) eqn:Hkt;
    [|right; intros [r (_ & _ & Hk & Hr & _)]; congruence].
  destruct (property "model" body) as [model|] eqn:Em;
    [|right; intros [r (_ & _ & _ & _ & Hm & _)]; congruence].
  destruct (json_truthy model) eqn:Hmt;
    [|right; intros [r (_ & _ & _ & _ & Hm & Hr & _)]; congruence].
  destruct (property "messages" body) as [messages|] eqn:Es;
    [|right; intros [r (_ & _ & _ & _ & _ & _ & Hs & _)]; congruence].
  destruct messages as [| | | |items|] eqn:Hitems;
    try (right; intros [r (_ & _ & _ & _ & _ & _ & Hs & [items Hr] & _)];
         congruence).
  left.
  exists {| apiKey := apiKey; baseURL := endpoint; model := model;
            messages := JArray items;
            temperature := default (JNumber (QArith_base.Qmake 1 2))
                                   (property "temperature" body) |}.
  unfold accepted. simpl. eauto 12.
Qed.
End Proxy.

(** X22. The proxy always answers: [POST] never rejects, its answer is
    JSON with status 200, 400 or 500, and it calls the provider at most
    once - never when it answers 400, and only with a truthy endpoint, key
    and model and an array of messages. It answers 200 only when the
    provider produced a result. *)
Theorem proxy_always_answers
    (generateText : AiProxy.GenerateRequest → Outcome (option AiProxy.Json))
    (request_json : Outcome AiProxy.Json)
    (log : list AiProxy.GenerateRequest) :
  ∃ response log',
    AiProxy.POST generateText request_json log = (Ok response, log') ∧
    AiProxy.headers response = [("Content-Type", "application/json")] ∧
    (AiProxy.status response = 200 ∨ AiProxy.status response = 400 ∨
     AiProxy.status response = 500) ∧
    (log' = log ∨
     ∃ request,
       log' = request :: log ∧
       AiProxy.json_truthy (AiProxy.baseURL request) = true ∧
       AiProxy.json_truthy (AiProxy.apiKey request) = true ∧
       AiProxy.json_truthy (AiProxy.model request) = true ∧
       ∃ items, AiProxy.messages request = AiProxy.JArray items) ∧
    (AiProxy.status response = 400 → log' = log) ∧
    (AiProxy.status response = 200 →
     ∃ request text, log' = request :: log ∧ generateText request = Ok text).
Proof.
  destruct request_json as [body|e].
  - destruct (accepted_dec body) as [[request Haccepted]|Hrefused].
    + rewrite (POST_accepted generateText body request log Haccepted).
      destruct Haccepted as (_ & Het & _ & Hkt & _ & Hmt & _ & Hitems & _).
      eexists _, _. split; [reflexivity|].
      destruct (generateText request) as [text|e] eqn:Htext; simpl.
      * split; [reflexivity|]. split; [by left|].
        split; [right; eauto 10|]. split; [discriminate|]. eauto.
      * split; [reflexivity|]. split; [by right; right|].
        split; [right; eauto 10|]. split; discriminate.
    + rewrite (POST_refused generateText body log Hrefused).
      eexists _, _. split; [reflexivity|]. simpl.
      split; [reflexivity|]. split; [by right; left|].
      split; [by left|]. split; [reflexivity|discriminate].
  - rewrite POST_unreadable. eexists _, _. split; [reflexivity|]. simpl.
    split; [reflexivity|]. split; [by right; right|].
    split; [by left|]. split; discriminate.
Qed.

(** X23. What the proxy answers. A body that cannot be parsed gives 500
    with the message of the error as detail, without a call of the
    provider. A body that is not accepted - not an object, or [endpoint],
    [apiKey] or [model] missing or falsy, or [messages] not an array - gives
    400, without a call of the provider. An accepted body gives one call of
    the provider with the fields of the body, at the temperature of the body
    or 0.5 when the body has no such key (a null is passed on), and then 200
    with the text, or 500 with the message of what the provider threw. *)
Theorem proxy_validates_first
    (generateText : AiProxy.GenerateRequest → Outcome (option AiProxy.Json))
    (log : list AiProxy.GenerateRequest) :
  (∀ e, AiProxy.POST generateText (Throw e) log = (Ok (proxy_failed e), log)) ∧
  (∀ body,
     (¬ ∃ request, accepted body request) →
     AiProxy.POST generateText (Ok body) log = (Ok bad_request, log)) ∧
  (∀ body request,
     accepted body request →
     AiProxy.POST generateText (Ok body) log =
       (Ok match generateText request with
           | Ok text =>
               AiProxy.json_response
                 (AiProxy.JObject match text with
                                  | Some t => [("text", t)]
                                  | None => []
                                  end) 200
           | Throw e => proxy_failed e
           end, request :: log)).
Proof.
  split; [|split].
  - intros e. apply POST_unreadable.
  - intros body. apply POST_refused.
  - intros body request. apply POST_accepted.
Qed.

Lemma proxy_validates_first_witness :
  let echo (request : AiProxy.GenerateRequest) :=
    Ok (Some (AiProxy.temperature request)) in
  let body temperature :=
    AiProxy.JObject
      ([("endpoint", AiProxy.JString "https://llm.example");
        ("apiKey", AiProxy.JString "k"); ("model", AiProxy.JString "m");
        ("messages", AiProxy.JArray [])] ++ temperature) in
  let request temperature :=
    {| AiProxy.apiKey := AiProxy.JString "k";
       AiProxy.baseURL := AiProxy.JString "https://llm.example";
       AiProxy.model := AiProxy.JString "m";
       AiProxy.messages := AiProxy.JArray [];
       AiProxy.temperature := temperature |} in
  let half := AiProxy.JNumber (QArith_base.Qmake 1 2) in
  AiProxy.POST echo (Ok (body [])) []
    = (Ok (AiProxy.json_response (AiProxy.JObject [("text", half)]) 200),
       [request half]) ∧
  AiProxy.POST echo (Ok (body [("temperature", AiProxy.JNull)])) []
    = (Ok (AiProxy.json_response
             (AiProxy.JObject [("text", AiProxy.JNull)]) 200),
       [request AiProxy.JNull]) ∧
  AiProxy.POST echo (Ok (AiProxy.JArray [body []])) [] = (Ok bad_request, []).
Proof.
  intros echo body request half.
  destruct (proxy_validates_first echo []) as (_ & Hrefused & Haccepted).
  split; [|split].
  - rewrite (Haccepted (body []) (request half)); [reflexivity|].
    unfold accepted. simpl. eauto 12.
  - rewrite (Haccepted (body [("temperature", AiProxy.JNull)])
               (request AiProxy.JNull)); [reflexivity|].
    unfold accepted. simpl. eauto 12.
  - rewrite Hrefused; [reflexivity|]. intros [r (He & _)]. discriminate.
Defined.

(** ** The page *)

Section PageFacts.
Import AiProxy Page.
Context `{JsStrings} (fetch : Json → Outcome FetchResponse) (props : Props).

(** A call of the advisor either stops at the check of the trimmed
    endpoint and key, without a request, or sends one request; what it
    returns is never empty. *)
Lemma callAiAdvisor_run config s :
  let run := callAiAdvisor fetch props (Some config) s in
  let endpoint := trim <$> endpoint config in
  let apiKey := trim <$> apiKey config in
  (truthy endpoint && truthy apiKey = false ∧
   run = (Throw (new_Error "AI wallet is missing endpoint or API key."), s))
  ∨
  (truthy endpoint = true ∧ truthy apiKey = true ∧
   run.2 = sent (payload props config endpoint apiKey) s ∧
   ∀ v, run.1 = Ok v → json_truthy v = true).
Proof.
  intros run endpoint apiKey. unfold run, callAiAdvisor.
  fold endpoint apiKey.
  destruct (truthy endpoint) eqn:He; [|left; split; reflexivity].
  destruct (truthy apiKey) eqn:Hk; [|left; split; reflexivity].
  right. split; [reflexivity|]. split; [reflexivity|]. simpl.
  unfold bind, setState, lift.
  destruct (fetch _) as [response|e]; [|split; [reflexivity|discriminate]].
  destruct (ok response); simpl.
  - destruct (response_json response) as [data|e];
      [|split; [reflexivity|discriminate]].
    split; [reflexivity|]. intros v [= <-].
    destruct (defined_truthy (property "text" data)) eqn:Htext;
      [|reflexivity].
    destruct (property "text" data) as [text|]; [|discriminate].
    simpl in *. by rewrite Htext.
  - destruct (response_text response) as [text|e];
      split; try reflexivity; discriminate.
Qed.

Lemma wallet_trimmed config :
  aiConfig props = Some config →
  wallet props endpoint = endpoint config ∧ wallet props apiKey = apiKey config.
Proof. intros Hconfig. unfold wallet. rewrite Hconfig. split; reflexivity. Qed.

(** The payload of a request is accepted by the proxy. *)
Lemma payload_accepted config (e k : string) :
  e ≠ "" → k ≠ "" →
  ∃ request,
    accepted (payload props config (Some e) (Some k)) request ∧
    baseURL request = JString e ∧ AiProxy.apiKey request = JString k ∧
    temperature request = JNumber (QArith_base.Qmake 1 2) ∧
    model request
      = JString (if truthy (llm config) then default "" (llm config)
                 else "gpt-4o-mini").
Proof.
  intros He Hk.
  eexists {| AiProxy.apiKey := _; baseURL := _; model := _; messages := _;
             temperature := _ |}.
  split; [|simpl; repeat split; reflexivity].
  unfold accepted, payload, property. cbn [get_field].
  repeat match goal with
         | |- context [String.eqb ?a ?b] =>
             let b' := eval vm_compute in (String.eqb a b) in
             change (String.eqb a b) with b'
         end.
  cbn [baseURL AiProxy.apiKey model messages temperature default json_truthy].
  split; [reflexivity|].
  split; [by apply negb_true_iff, String.eqb_neq|].
  split; [reflexivity|].
  split; [by apply negb_true_iff, String.eqb_neq|].
  split; [reflexivity|].
  split.
  { destruct (truthy (llm config)) eqn:Hllm; [|reflexivity].
    destruct (llm config) as [m|]; [exact Hllm|discriminate]. }
  split; [reflexivity|]. split; [eauto|reflexivity].
Qed.
End PageFacts.

Section Generate.
Import AiProxy Page.
Context `{JsStrings} (fetch : Json → Outcome FetchResponse) (props : Props).

(** The state when [handleGenerate] turns to the AI. *)
Lemma handleGenerate_run s :
  isGenerating s = false →
  let s0 :=
    setAnalysis (analysisLog props)
      (setSuggestions (newSuggestions props)
         (setAiAnswer (JString "")
            (setAiError "" (setIsGenerating true s)))) in
  handleGenerate fetch props s =
    (Ok tt,
     setIsGenerating false
       (if truthy (wallet props endpoint) && truthy (wallet props apiKey) then
          match callAiAdvisor fetch props (aiConfig props) s0
          with
          | (Ok aiText, s1) =>
              setStatus "Fresh AI-backed suggestions ready."
                (setAiAnswer aiText s1)
          | (Throw error, s1) =>
              setStatus "Static suggestions shown. AI call failed."
                (setAiError (if truthy (e_message error)
                             then default "" (e_message error)
                             else "AI advisor failed") s1)
          end
        else
          setStatus
            (if bool_decide (0 < length (newSuggestions props))%nat
             then "Fresh suggestions ready."
             else "No suggestions yet. Add a question or data.") s0)).
Proof.
  intros Hidle. cbv zeta. unfold handleGenerate. rewrite Hidle.
  unfold bind, setState, try_catch. cbv beta iota.
  destruct (truthy (wallet props endpoint) && truthy (wallet props apiKey));
    [|reflexivity].
  destruct (callAiAdvisor fetch props (aiConfig props) _)
    as [[aiText|error] s1]; reflexivity.
Qed.

(** The suggestion that asks for the wallet is there exactly when an
    endpoint or a key is missing. *)
Lemma wallet_suggestion :
  (∃ suggestion,
     suggestion ∈ newSuggestions props ∧ source suggestion = "ai-wallet")
  ↔ truthy (wallet props endpoint) && truthy (wallet props apiKey) = false.
Proof.
  unfold newSuggestions. cbv zeta.
  split.
  - intros (suggestion & Hin & Hsource).
    repeat (apply elem_of_app in Hin as [Hin|Hin]);
      try (repeat match type of Hin with
                  | _ ∈ (if ?c then _ else _) => destruct c
                  end;
           try (apply elem_of_nil in Hin; contradiction);
           apply list_elem_of_singleton in Hin; subst suggestion;
           discriminate).
    destruct (truthy (wallet props endpoint));
      destruct (truthy (wallet props apiKey)); try reflexivity.
    apply elem_of_nil in Hin. contradiction.
  - intros Hmissing. eexists. split.
    + do 4 (apply elem_of_app; right).
      assert (negb (truthy (wallet props endpoint))
              || negb (truthy (wallet props apiKey)) = true) as ->.
      { destruct (truthy (wallet props endpoint));
          destruct (truthy (wallet props apiKey)); done. }
      by left.
    + reflexivity.
Qed.
End Generate.

(** X24. [handleGenerate] never rejects and always clears [isGenerating]
    (while it is set, a further call changes nothing). The suggestion
    "Finish AI Wallet setup" is shown exactly when the AI is not tried, and
    then the status is "Fresh suggestions ready.": the status "No
    suggestions yet. Add a question or data." is never set, since a page
    that does not turn to the AI always has that suggestion to show. *)
Theorem wallet_suggestion_or_ai_call `{Page.JsStrings}
    (fetch : AiProxy.Json → Outcome Page.FetchResponse)
    (props : Page.Props) (s : Page.State) :
  (Page.isGenerating s = true →
   Page.handleGenerate fetch props s = (Ok tt, s)) ∧
  (Page.isGenerating s = false →
   ∃ s',
     Page.handleGenerate fetch props s = (Ok tt, s') ∧
     Page.isGenerating s' = false ∧
     Page.suggestions s' = Page.newSuggestions props ∧
     Page.analysis s' = Page.analysisLog props ∧
     ((∃ suggestion, suggestion ∈ Page.suggestions s' ∧
                     Page.source suggestion = "ai-wallet")
      ↔ Page.status s' = "Fresh suggestions ready.") ∧
     (Page.status s' = "Fresh suggestions ready." →
      Page.requests s' = Page.requests s ∧
      Page.aiAnswer s' = AiProxy.JString "" ∧ Page.aiError s' = "") ∧
     (Page.status s' = "Fresh suggestions ready." ∨
      Page.status s' = "Fresh AI-backed suggestions ready." ∨
      Page.status s' = "Static suggestions shown. AI call failed.")).
Proof.
  split.
  { intros Hbusy. unfold Page.handleGenerate. by rewrite Hbusy. }
  intros Hidle. rewrite (handleGenerate_run fetch props s Hidle).
  cbv zeta. eexists. split; [reflexivity|].
  pose proof (wallet_suggestion props) as Hwallet.
  destruct (truthy (Page.wallet props Page.endpoint)
            && truthy (Page.wallet props Page.apiKey)) eqn:Hready.
  - destruct (Page.callAiAdvisor fetch props _ _)
      as [[aiText|error] s1] eqn:Hcall.
    + assert (Page.suggestions s1 = Page.newSuggestions props ∧
              Page.analysis s1 = Page.analysisLog props) as [Hs Ha].
      { destruct (Page.aiConfig props) as [config|] eqn:Hconfig;
          [|discriminate].
        destruct (callAiAdvisor_run fetch props config
                    (Page.setAnalysis (Page.analysisLog props)
                       (Page.setSuggestions (Page.newSuggestions props)
                          (Page.setAiAnswer (AiProxy.JString "")
                             (Page.setAiError ""
                                (Page.setIsGenerating true s))))))
          as [[_ Hrun]|(_ & _ & Hrun & _)];
          rewrite Hcall in Hrun; [discriminate|].
        simpl in Hrun. subst s1. split; reflexivity. }
      simpl. split; [reflexivity|]. split; [exact Hs|]. split; [exact Ha|].
      split; [|split; [discriminate|auto]].
      rewrite Hs, Hwallet. split; discriminate.
    + assert (Page.suggestions s1 = Page.newSuggestions props ∧
              Page.analysis s1 = Page.analysisLog props) as [Hs Ha].
      { destruct (Page.aiConfig props) as [config|] eqn:Hconfig.
        - destruct (callAiAdvisor_run fetch props config
                      (Page.setAnalysis (Page.analysisLog props)
                         (Page.setSuggestions (Page.newSuggestions props)
                            (Page.setAiAnswer (AiProxy.JString "")
                               (Page.setAiError ""
                                  (Page.setIsGenerating true s))))))
            as [[_ Hrun]|(_ & _ & Hrun & _)];
            rewrite Hcall in Hrun.
          + injection Hrun as _ ->. split; reflexivity.
          + simpl in Hrun. subst s1. split; reflexivity.
        - injection Hcall as _ <-. split; reflexivity. }
      simpl. split; [reflexivity|]. split; [exact Hs|]. split; [exact Ha|].
      split; [|split; [discriminate|auto]].
      rewrite Hs, Hwallet. split; discriminate.
  - simpl. split; [reflexivity|]. split; [reflexivity|].
    split; [reflexivity|].
    assert (bool_decide (0 < length (Page.newSuggestions props))%nat = true)
      as ->.
    { apply bool_decide_eq_true.
      destruct Hwallet as [_ Hthere].
      destruct (Hthere eq_refl) as (suggestion & Hin & _).
      destruct (Page.newSuggestions props); [by apply elem_of_nil in Hin|].
      simpl. lia. }
    split; [by rewrite Hwallet|]. split; [auto|auto].
Qed.

Lemma wallet_suggestion_or_ai_call_witness :
  let without := Visit.props None in
  let s' := (@Page.handleGenerate AsciiText.strings Visit.answers without Page.initial).2 in
  Page.title <$> Page.suggestions s'
    = ["Prep for the upcoming party"; "Restock essentials";
       "Address your question"; "Finish AI Wallet setup"] ∧
  Page.status s' = "Fresh suggestions ready." ∧
  Page.requests s' = [].
Proof.
  intros without s'.
  destruct (@wallet_suggestion_or_ai_call AsciiText.strings Visit.answers without Page.initial) as [_ Hidle].
  destruct (Hidle eq_refl) as (s'' & Hrun & _ & Hsuggestions & _ & Hiff & _).
  unfold s'. rewrite Hrun. simpl.
  split; [rewrite Hsuggestions; vm_compute; reflexivity|].
  assert (Page.status s'' = "Fresh suggestions ready.") as Hstatus.
  { apply Hiff. rewrite Hsuggestions. eexists. split.
    - vm_compute. do 3 apply list_elem_of_further. apply list_elem_of_here.
    - reflexivity. }
  split; [exact Hstatus|].
  vm_compute in Hrun. injection Hrun as <-. reflexivity.
Defined.

(** X25. When [handleGenerate] turns to the AI it sends at most one
    request - none when the endpoint or the key is blank once trimmed -
    and ends in one of two ways: with the status "Fresh AI-backed
    suggestions ready.", a request sent, no error and an answer that is
    never empty (an empty or missing text is replaced), or with the status
    "Static suggestions shown. AI call failed.", no answer and an error
    message that is never empty. *)
Theorem ai_answer_or_error `{Page.JsStrings}
    (fetch : AiProxy.Json → Outcome Page.FetchResponse)
    (props : Page.Props) (s : Page.State) :
  Page.isGenerating s = false →
  let s' := (Page.handleGenerate fetch props s).2 in
  (Page.requests s' = Page.requests s ∨
   ∃ payload, Page.requests s' = payload :: Page.requests s) ∧
  (Page.status s' = "Fresh AI-backed suggestions ready." →
   AiProxy.json_truthy (Page.aiAnswer s') = true ∧ Page.aiError s' = "" ∧
   ∃ payload, Page.requests s' = payload :: Page.requests s) ∧
  (Page.status s' = "Static suggestions shown. AI call failed." →
   Page.aiAnswer s' = AiProxy.JString "" ∧ Page.aiError s' ≠ "") ∧
  (∀ config,
     Page.aiConfig props = Some config →
     truthy (Page.trim <$> Page.endpoint config) = false ∨
     truthy (Page.trim <$> Page.apiKey config) = false →
     Page.requests s' = Page.requests s).
Proof.
  intros Hidle s'. unfold s'.
  rewrite (handleGenerate_run fetch props s Hidle).
  cbv zeta. simpl.
  set (s0 := Page.setAnalysis _ _).
  assert (∀ error : JsError,
            (if truthy (e_message error) then default "" (e_message error)
             else "AI advisor failed") ≠ "") as Hmessage.
  { intros error. destruct (truthy (e_message error)) eqn:Hm; [|discriminate].
    destruct (e_message error) as [m|]; [|discriminate]. simpl in *.
    by apply String.eqb_neq, negb_true_iff. }
  destruct (truthy (Page.wallet props Page.endpoint)
            && truthy (Page.wallet props Page.apiKey)) eqn:Hready.
  2:{ simpl. split; [by left|].
      destruct (bool_decide _); repeat split; try discriminate; reflexivity. }
  destruct (Page.aiConfig props) as [config|] eqn:Hconfig.
  2:{ unfold Page.wallet in Hready. rewrite Hconfig in Hready. discriminate. }
  destruct (callAiAdvisor_run fetch props config s0)
    as [[Hblank Hrun]|(He & Hk & Hsent & Hanswer)].
  - rewrite Hrun. simpl. split; [by left|].
    split; [discriminate|]. split; [|reflexivity].
    intros _. split; [reflexivity|discriminate].
  - destruct (Page.callAiAdvisor fetch props (Some config) s0)
      as [[aiText|error] s1]; simpl in *; subst s1; simpl.
    + split; [right; by eexists|].
      split; [intros _; split; [by apply Hanswer|split; [reflexivity|by eexists]]|].
      split; [discriminate|].
      intros config' [= <-] [Hblank|Hblank]; congruence.
    + split; [right; by eexists|]. split; [discriminate|].
      split; [intros _; split; [reflexivity|apply Hmessage]|].
      intros config' [= <-] [Hblank|Hblank]; congruence.
Qed.

Lemma ai_answer_or_error_witness :
  let run fetch config :=
    (@Page.handleGenerate AsciiText.strings fetch (Visit.props (Some config)) Page.initial).2 in
  Page.aiAnswer (run Visit.answers Visit.spaced_wallet)
    = AiProxy.JString "Buy milk." ∧
  Page.aiError (run Visit.fails Visit.spaced_wallet)
    = "AI endpoint error (500): AI proxy failed" ∧
  Page.aiError (run Visit.answers Visit.blank_wallet)
    = "AI wallet is missing endpoint or API key." ∧
  Page.requests (run Visit.answers Visit.blank_wallet) = [].
Proof.
  intros run.
  destruct (@ai_answer_or_error AsciiText.strings Visit.answers (Visit.props (Some Visit.blank_wallet)) Page.initial eq_refl)
    as (_ & _ & _ & Hblank).
  split; [vm_compute; reflexivity|]. split; [vm_compute; reflexivity|].
  split; [vm_compute; reflexivity|].
  apply (Hblank Visit.blank_wallet eq_refl). left. vm_compute. reflexivity.
Defined.

(** X26. The page and the proxy agree: every request that [handleGenerate]
    sends is one that [POST] accepts - it is never answered with 400 - and
    for it the proxy calls the provider once, with the trimmed endpoint and
    key of the wallet, its model or "gpt-4o-mini" when it names none, and
    the temperature 0.5. *)
Theorem page_request_passes_the_proxy `{Page.JsStrings}
    (fetch : AiProxy.Json → Outcome Page.FetchResponse)
    (props : Page.Props) (s : Page.State)
    (payload : AiProxy.Json)
    (generateText : AiProxy.GenerateRequest → Outcome (option AiProxy.Json))
    (log : list AiProxy.GenerateRequest) :
  Page.isGenerating s = false →
  Page.requests (Page.handleGenerate fetch props s).2
    = payload :: Page.requests s →
  ∃ config e k request response,
    Page.aiConfig props = Some config ∧
    Page.endpoint config = Some e ∧ Page.apiKey config = Some k ∧
    AiProxy.POST generateText (Ok payload) log
      = (Ok response, request :: log) ∧
    AiProxy.status response ≠ 400 ∧
    AiProxy.baseURL request = AiProxy.JString (Page.trim e) ∧
    AiProxy.apiKey request = AiProxy.JString (Page.trim k) ∧
    AiProxy.model request
      = AiProxy.JString (if truthy (Page.llm config)
                         then default "" (Page.llm config)
                         else "gpt-4o-mini") ∧
    AiProxy.temperature request
      = AiProxy.JNumber (QArith_base.Qmake 1 2).
Proof.
  intros Hidle.
  rewrite (handleGenerate_run fetch props s Hidle).
  cbv zeta. simpl.
  set (s0 := Page.setAnalysis _ _).
  assert (∀ l : list AiProxy.Json, l ≠ payload :: l) as Hgrows.
  { intros l Hl. apply (f_equal length) in Hl. simpl in Hl. lia. }
  destruct (truthy (Page.wallet props Page.endpoint)
            && truthy (Page.wallet props Page.apiKey)) eqn:Hready.
  2:{ simpl. intros Hsent. by apply Hgrows in Hsent. }
  destruct (Page.aiConfig props) as [config|] eqn:Hconfig.
  2:{ unfold Page.wallet in Hready. rewrite Hconfig in Hready. discriminate. }
  destruct (callAiAdvisor_run fetch props config s0)
    as [[Hblank Hrun]|(He & Hk & Hsent & _)].
  { rewrite Hrun. simpl. intros Hsent. by apply Hgrows in Hsent. }
  intros Hpayload.
  assert (payload
          = Page.payload props config
              (Page.trim <$> Page.endpoint config)
              (Page.trim <$> Page.apiKey config)) as ->.
  { destruct (Page.callAiAdvisor fetch props (Some config) s0)
      as [[aiText|error] s1]; simpl in *; subst s1; simpl in Hpayload;
      by injection Hpayload. }
  destruct (Page.endpoint config) as [e|] eqn:Ee; [|discriminate].
  destruct (Page.apiKey config) as [k|] eqn:Ek; [|discriminate].
  simpl in He, Hk. apply negb_true_iff, String.eqb_neq in He, Hk.
  destruct (payload_accepted props config
              (Page.trim e) (Page.trim k) He Hk)
    as (request & Haccepted & Hurl & Hkey & Htemperature & Hmodel).
  exists config, e, k, request. eexists.
  split; [reflexivity|]. split; [exact Ee|]. split; [exact Ek|].
  split; [exact (POST_accepted generateText _ request log Haccepted)|].
  split; [by destruct (generateText request)|]. auto.
Qed.

Lemma page_request_passes_the_proxy_witness :
  let s' := (@Page.handleGenerate AsciiText.strings Visit.answers (Visit.props (Some Visit.spaced_wallet)) Page.initial).2 in
  let echo (request : AiProxy.GenerateRequest) :=
    Ok (Some (AiProxy.baseURL request)) in
  ∃ payload request response,
    Page.requests s' = [payload] ∧
    AiProxy.POST echo (Ok payload) [] = (Ok response, [request]) ∧
    AiProxy.baseURL request = AiProxy.JString "https://llm.example/v1" ∧
    AiProxy.model request = AiProxy.JString "gpt-4o-mini".
Proof.
  intros s' echo.
  destruct (Page.requests s') as [|payload rest] eqn:Hrequests;
    [vm_compute in Hrequests; discriminate|].
  assert (rest = []) as ->.
  { vm_compute in Hrequests. by injection Hrequests. }
  destruct (@page_request_passes_the_proxy AsciiText.strings Visit.answers (Visit.props (Some Visit.spaced_wallet)) Page.initial
              payload echo [] eq_refl Hrequests)
    as (config & e & k & request & response & Hconfig & He & _ & Hpost & _
        & Hurl & _ & Hmodel & _).
  exists payload, request, response. split; [reflexivity|].
  split; [exact Hpost|].
  injection Hconfig as <-. injection He as <-.
  split; [rewrite Hurl|rewrite Hmodel]; vm_compute; reflexivity.
Defined.
